(** * eBay seller monitor: change detection and notification engine

    A shallow embedding of the monitoring service (server entry point,
    [utils/webhooks], [utils/scraper], [utils/sellerManager]) and the
    properties of its diff step, its pagination policy, its retry loops and
    its notification dispatch.

    Conventions of the embedding.
    - JavaScript strings are [string]; a character is a code unit below 256.
    - Times and durations are integers ([Z]), in milliseconds.
    - [undefined] and [null] are [None].
    - Everything the process does to the outside (the clock, timers, the
      HTTP client, the browser, the sellers file) goes through one [World];
      what the outside answers is read from an [Env] of oracles, indexed by
      the number of requests made so far.
    - A timer fires exactly when its delay has elapsed. *)

From stdpp Require Import gmap strings list.
From Stdlib Require Import ZArith Ascii String.

Open Scope string_scope.
Open Scope Z_scope.

(** ** JavaScript string primitives used by the sources *)
Module Js.

Definition truthy (s : string) : bool :=
  match s with EmptyString => false | _ => true end.

(** [a || b] on values that are a string or [undefined]. *)
Definition orElse (a b : option string) : option string :=
  match a with
  | Some s => if truthy s then a else b
  | None => b
  end.

Definition truthyOpt (a : option string) : bool :=
  match a with Some s => truthy s | None => false end.

Fixpoint startsWith (p s : string) : bool :=
  match p, s with
  | EmptyString, _ => true
  | String a p', String b s' => if Ascii.eqb a b then startsWith p' s' else false
  | String _ _, EmptyString => false
  end.

Fixpoint includes (needle hay : string) : bool :=
  startsWith needle hay ||
  match hay with
  | EmptyString => false
  | String _ hay' => includes needle hay'
  end.

Definition lowerChar (c : ascii) : ascii :=
  let n := nat_of_ascii c in
  if ((65 <=? n) && (n <=? 90))%nat then ascii_of_nat (n + 32) else c.

Fixpoint toLowerCase (s : string) : string :=
  match s with
  | EmptyString => EmptyString
  | String c s' => String (lowerChar c) (toLowerCase s')
  end.

(** [s.split(sep)[0]] for a one-character separator. *)
Fixpoint beforeFirst (sep : ascii) (s : string) : string :=
  match s with
  | EmptyString => EmptyString
  | String c s' => if Ascii.eqb c sep then EmptyString else String c (beforeFirst sep s')
  end.

Definition isDigit (c : ascii) : bool :=
  let n := nat_of_ascii c in ((48 <=? n) && (n <=? 57))%nat.

Definition isAlpha (c : ascii) : bool :=
  let n := nat_of_ascii c in
  (((65 <=? n) && (n <=? 90)) || ((97 <=? n) && (n <=? 122)))%nat.

(** The class [\s] restricted to code units below 256. *)
Definition isSpace (c : ascii) : bool :=
  let n := nat_of_ascii c in
  (((9 <=? n) && (n <=? 13)) || (n =? 32) || (n =? 160))%nat.

(** The longest prefix of [s] whose characters satisfy [p], and the rest:
    what a greedy [c+] consumes. *)
Fixpoint span (p : ascii -> bool) (s : string) : string * string :=
  match s with
  | EmptyString => (EmptyString, EmptyString)
  | String c s' =>
      if p c then let '(run, rest) := span p s' in (String c run, rest)
      else (EmptyString, s)
  end.

End Js.

(** ** Items produced by the crawler *)

Record Listing := {
  l_itemId : string;
  l_title : string;
  l_link : string;
  l_price : string;
  l_sellerUsername : option string;
  l_storeName : string;
  l_listedDate : option string;
  l_imageUrl : option string }.

Record SoldItem := {
  itemId : string;
  title : string;
  link : string;
  price : string;
  sellerUsername : option string;
  storeName : string;
  imageUrl : option string;
  soldDate : string }.

(** ** The persisted seller record ([sellers.json]) *)

Record Seller := {
  s_storeName : string;
  s_ssn : option string;
  s_username : option string;
  s_type : string;
  lastCheckedListings : option Z;
  lastCheckedSold : option Z;
  knownListings : option (list string);
  knownSoldItems : option (list string);
  addedAt : Z }.

(** ** The world *)

Inductive Event :=
| EvSleep (ms : Z)
| EvPost (url : string)
| EvVisit (storeName : string) (ssn : option string)
| EvWrite (ok : bool).

Record World := {
  clock : Z;
  rateLimitState : gmap string Z;
  sellersFile : list Seller;
  posts : nat;
  visits : nat;
  writes : nat;
  trace : list Event }.

Definition setClock (t : Z) (w : World) : World :=
  {| clock := t; rateLimitState := rateLimitState w; sellersFile := sellersFile w;
     posts := posts w; visits := visits w; writes := writes w; trace := trace w |}.

Definition setRateLimitState (m : gmap string Z) (w : World) : World :=
  {| clock := clock w; rateLimitState := m; sellersFile := sellersFile w;
     posts := posts w; visits := visits w; writes := writes w; trace := trace w |}.

Definition setSellersFile (f : list Seller) (w : World) : World :=
  {| clock := clock w; rateLimitState := rateLimitState w; sellersFile := f;
     posts := posts w; visits := visits w; writes := writes w; trace := trace w |}.

Definition setPosts (n : nat) (w : World) : World :=
  {| clock := clock w; rateLimitState := rateLimitState w; sellersFile := sellersFile w;
     posts := n; visits := visits w; writes := writes w; trace := trace w |}.

Definition setVisits (n : nat) (w : World) : World :=
  {| clock := clock w; rateLimitState := rateLimitState w; sellersFile := sellersFile w;
     posts := posts w; visits := n; writes := writes w; trace := trace w |}.

Definition setWrites (n : nat) (w : World) : World :=
  {| clock := clock w; rateLimitState := rateLimitState w; sellersFile := sellersFile w;
     posts := posts w; visits := visits w; writes := n; trace := trace w |}.

Definition emit (e : Event) (w : World) : World :=
  {| clock := clock w; rateLimitState := rateLimitState w; sellersFile := sellersFile w;
     posts := posts w; visits := visits w; writes := writes w; trace := trace w ++ [e] |}.

(** Time spent outside the process (a request, a page load). *)
Definition elapse (ms : Z) (w : World) : World := setClock (clock w + Z.max 0 ms) w.

(** [await new Promise((resolve) => setTimeout(resolve, ms))].  The clock
    advances by the nominal delay; by how many milliseconds the runtime's
    timer fires earlier or later is not modelled. *)
Definition sleep (ms : Z) (w : World) : World := emit (EvSleep ms) (elapse ms w).

(** A call either returns or throws. *)
Inductive Result (A : Type) :=
| Ok (a : A)
| Threw (message : string).
Arguments Ok {A} a.
Arguments Threw {A} message.

(** ** What the outside answers *)

(** A rate-limit directive as the code reads it.  The header value is a
    string; it is represented by the number it spells (a decimal numeral,
    never the empty string).  The body field [retry_after] is a number. *)
Record ErrorResponse := {
  status : Z;
  retryAfterHeader : option Z;
  retryAfterBody : option Z }.

Inductive PostOutcome :=
| PostOk
| PostError (response : option ErrorResponse).

(** One page of sold results as the selectors see it. *)
Record Element := {
  titlePrimary : string;
  titleStyled : string;
  titleCard : string;
  titleOld : string;
  hrefCardLink : option string;
  hrefACardLink : option string;
  hrefSuLink : option string;
  hrefTitleParent : option string;
  hrefItemLink : option string;
  priceCard : string;
  priceItem : string;
  srcCardImage : option string;
  srcItemImage : option string;
  positiveText : string;
  fullText : string }.

(** [seenAt] is the clock reading while the page's items are classified. *)
Record Page := {
  seenAt : Z;
  elements : list Element }.

(** What follows a page: no visible next-page control, a failing lookup,
    click or reload, or a next page. *)
Inductive Site :=
| NoNextControl
| NextFails
| NextPage (p : Page) (more : Site).

Inductive SoldVisit :=
| SoldVisitFails (message : string)
| SoldVisitLoads (first : Page) (more : Site).

Record Env := {
  WEBHOOK_URL_LISTINGS : string;
  WEBHOOK_URL_SOLD : string;
  (** the n-th [axios.post]: how long it took and how it ended *)
  axiosPost : nat -> string -> Z * PostOutcome;
  (** the n-th visit of a seller's pages *)
  listingsVisit : nat -> string -> option string -> Z * Result (list Listing);
  soldVisit : nat -> string -> option string -> Z * SoldVisit;
  (** the n-th write of the sellers file succeeds or not *)
  fsWriteFile : nat -> bool;
  (** [new Date(text).getTime()], [None] for an invalid date *)
  DateParse : string -> option Z;
  (** [new URL(url).searchParams.get], [None] when the constructor throws *)
  UrlSearchParams : string -> option (string -> option string) }.

(** ** utils/webhooks: the notification dispatcher *)
Module Webhooks.

Section Dispatcher.
Context (env : Env).

(** The closure handed to [sendWithRateLimit]: one [axios.post]. *)
Definition sendFunction (webhookUrl : string) (w : World) : PostOutcome * World :=
  let '(took, out) := axiosPost env (posts w) webhookUrl in
  (out, elapse took (emit (EvPost webhookUrl) (setPosts (S (posts w)) w))).

(** Lines 26-35: wait out a recorded rate limit of this webhook. *)
Definition awaitReset (webhookUrl : string) (w : World) : World :=
  match rateLimitState w !! webhookUrl with
  | Some resetAt =>
      if clock w <? resetAt then sleep (resetAt - clock w) w else w
  | None => w
  end.

(** Lines 48-63: the wait derived from a 429 response. *)
Definition rateLimitWait (attempt : nat) (r : ErrorResponse) : Z :=
  match retryAfterHeader r with
  | Some h => h * 1000
  | None =>
      match retryAfterBody r with
      | Some n =>
          if n =? 0 then Z.min 30000 (2 ^ Z.of_nat attempt * 1000)
          else if 1000 <? n then n else n * 1000
      | None => Z.min 30000 (2 ^ Z.of_nat attempt * 1000)
      end
  end.

Definition serverErrorWait (attempt : nat) : Z :=
  Z.min 10000 (2 ^ Z.of_nat attempt * 1000).

(** What one iteration of the loop decides. *)
Inductive Step :=
| Return (b : bool)
| Continue.

(** The [catch] block, lines 45-110. *)
Definition onError (webhookUrl : string) (maxRetries attempt : nat)
    (response : option ErrorResponse) (w : World) : Step * World :=
  match response with
  | Some r =>
      if status r =? 429 then
        let waitTime := rateLimitWait attempt r in
        let resetAt := clock w + waitTime in
        let w1 := setRateLimitState (<[webhookUrl := resetAt]> (rateLimitState w)) w in
        if (attempt <? maxRetries - 1)%nat then (Continue, sleep waitTime w1)
        else (Return false, w1)
      else if (attempt <? maxRetries - 1)%nat && (500 <=? status r) then
        (Continue, sleep (serverErrorWait attempt) w)
      else (Return false, w)
  | None => (Return false, w)
  end.

(** The body of the [for] loop, lines 24-110. *)
Definition attemptOnce (webhookUrl : string) (send : World -> PostOutcome * World)
    (maxRetries attempt : nat) (w : World) : Step * World :=
  let w1 := awaitReset webhookUrl w in
  let '(out, w2) := send w1 in
  match out with
  | PostOk => (Return true, setRateLimitState (delete webhookUrl (rateLimitState w2)) w2)
  | PostError response => onError webhookUrl maxRetries attempt response w2
  end.

(** [for (let attempt = 0; attempt < maxRetries; attempt++)], over the
    attempt numbers still to run; line 113 when they are used up. *)
Fixpoint forAttempts (webhookUrl : string) (send : World -> PostOutcome * World)
    (maxRetries : nat) (attempts : list nat) (w : World) : bool * World :=
  match attempts with
  | [] => (false, w)
  | attempt :: later =>
      match attemptOnce webhookUrl send maxRetries attempt w with
      | (Return b, w') => (b, w')
      | (Continue, w') => forAttempts webhookUrl send maxRetries later w'
      end
  end.

Definition sendWithRateLimit (webhookUrl : string)
    (send : World -> PostOutcome * World) (maxRetries : nat) (w : World) : bool * World :=
  forAttempts webhookUrl send maxRetries (seq 0 maxRetries) w.

Definition sendNewListingWebhook (webhookUrl : string) (listing : Listing)
    (w : World) : bool * World :=
  sendWithRateLimit webhookUrl (sendFunction webhookUrl) 5 w.

Definition sendSoldItemWebhook (webhookUrl : string) (item : SoldItem)
    (sellerUsername : option string) (w : World) : bool * World :=
  sendWithRateLimit webhookUrl (sendFunction webhookUrl) 5 w.

End Dispatcher.
End Webhooks.

(** ** utils/scraper: the seller crawler *)
Module Scraper.

(** [retryOperation], lines 45-58: the attempts are numbered from 1; the
    function returns [undefined] ([Ok None]) when the loop body never runs. *)
Fixpoint forRetries {A : Type} (fn : World -> Result A * World)
    (maxRetries : nat) (delayMs : Z) (attempts : list nat) (w : World)
    : Result (option A) * World :=
  match attempts with
  | [] => (Ok None, w)
  | attempt :: later =>
      match fn w with
      | (Ok a, w1) => (Ok (Some a), w1)
      | (Threw message, w1) =>
          if (attempt =? maxRetries)%nat then (Threw message, w1)
          else forRetries fn maxRetries delayMs later (sleep delayMs w1)
      end
  end.

Definition retryOperation {A : Type} (fn : World -> Result A * World)
    (maxRetries : nat) (delayMs : Z) (w : World) : Result (option A) * World :=
  forRetries fn maxRetries delayMs (seq 1 maxRetries) w.

Fixpoint skip (n : nat) (s : string) : string :=
  match n, s with
  | O, _ => s
  | S n', String _ s' => skip n' s'
  | S _, EmptyString => EmptyString
  end.

(** The first match of [/\/itm\/(\d+)/], its group. *)
Fixpoint matchItm (s : string) : option string :=
  let here :=
    if Js.startsWith "/itm/" s then
      let '(digits, _) := Js.span Js.isDigit (skip 5 s) in
      if Js.truthy digits then Some digits else None
    else None in
  match here with
  | Some d => Some d
  | None =>
      match s with
      | EmptyString => None
      | String _ s' => matchItm s'
      end
  end.

(** The match of [\s+([A-Za-z]+\s+\d+,\s+\d{4})] at the start of [s].  The
    character classes that follow one another are disjoint, so each greedy
    run is the only one that can match. *)
Definition dateAfterSold (s : string) : option string :=
  let '(ws1, r1) := Js.span Js.isSpace s in
  let '(month, r2) := Js.span Js.isAlpha r1 in
  let '(ws2, r3) := Js.span Js.isSpace r2 in
  let '(day, r4) := Js.span Js.isDigit r3 in
  match r4 with
  | String "," r5 =>
      let '(ws3, r6) := Js.span Js.isSpace r5 in
      let year := String.substring 0 4 r6 in
      if Js.truthy ws1 && Js.truthy month && Js.truthy ws2 && Js.truthy day
         && Js.truthy ws3 && (String.length year =? 4)%nat
         && forallb Js.isDigit (list_ascii_of_string year)
      then Some (month ++ ws2 ++ day ++ "," ++ ws3 ++ year)%string
      else None
  | _ => None
  end.

(** [soldDate.match(/Sold\s+([A-Za-z]+\s+\d+,\s+\d{4})/)], the group of the
    leftmost match. *)
Fixpoint matchSoldDate (s : string) : option string :=
  let here := if Js.startsWith "Sold" s then dateAfterSold (skip 4 s) else None in
  match here with
  | Some d => Some d
  | None =>
      match s with
      | EmptyString => None
      | String _ s' => matchSoldDate s'
      end
  end.

Record SoldData := {
  sd_sellerUsername : option string;
  sd_storeName : string;
  soldItems : list SoldItem }.

Record LoopState := {
  collected : list SoldItem;
  pageNum : nat;
  hasMorePages : bool;
  shouldContinuePagination : bool;
  dom : Page;
  ahead : Site;
  nextLookups : nat }.

Fixpoint pagesAhead (s : Site) : nat :=
  match s with
  | NextPage _ more => S (pagesAhead more)
  | _ => O
  end.

Section Crawler.
Context (env : Env).

(** [extractItemId], lines 537-559. *)
Definition extractItemId (url : string) : option string :=
  if negb (Js.truthy url) then None
  else
    match matchItm url with
    | Some id => Some id
    | None =>
        let fullUrl :=
          if Js.startsWith "http" url then url else ("https://www.ebay.com" ++ url)%string in
        match UrlSearchParams env fullUrl with
        | Some get =>
            let id := Js.orElse (get "_id") (Js.orElse (get "item") (get "itm")) in
            if Js.truthyOpt id then id else None
        | None => None
        end
    end.

Definition firstTruthy (a b : string) : string := if Js.truthy a then a else b.

(** The callback of [.each], lines 326-412: the record pushed to
    [pageItems], if any. *)
Definition pageItemOf (storeName : string) (ssn : option string) (e : Element)
    : option SoldItem :=
  let title :=
    firstTruthy (firstTruthy (firstTruthy (titlePrimary e) (titleStyled e)) (titleCard e))
      (titleOld e) in
  let link :=
    Js.orElse (hrefCardLink e) (Js.orElse (hrefACardLink e) (Js.orElse (hrefSuLink e)
      (Js.orElse (hrefTitleParent e) (hrefItemLink e)))) in
  let price := firstTruthy (priceCard e) (priceItem e) in
  let imageUrl :=
    let i := Js.orElse (srcCardImage e) (srcItemImage e) in
    if Js.truthyOpt i then i else None in
  let soldDateText := positiveText e in
  if negb (Js.truthy soldDateText) || negb (Js.includes "Sold" soldDateText) then None
  else
    match link with
    | Some l =>
        if Js.truthy l then
          let l' := if Js.startsWith "http" l then l else ("https://www.ebay.com" ++ l)%string in
          let soldText := Js.toLowerCase (fullText e) in
          match extractItemId l' with
          | Some id =>
              if Js.truthy title && Js.truthy id
                 && (Js.includes "sold" soldText || Js.includes "ended" soldText)
              then Some {| itemId := id; title := title; link := l'; price := price;
                           sellerUsername := ssn; storeName := storeName;
                           imageUrl := imageUrl; soldDate := soldDateText |}
              else None
          | None => None
          end
        else None
    | None => None
    end.

Definition pageItemsOf (storeName : string) (ssn : option string) (p : Page)
    : list SoldItem :=
  omap (pageItemOf storeName ssn) (elements p).

(** Lines 420-442.  [diffDays <= 2] is [now - sold <= 2 days]; for an
    invalid date the difference is NaN and the comparison is false. *)
Definition soldWithinTwoDays (now : Z) (text : string) : bool :=
  if Js.truthy text && Js.includes "Sold" text then
    match matchSoldDate text with
    | Some d =>
        match DateParse env d with
        | Some sold => now - sold <=? 2 * (1000 * 60 * 60 * 24)
        | None => false
        end
    | None => true
    end
  else false.

(** The [for] loop of lines 417-471 from index [i] on. *)
Fixpoint forItems (storeName : string) (ssn : option string) (now : Z)
    (len i : nat) (rest : list SoldItem) (soldItems : list SoldItem)
    (lastItemInRange : bool) : list SoldItem * bool :=
  match rest with
  | [] => (soldItems, lastItemInRange)
  | item :: rest' =>
      if soldWithinTwoDays now (soldDate item) then
        let pushed :=
          {| itemId := itemId item; title := title item;
             link := Js.beforeFirst "?" (link item); price := price item;
             sellerUsername := ssn; storeName := storeName;
             imageUrl := imageUrl item; soldDate := soldDate item |} in
        forItems storeName ssn now len (S i) rest' (soldItems ++ [pushed])
          (if (i =? len - 1)%nat then true else lastItemInRange)
      else
        forItems storeName ssn now len (S i) rest' soldItems
          (if (i =? len - 1)%nat then false else lastItemInRange)
  end.

(** One iteration of the [while] loop, lines 321-507. *)
Definition loopBody (storeName : string) (ssn : option string) (st : LoopState)
    : LoopState :=
  let pageItems := pageItemsOf storeName ssn (dom st) in
  let '(soldItems, lastItemInRange) :=
    forItems storeName ssn (seenAt (dom st)) (List.length pageItems) 0 pageItems
      (collected st) false in
  let shouldContinue :=
    if negb lastItemInRange then false else shouldContinuePagination st in
  if shouldContinue then
    match ahead st with
    | NextPage p more =>
        {| collected := soldItems; pageNum := S (pageNum st);
           hasMorePages := hasMorePages st; shouldContinuePagination := shouldContinue;
           dom := p; ahead := more; nextLookups := S (nextLookups st) |}
    | _ =>
        {| collected := soldItems; pageNum := pageNum st;
           hasMorePages := false; shouldContinuePagination := shouldContinue;
           dom := dom st; ahead := ahead st; nextLookups := S (nextLookups st) |}
    end
  else
    {| collected := soldItems; pageNum := pageNum st;
       hasMorePages := hasMorePages st; shouldContinuePagination := shouldContinue;
       dom := dom st; ahead := ahead st; nextLookups := nextLookups st |}.

(** [while (hasMorePages && shouldContinuePagination)], at most [fuel]
    iterations. *)
Fixpoint whileLoop (storeName : string) (ssn : option string) (fuel : nat)
    (st : LoopState) : LoopState :=
  if hasMorePages st && shouldContinuePagination st then
    match fuel with
    | O => st
    | S fuel' => whileLoop storeName ssn fuel' (loopBody storeName ssn st)
    end
  else st.

Definition startState (first : Page) (more : Site) : LoopState :=
  {| collected := []; pageNum := 1; hasMorePages := true;
     shouldContinuePagination := true; dom := first; ahead := more;
     nextLookups := 0 |}.

(** The pagination of one visit: one iteration per page that can be
    reached, which is as many as the loop can run. *)
Definition paginate (storeName : string) (ssn : option string) (first : Page)
    (more : Site) : LoopState :=
  whileLoop storeName ssn (S (pagesAhead more)) (startState first more).

Definition getSellerSoldItemsInternal (storeName : string) (ssn : option string)
    (w : World) : Result SoldData * World :=
  let '(took, visit) := soldVisit env (visits w) storeName ssn in
  let w1 := elapse took (emit (EvVisit storeName ssn) (setVisits (S (visits w)) w)) in
  match visit with
  | SoldVisitFails message => (Threw message, w1)
  | SoldVisitLoads first more =>
      (Ok {| sd_sellerUsername := ssn; sd_storeName := storeName;
             soldItems := collected (paginate storeName ssn first more) |}, w1)
  end.

Definition getSellerSoldItems (storeName : string) (ssn : option string) (w : World)
    : Result (option SoldData) * World :=
  retryOperation (getSellerSoldItemsInternal storeName ssn) 3 5000 w.

(** One visit of the listings page; what it extracts is an oracle. *)
Definition getSellerListingsInternal (storeName : string) (ssn : option string)
    (w : World) : Result (list Listing) * World :=
  let '(took, r) := listingsVisit env (visits w) storeName ssn in
  (r, elapse took (emit (EvVisit storeName ssn) (setVisits (S (visits w)) w))).

Definition getSellerListings (storeName : string) (ssn : option string) (w : World)
    : Result (option (list Listing)) * World :=
  retryOperation (getSellerListingsInternal storeName ssn) 3 5000 w.

End Crawler.
End Scraper.

(** ** utils/sellerManager: the persistent store *)
Module SellerManager.

(** The fields an [updateSeller] call may carry. *)
Record Updates := {
  u_knownListings : option (list string);
  u_lastCheckedListings : option Z;
  u_knownSoldItems : option (list string);
  u_lastCheckedSold : option Z }.

Definition override {A : Type} (new old : option A) : option A :=
  match new with Some _ => new | None => old end.

(** [{ ...seller, ...updates }]. *)
Definition merge (s : Seller) (u : Updates) : Seller :=
  {| s_storeName := s_storeName s; s_ssn := s_ssn s; s_username := s_username s;
     s_type := s_type s;
     lastCheckedListings := override (u_lastCheckedListings u) (lastCheckedListings s);
     lastCheckedSold := override (u_lastCheckedSold u) (lastCheckedSold s);
     knownListings := override (u_knownListings u) (knownListings s);
     knownSoldItems := override (u_knownSoldItems u) (knownSoldItems s);
     addedAt := addedAt s |}.

Fixpoint findIndex {A : Type} (p : A -> bool) (l : list A) : option nat :=
  match l with
  | [] => None
  | x :: l' => if p x then Some O else S <$> findIndex p l'
  end.

(** The predicate of [findIndex] in [updateSeller]; [===] on values that
    are a string or [undefined]. *)
Definition isSeller (ssn : option string) (type : string) (s : Seller) : bool :=
  (bool_decide (s_ssn s = ssn) || bool_decide (s_username s = ssn))
  && (if Js.truthy type then bool_decide (s_type s = type) else true).

Section Store.
Context (env : Env).

(** The file is taken to be readable and well formed. *)
Definition loadSellers (w : World) : list Seller := sellersFile w.

Definition saveSellers (sellers : list Seller) (w : World) : bool * World :=
  let ok := fsWriteFile env (writes w) in
  let w1 := emit (EvWrite ok) (setWrites (S (writes w)) w) in
  if ok then (true, setSellersFile sellers w1) else (false, w1).

Definition getAllSellers (type : option string) (w : World) : list Seller :=
  match type with
  | Some t =>
      if Js.truthy t then List.filter (fun s => bool_decide (s_type s = t)) (loadSellers w)
      else loadSellers w
  | None => loadSellers w
  end.

Definition updateSeller (ssn : option string) (updates : Updates) (type : string)
    (w : World) : bool * World :=
  let sellers := loadSellers w in
  match findIndex (isSeller ssn type) sellers with
  | None => (false, w)
  | Some sellerIndex =>
      match sellers !! sellerIndex with
      | Some s => saveSellers (<[sellerIndex := merge s updates]> sellers) w
      | None => (false, w)
      end
  end.

End Store.
End SellerManager.

(** ** The monitoring cycle *)
Module Monitor.

Section Diff.
Context {A : Type} (idOf : A -> string).

(** [new Set(known || [])] and the [filter] on it, lines 381-384 and
    438-441. *)
Definition knownIds (known : option (list string)) : gset string :=
  list_to_set (default [] known).

Definition newItemsOf (known : option (list string)) (crawled : list A) : list A :=
  filter (fun x => idOf x ∉ knownIds known) crawled.

(** Lines 402-405 and 460-463. *)
Definition updatedKnownOf (known : option (list string)) (newItems : list A)
    : list string :=
  default [] known ++ map idOf newItems.

End Diff.

Section Cycle.
Context (env : Env).

Definition ssnOf (seller : Seller) : option string :=
  Js.orElse (s_ssn seller) (s_username seller).

(** Lines 391-399: the result of each send is bound and not read. *)
Definition notifyListings (newListings : list Listing) (w : World) : World :=
  foldl (fun w listing =>
           let '(success, w1) :=
             Webhooks.sendNewListingWebhook env (WEBHOOK_URL_LISTINGS env) listing w in
           sleep 2500 w1)
        w newListings.

(** The body of the [for] loop over the listing sellers with its
    [try]/[catch], lines 373-423. *)
Definition checkListingSeller (seller : Seller) (w : World) : World :=
  let ssn := ssnOf seller in
  match Scraper.getSellerListings env (s_storeName seller) ssn w with
  | (Ok (Some listings), w1) =>
      let newListings := newItemsOf l_itemId (knownListings seller) listings in
      let w2 :=
        if (0 <? List.length newListings)%nat then
          let w' := notifyListings newListings w1 in
          let updatedKnownListings :=
            updatedKnownOf l_itemId (knownListings seller) newListings in
          snd (SellerManager.updateSeller env ssn
                 {| SellerManager.u_knownListings := Some updatedKnownListings;
                    SellerManager.u_lastCheckedListings := Some (clock w');
                    SellerManager.u_knownSoldItems := None;
                    SellerManager.u_lastCheckedSold := None |}
                 "listings" w')
        else w1 in
      sleep 5000 w2
  | (Ok None, w1) => w1
  | (Threw _, w1) => w1
  end.

(** Lines 448-457. *)
Definition notifySold (ssn : option string) (newSoldItems : list SoldItem)
    (w : World) : World :=
  foldl (fun w item =>
           let '(success, w1) :=
             Webhooks.sendSoldItemWebhook env (WEBHOOK_URL_SOLD env) item ssn w in
           sleep 2500 w1)
        w newSoldItems.

(** Lines 430-481. *)
Definition checkSoldSeller (seller : Seller) (w : World) : World :=
  let ssn := ssnOf seller in
  match Scraper.getSellerSoldItems env (s_storeName seller) ssn w with
  | (Ok (Some soldData), w1) =>
      let newSoldItems :=
        newItemsOf itemId (knownSoldItems seller) (Scraper.soldItems soldData) in
      let w2 :=
        if (0 <? List.length newSoldItems)%nat then
          let w' := notifySold ssn newSoldItems w1 in
          let updatedKnownSoldItems :=
            updatedKnownOf itemId (knownSoldItems seller) newSoldItems in
          snd (SellerManager.updateSeller env ssn
                 {| SellerManager.u_knownListings := None;
                    SellerManager.u_lastCheckedListings := None;
                    SellerManager.u_knownSoldItems := Some updatedKnownSoldItems;
                    SellerManager.u_lastCheckedSold := Some (clock w') |}
                 "sold" w')
        else w1 in
      sleep 5000 w2
  | (Ok None, w1) => w1
  | (Threw _, w1) => w1
  end.

Definition forListingSellers (sellers : list Seller) (w : World) : World :=
  foldl (fun w seller => checkListingSeller seller w) w sellers.

Definition forSoldSellers (sellers : list Seller) (w : World) : World :=
  foldl (fun w seller => checkSoldSeller seller w) w sellers.

(** [monitorSellers], lines 338-489. *)
Definition monitorSellers (monitoringActive : bool) (w : World) : World :=
  if negb monitoringActive then w
  else
    let webhookUrlListings := WEBHOOK_URL_LISTINGS env in
    let webhookUrlSold := WEBHOOK_URL_SOLD env in
    let sellers := SellerManager.getAllSellers None w in
    if (List.length sellers =? 0)%nat then w
    else if negb (Js.truthy webhookUrlListings) && negb (Js.truthy webhookUrlSold) then w
    else
      let listingSellers :=
        List.filter (fun s => bool_decide (s_type s = "listings")) sellers in
      let soldSellers :=
        List.filter (fun s => bool_decide (s_type s = "sold")) sellers in
      let w1 :=
        if Js.truthy webhookUrlListings && (0 <? List.length listingSellers)%nat
        then forListingSellers listingSellers w else w in
      if Js.truthy webhookUrlSold && (0 <? List.length soldSellers)%nat
      then forSoldSellers soldSellers w1 else w1.

End Cycle.
End Monitor.

(** ** The scheduler: timers and cycles in progress *)
Module Scheduler.

(** [monitorSellers] is asynchronous: a call returns at its first [await]
    and the cycle goes on in later turns of the event loop.  The state
    counts the cycles that have started and not yet finished. *)
Record State := {
  monitoringActive : bool;
  now : Z;
  timeouts : list Z;
  intervalDue : option Z;
  cyclesInProgress : nat }.

Inductive Event :=
| ConfigurationChanged
| Elapse (ms : Z)
| TimeoutFires
| IntervalFires
| CycleCompletes.

Section Timers.
Context (MONITOR_INTERVAL : Z).

(** A call of [monitorSellers], up to its first [await] (line 339). *)
Definition callMonitorSellers (st : State) : State :=
  if negb (monitoringActive st) then st
  else {| monitoringActive := monitoringActive st; now := now st;
          timeouts := timeouts st; intervalDue := intervalDue st;
          cyclesInProgress := S (cyclesInProgress st) |}.

(** [triggerMonitoringRestart], lines 494-500. *)
Definition triggerMonitoringRestart (st : State) : State :=
  {| monitoringActive := monitoringActive st; now := now st;
     timeouts := timeouts st ++ [now st + 2000]; intervalDue := intervalDue st;
     cyclesInProgress := cyclesInProgress st |}.

(** [startMonitoring], lines 513-524. *)
Definition startMonitoring (st : State) : State :=
  let st1 := callMonitorSellers st in
  {| monitoringActive := monitoringActive st1; now := now st1;
     timeouts := timeouts st1; intervalDue := Some (now st1 + MONITOR_INTERVAL);
     cyclesInProgress := cyclesInProgress st1 |}.

(** One turn of the event loop.  The source only calls [setInterval]; the
    runtime re-arms a repeating timer one interval after the time its
    callback ran, so a late firing shifts the later ones. *)
Definition step (st : State) (ev : Event) : State :=
  match ev with
  | ConfigurationChanged => triggerMonitoringRestart st
  | Elapse ms =>
      {| monitoringActive := monitoringActive st; now := now st + Z.max 0 ms;
         timeouts := timeouts st; intervalDue := intervalDue st;
         cyclesInProgress := cyclesInProgress st |}
  | TimeoutFires =>
      match timeouts st with
      | due :: later =>
          if due <=? now st then
            callMonitorSellers
              {| monitoringActive := monitoringActive st; now := now st;
                 timeouts := later; intervalDue := intervalDue st;
                 cyclesInProgress := cyclesInProgress st |}
          else st
      | [] => st
      end
  | IntervalFires =>
      match intervalDue st with
      | Some due =>
          if due <=? now st then
            callMonitorSellers
              {| monitoringActive := monitoringActive st; now := now st;
                 timeouts := timeouts st;
                 intervalDue := Some (now st + MONITOR_INTERVAL);
                 cyclesInProgress := cyclesInProgress st |}
          else st
      | None => st
      end
  | CycleCompletes =>
      {| monitoringActive := monitoringActive st; now := now st;
         timeouts := timeouts st; intervalDue := intervalDue st;
         cyclesInProgress := pred (cyclesInProgress st) |}
  end.

(** The module's top level: the flag is set at line 14 and
    [startMonitoring] runs at line 527. *)
Definition boot : State :=
  startMonitoring {| monitoringActive := true; now := 0; timeouts := [];
                     intervalDue := None; cyclesInProgress := 0 |}.

Definition run (evs : list Event) : State := foldl step boot evs.

End Timers.
End Scheduler.

(** ** A test double of the outside, for the worked examples *)
Module Fixture.

Fixpoint digitsValue (acc : Z) (s : string) : Z :=
  match s with
  | EmptyString => acc
  | String c s' => digitsValue (10 * acc + (Z.of_nat (nat_of_ascii c) - 48)) s'
  end.

Definition monthNumber (name : string) : option Z :=
  let key := Js.toLowerCase (String.substring 0 3 name) in
  if String.eqb key "jan" then Some 1 else if String.eqb key "feb" then Some 2
  else if String.eqb key "mar" then Some 3 else if String.eqb key "apr" then Some 4
  else if String.eqb key "may" then Some 5 else if String.eqb key "jun" then Some 6
  else if String.eqb key "jul" then Some 7 else if String.eqb key "aug" then Some 8
  else if String.eqb key "sep" then Some 9 else if String.eqb key "oct" then Some 10
  else if String.eqb key "nov" then Some 11 else if String.eqb key "dec" then Some 12
  else None.

(** Days from 1970-01-01 to the given civil date. *)
Definition daysFromCivil (y m d : Z) : Z :=
  let y' := if m <=? 2 then y - 1 else y in
  let era := y' / 400 in
  let yoe := y' - era * 400 in
  let doy := (153 * (if 2 <? m then m - 3 else m + 9) + 2) / 5 + d - 1 in
  let doe := yoe * 365 + yoe / 4 - yoe / 100 + doy in
  era * 146097 + doe - 719468.

(** A date constructor for texts of the shape [Mon D, YYYY], in UTC: an
    unknown month name or a day outside 1..31 gives an invalid date. *)
Definition dateParse (text : string) : option Z :=
  let '(month, r1) := Js.span Js.isAlpha text in
  let '(_, r2) := Js.span Js.isSpace r1 in
  let '(day, r3) := Js.span Js.isDigit r2 in
  match r3 with
  | String "," r4 =>
      let '(_, r5) := Js.span Js.isSpace r4 in
      let '(year, _) := Js.span Js.isDigit r5 in
      match monthNumber month with
      | Some m =>
          let d := digitsValue 0 day in
          if (1 <=? d) && (d <=? 31) && Js.truthy year then
            Some (daysFromCivil (digitsValue 0 year) m d * 86400000)
          else None
      | None => None
      end
  | _ => None
  end.

Definition listing (id : string) : Listing :=
  {| l_itemId := id; l_title := "item " ++ id;
     l_link := "https://www.ebay.com/itm/" ++ id; l_price := "$1.00";
     l_sellerUsername := Some "alice"; l_storeName := "alicestore";
     l_listedDate := None; l_imageUrl := None |}.

Definition card (id sold : string) : Element :=
  {| titlePrimary := "item " ++ id; titleStyled := ""; titleCard := ""; titleOld := "";
     hrefCardLink := Some ("https://www.ebay.com/itm/" ++ id ++ "?hash=1");
     hrefACardLink := None; hrefSuLink := None; hrefTitleParent := None;
     hrefItemLink := None;
     priceCard := "$1.00"; priceItem := "";
     srcCardImage := None; srcItemImage := None;
     positiveText := sold; fullText := "item " ++ id ++ " " ++ sold |}.

Definition seller (type name : string) (known : list string) : Seller :=
  {| s_storeName := name ++ "store"; s_ssn := Some name; s_username := Some name;
     s_type := type; lastCheckedListings := None; lastCheckedSold := None;
     knownListings := if String.eqb type "listings" then Some known else None;
     knownSoldItems := if String.eqb type "sold" then Some known else None;
     addedAt := 0 |}.

Definition world (file : list Seller) : World :=
  {| clock := 1000000; rateLimitState := ∅; sellersFile := file;
     posts := 0; visits := 0; writes := 0; trace := [] |}.

(** An outside where every request is answered at once: posts end as
    [post] says, every visit of the listings of store [s] returns
    [listings s], every visit of its sold pages [sold s]. *)
Definition env (post : nat -> PostOutcome)
    (listings : string -> Result (list Listing)) (sold : string -> SoldVisit) : Env :=
  {| WEBHOOK_URL_LISTINGS := "https://hooks.example/listings";
     WEBHOOK_URL_SOLD := "https://hooks.example/sold";
     axiosPost := fun n _ => (0, post n);
     listingsVisit := fun _ s _ => (0, listings s);
     soldVisit := fun _ s _ => (0, sold s);
     fsWriteFile := fun _ => true;
     DateParse := dateParse;
     UrlSearchParams := fun _ => None |}.

Definition noListings : string -> Result (list Listing) := fun _ => Ok [].
Definition noSold : string -> SoldVisit := fun _ => SoldVisitLoads {| seenAt := 0; elements := [] |} NoNextControl.

End Fixture.

(** ** More of the sources: administration, listing extraction, routes *)

(** [String.prototype.trim] on code units below 256. *)
Module JsText.

Fixpoint trimStart (s : string) : string :=
  match s with
  | EmptyString => EmptyString
  | String c s' => if Js.isSpace c then trimStart s' else s
  end.

Fixpoint trimEnd (s : string) : string :=
  match s with
  | EmptyString => EmptyString
  | String c s' =>
      let t := trimEnd s' in
      if Js.isSpace c && negb (Js.truthy t) then EmptyString else String c t
  end.

Definition trim (s : string) : string := trimEnd (trimStart s).

(** [value ? value.trim() : ""] on a string or [undefined]. *)
Definition trimmedOrEmpty (value : option string) : string :=
  match value with
  | Some s => if Js.truthy s then trim s else ""
  | None => ""
  end.

End JsText.

(** utils/sellerManager: [addSeller] and [removeSeller]. *)
Module SellerAdmin.

(** The result object of [addSeller], by its message. *)
Inductive AddResult :=
| Added (newSeller : Seller)
| InvalidType
| MissingFields
| AlreadyMonitored
| AddNotSaved.

Definition addSucceeded (r : AddResult) : bool :=
  match r with Added _ => true | _ => false end.

(** The result object of [removeSeller], by its message. *)
Inductive RemoveResult :=
| Removed
| NotFound
| RemoveNotSaved.

Definition removeSucceeded (r : RemoveResult) : bool :=
  match r with Removed => true | _ => false end.

(** The predicate of [sellers.find] in [addSeller], line 72. *)
Definition sameSsnAndType (ssn type : string) (s : Seller) : bool :=
  bool_decide (s_ssn s = Some ssn) && bool_decide (s_type s = type).

(** The predicate negated in [sellers.filter] in [removeSeller], lines
    121-123. *)
Definition toRemove (ssn type : string) (s : Seller) : bool :=
  (bool_decide (s_ssn s = Some ssn) || bool_decide (s_username s = Some ssn))
  && bool_decide (s_type s = type).

Section Admin.
Context (env : Env).

(** [addSeller], lines 50-108. *)
Definition addSeller (storeName ssn : option string) (type : string) (w : World)
    : AddResult * World :=
  let sellers := SellerManager.loadSellers w in
  if negb (bool_decide (type = "listings")) && negb (bool_decide (type = "sold"))
  then (InvalidType, w)
  else
    let trimmedStoreName := JsText.trimmedOrEmpty storeName in
    let trimmedSsn := JsText.trimmedOrEmpty ssn in
    if negb (Js.truthy trimmedStoreName) || negb (Js.truthy trimmedSsn)
    then (MissingFields, w)
    else
      match List.find (sameSsnAndType trimmedSsn type) sellers with
      | Some _ => (AlreadyMonitored, w)
      | None =>
          let newSeller :=
            {| s_storeName := trimmedStoreName; s_ssn := Some trimmedSsn;
               s_username := Some trimmedSsn; s_type := type;
               lastCheckedListings := None; lastCheckedSold := None;
               knownListings := if bool_decide (type = "listings") then Some [] else None;
               knownSoldItems := if bool_decide (type = "sold") then Some [] else None;
               addedAt := clock w |} in
          let '(saved, w1) := SellerManager.saveSellers env (sellers ++ [newSeller]) w in
          if saved then (Added newSeller, w1) else (AddNotSaved, w1)
      end.

(** [removeSeller], lines 116-145. *)
Definition removeSeller (ssn type : string) (w : World) : RemoveResult * World :=
  let sellers := SellerManager.loadSellers w in
  let initialLength := List.length sellers in
  let filtered := List.filter (fun s => negb (toRemove ssn type s)) sellers in
  if (List.length filtered =? initialLength)%nat then (NotFound, w)
  else
    let '(saved, w1) := SellerManager.saveSellers env filtered w in
    if saved then (Removed, w1) else (RemoveNotSaved, w1).

End Admin.
End SellerAdmin.

(** utils/scraper: what [getSellerListingsInternal] extracts from a page. *)
Module Listings.

(** One result card as the selectors of lines 132-203 see it;
    [attributeRows] holds, for each [.s-card__attribute-row], the trimmed
    text of its bold secondary span. *)
Record Card := {
  hasNewListingBadge : bool;
  c_titlePrimary : string;
  c_titleStyled : string;
  c_titleCard : string;
  c_titleOld : string;
  c_hrefCardLink : option string;
  c_hrefACardLink : option string;
  c_hrefSuLink : option string;
  c_hrefTitleParent : option string;
  c_hrefItemLink : option string;
  c_priceCard : string;
  c_priceItem : string;
  c_srcCardImage : option string;
  c_srcItemImage : option string;
  attributeRows : list string }.

Definition twoDigits (s : string) : option string :=
  match s with
  | String a (String b rest) =>
      if Js.isDigit a && Js.isDigit b then Some rest else None
  | _ => None
  end.

(** The third alternative of the pattern of line 198,
    [[A-Za-z]{3}-\d+\s+\d{2}:\d{2}], at the start of [s]. *)
Definition monthDayTime (s : string) : bool :=
  match s with
  | String a (String b (String c (String "-" r1))) =>
      if Js.isAlpha a && Js.isAlpha b && Js.isAlpha c then
        let '(day, r2) := Js.span Js.isDigit r1 in
        let '(ws, r3) := Js.span Js.isSpace r2 in
        if Js.truthy day && Js.truthy ws then
          match twoDigits r3 with
          | Some (String ":" r4) =>
              match twoDigits r4 with Some _ => true | None => false end
          | _ => false
          end
        else false
      else false
  | _ => false
  end.

(** [text && /^(Today|Yesterday|[A-Za-z]{3}-\d+\s+\d{2}:\d{2})/.test(text)]. *)
Definition looksLikeDate (text : string) : bool :=
  Js.truthy text
  && (Js.startsWith "Today" text || Js.startsWith "Yesterday" text || monthDayTime text).

(** The inner [.each] of lines 190-203: the first row that looks like a
    date. *)
Definition listedDateOf (rows : list string) : option string :=
  List.find looksLikeDate rows.

Section Extraction.
Context (env : Env).

(** The callback of [.each], lines 132-226. *)
Definition listingOf (storeName : string) (ssn : option string) (e : Card)
    : option Listing :=
  if negb (hasNewListingBadge e) then None
  else
    let title :=
      Scraper.firstTruthy
        (Scraper.firstTruthy (Scraper.firstTruthy (c_titlePrimary e) (c_titleStyled e))
           (c_titleCard e))
        (c_titleOld e) in
    let link :=
      Js.orElse (c_hrefCardLink e) (Js.orElse (c_hrefACardLink e) (Js.orElse (c_hrefSuLink e)
        (Js.orElse (c_hrefTitleParent e) (c_hrefItemLink e)))) in
    let price := Scraper.firstTruthy (c_priceCard e) (c_priceItem e) in
    let imageUrl :=
      let i := Js.orElse (c_srcCardImage e) (c_srcItemImage e) in
      if Js.truthyOpt i then i else None in
    let listedDate := listedDateOf (attributeRows e) in
    match link with
    | Some l =>
        if Js.truthy l then
          let l' := if Js.startsWith "http" l then l else ("https://www.ebay.com" ++ l)%string in
          match Scraper.extractItemId env l' with
          | Some id =>
              if Js.truthy title && Js.truthy id then
                Some {| l_itemId := id; l_title := title;
                        l_link := Js.beforeFirst "?" l'; l_price := price;
                        l_sellerUsername := ssn; l_storeName := storeName;
                        l_listedDate := listedDate; l_imageUrl := imageUrl |}
              else None
          | None => None
          end
        else None
    | None => None
    end.

(** The [listings] array of a visit whose page shows [cards]. *)
Definition listingsOf (storeName : string) (ssn : option string) (cards : list Card)
    : list Listing :=
  omap (listingOf storeName ssn) cards.

End Extraction.
End Listings.

(** The admin routes of the server entry point. *)
Module Routes.

(** [known.includes(id)] for each crawled item, lines 283-285 and 292-294:
    the callback runs once per item, and throws a TypeError when the seller
    has no such list. *)
Definition filterNotIncluded {A : Type} (idOf : A -> string)
    (known : option (list string)) (items : list A) : option (list A) :=
  match items with
  | [] => Some []
  | _ :: _ =>
      match known with
      | Some k => Some (List.filter (fun x => negb (bool_decide (idOf x ∈ k))) items)
      | None => None
      end
  end.

(** The response of [POST /api/admin/check/:ssn]. *)
Inductive CheckResponse :=
| Check404
| Check500
| Check200 (listingsTotal listingsNew soldTotal soldNew : nat).

(** A field of a parsed request body ([express.json] or
    [express.urlencoded]), as far as the handlers look at it: missing, a
    string, or another value (null, a number, a boolean, an array, an
    object) with its truthiness. *)
Inductive BodyValue :=
| Absent
| Text (s : string)
| NotText (truthy : bool).

(** [req.body] of [POST /api/admin/sellers]. *)
Record Body := {
  b_storeName : BodyValue;
  b_ssn : BodyValue;
  b_type : BodyValue }.

Section Handlers.
Context (env : Env).

(** [value ? value.trim() : ""], lines 100-101: a truthy value that is
    no string has no [trim], and the call throws a TypeError. *)
Definition trimmedField (value : BodyValue) : Result string :=
  match value with
  | Absent => Ok ""
  | Text s => Ok (JsText.trimmedOrEmpty (Some s))
  | NotText truthy =>
      if truthy then Threw "value.trim is not a function" else Ok ""
  end.

(** [POST /api/admin/sellers], lines 95-137: the status of the response,
    with the scheduler after the handler.  Whatever throws inside the
    [try] is answered with 500 by the [catch] of lines 130-136: the
    destructuring of a missing body and the two [trim] calls. *)
Definition postSeller (body : option Body)
    (w : World) (sched : Scheduler.State) : Z * World * Scheduler.State :=
  match body with
  | None => (500, w, sched)
  | Some b =>
      match trimmedField (b_storeName b) with
      | Threw _ => (500, w, sched)
      | Ok trimmedStoreName =>
          match trimmedField (b_ssn b) with
          | Threw _ => (500, w, sched)
          | Ok trimmedSsn =>
              if negb (Js.truthy trimmedStoreName) || negb (Js.truthy trimmedSsn)
              then (400, w, sched)
              else
                match b_type b with
                | Text t =>
                    if negb (Js.truthy t)
                       || (negb (bool_decide (t = "listings"))
                           && negb (bool_decide (t = "sold")))
                    then (400, w, sched)
                    else
                      let '(result, w1) :=
                        SellerAdmin.addSeller env (Some trimmedStoreName)
                          (Some trimmedSsn) t w in
                      if SellerAdmin.addSucceeded result
                      then (200, w1, Scheduler.triggerMonitoringRestart sched)
                      else (400, w1, sched)
                | _ => (400, w, sched)
                end
          end
      end
  end.

(** [DELETE /api/admin/sellers/:ssn], lines 143-179. *)
Definition deleteSeller (ssn : string) (type : option string)
    (w : World) (sched : Scheduler.State) : Z * World * Scheduler.State :=
  if negb (Js.truthy ssn) then (400, w, sched)
  else
    match type with
    | Some t =>
        if negb (Js.truthy t)
           || (negb (bool_decide (t = "listings")) && negb (bool_decide (t = "sold")))
        then (400, w, sched)
        else
          let '(result, w1) := SellerAdmin.removeSeller env ssn t w in
          if SellerAdmin.removeSucceeded result
          then (200, w1, Scheduler.triggerMonitoringRestart sched)
          else (404, w1, sched)
    | None => (400, w, sched)
    end.

(** [POST /api/admin/check/:ssn], lines 265-314. *)
Definition checkSeller (ssn : string) (w : World) : CheckResponse * World :=
  let sellers := SellerManager.getAllSellers None w in
  match List.find (fun s => bool_decide (s_ssn s = Some ssn)
                            || bool_decide (s_username s = Some ssn)) sellers with
  | None => (Check404, w)
  | Some seller =>
      match Scraper.getSellerListings env (s_storeName seller) (Monitor.ssnOf seller) w with
      | (Ok (Some listings), w1) =>
          match filterNotIncluded l_itemId (knownListings seller) listings with
          | Some newListings =>
              match Scraper.getSellerSoldItems env (s_storeName seller)
                      (Monitor.ssnOf seller) w1 with
              | (Ok (Some soldData), w2) =>
                  match filterNotIncluded itemId (knownSoldItems seller)
                          (Scraper.soldItems soldData) with
                  | Some newSoldItems =>
                      (Check200 (List.length listings) (List.length newListings)
                         (List.length (Scraper.soldItems soldData))
                         (List.length newSoldItems), w2)
                  | None => (Check500, w2)
                  end
              | (_, w2) => (Check500, w2)
              end
          | None => (Check500, w1)
          end
      | (_, w1) => (Check500, w1)
      end
  end.

End Handlers.
End Routes.

(** * Vocabulary of the statements *)

(** What a send or a visit leaves alone in the sellers file. *)
Definition sameStore (w w' : World) : Prop :=
  sellersFile w' = sellersFile w /\ writes w' = writes w.

(** How the [k]-th request to [url] ends. *)
Definition outcomeAt (env : Env) (url : string) (k : nat) : PostOutcome :=
  snd (axiosPost env k url).

(** The errors after which the send loop goes on: a 429 or a status of 500
    and above. *)
Definition retryable (o : PostOutcome) : bool :=
  match o with
  | PostError (Some r) => (status r =? 429) || (500 <=? status r)
  | _ => false
  end.

(** The contract of a send that starts in [w] and ends with [r]: between 1
    and 5 requests; every request but the last ended in a retryable error;
    an error that is not retryable ends the send with [false]; the result
    is [true] exactly when the last request succeeded. *)
Definition sendContract (env : Env) (url : string) (w : World) (r : bool * World) : Prop :=
  exists n : nat,
    posts (snd r) = (posts w + n)%nat
    /\ (1 <= n <= 5)%nat
    /\ (forall k, (S k < n)%nat -> retryable (outcomeAt env url (posts w + k)) = true)
    /\ (forall k, (k < n)%nat ->
          outcomeAt env url (posts w + k) <> PostOk ->
          retryable (outcomeAt env url (posts w + k)) = false ->
          S k = n /\ fst r = false)
    /\ (fst r = true <-> outcomeAt env url (posts w + (n - 1)) = PostOk).

(** The wait after a 429, in words: a header directive is a string and
    counts as seconds whatever its value; a body directive is a number and
    counts as milliseconds above 1000, as seconds otherwise; without a
    directive (or with the number 0) the wait is the capped backoff. *)
Inductive WaitFor (attempt : nat) (r : ErrorResponse) : Z -> Prop :=
| WaitHeaderSeconds h :
    retryAfterHeader r = Some h -> WaitFor attempt r (h * 1000)
| WaitBodyMilliseconds n :
    retryAfterHeader r = None -> retryAfterBody r = Some n -> 1000 < n ->
    WaitFor attempt r n
| WaitBodySeconds n :
    retryAfterHeader r = None -> retryAfterBody r = Some n -> n <> 0 -> n <= 1000 ->
    WaitFor attempt r (n * 1000)
| WaitBackoff :
    retryAfterHeader r = None ->
    retryAfterBody r = None \/ retryAfterBody r = Some 0 ->
    WaitFor attempt r (Z.min 30000 (2 ^ Z.of_nat attempt * 1000)).

(** The classification of a collected item at clock reading [now]. *)
Definition inWindow (env : Env) (now : Z) (it : SoldItem) : bool :=
  Scraper.soldWithinTwoDays env now (soldDate it).

(** The classification of the last collected item of a page, in page
    order; [false] for a page without collected items. *)
Definition lastInWindow (env : Env) (now : Z) (items : list SoldItem) : bool :=
  match last items with
  | Some it => inWindow env now it
  | None => false
  end.

(** The record pushed to the result for a collected item. *)
Definition cleaned (storeName : string) (ssn : option string) (it : SoldItem) : SoldItem :=
  {| itemId := itemId it; title := title it; link := Js.beforeFirst "?" (link it);
     price := price it; sellerUsername := ssn; storeName := storeName;
     imageUrl := imageUrl it; soldDate := soldDate it |}.

(** The in-window items of a page, in page order. *)
Definition keptOf (env : Env) (storeName : string) (ssn : option string) (p : Page)
    : list SoldItem :=
  map (cleaned storeName ssn)
      (List.filter (inWindow env (seenAt p)) (Scraper.pageItemsOf env storeName ssn p)).

(** The stopping policy in words: keep the in-window items of the page;
    go to the next page only if the page's last item is in-window and a
    next page loads. *)
Fixpoint crawlPolicy (env : Env) (storeName : string) (ssn : option string)
    (p : Page) (more : Site) : list SoldItem :=
  (keptOf env storeName ssn p ++
   if lastInWindow env (seenAt p) (Scraper.pageItemsOf env storeName ssn p) then
     match more with
     | NextPage p' more' => crawlPolicy env storeName ssn p' more'
     | _ => []
     end
   else [])%list.

(** The pages a site can show: the first one and those that follow it. *)
Fixpoint sitePages (first : Page) (more : Site) : list Page :=
  first :: match more with
           | NextPage p more' => sitePages p more'
           | _ => []
           end.

(** The loop state [st] looking at a page with other elements. *)
Definition onElements (st : Scraper.LoopState) (els : list Element) : Scraper.LoopState :=
  {| Scraper.collected := Scraper.collected st; Scraper.pageNum := Scraper.pageNum st;
     Scraper.hasMorePages := Scraper.hasMorePages st;
     Scraper.shouldContinuePagination := Scraper.shouldContinuePagination st;
     Scraper.dom := {| seenAt := seenAt (Scraper.dom st); elements := els |};
     Scraper.ahead := Scraper.ahead st; Scraper.nextLookups := Scraper.nextLookups st |}.

(** The trace of [n] attempts [v] with the fixed delay between them. *)
Fixpoint retryTrace (v : Event) (n : nat) : list Event :=
  match n with
  | O => []
  | S O => [v]
  | S n' => v :: EvSleep 5000 :: retryTrace v n'
  end.

(** A crawl that starts in [w] and ends with [r]: between one and three
    visits, five seconds apart, nothing sent and nothing written; an error
    only after the third visit; never [undefined]. *)
Definition crawlBounded {A : Type} (v : Event) (w : World)
    (r : Result (option A) * World) : Prop :=
  exists n : nat,
    (1 <= n <= 3)%nat
    /\ visits (snd r) = (visits w + n)%nat
    /\ trace (snd r) = (trace w ++ retryTrace v n)%list
    /\ posts (snd r) = posts w
    /\ rateLimitState (snd r) = rateLimitState w
    /\ sameStore w (snd r)
    /\ (forall m, fst r = Threw m -> n = 3%nat)
    /\ fst r <> Ok None.

(** One visit: it counts, leaves its event, and touches nothing else but
    the clock. *)
Definition visitLike {A : Type} (v : Event) (fn : World -> Result A * World) : Prop :=
  forall w,
    visits (snd (fn w)) = S (visits w)
    /\ trace (snd (fn w)) = (trace w ++ [v])%list
    /\ posts (snd (fn w)) = posts w
    /\ rateLimitState (snd (fn w)) = rateLimitState w
    /\ sameStore w (snd (fn w)).

(** [k] calls of [fn] in a row, from [w] on, that all threw, each followed
    by the delay; [w'] is the world in which the next call would start. *)
Inductive failedCalls {A : Type} (fn : World -> Result A * World) (delayMs : Z)
    : nat -> World -> World -> Prop :=
| failedCalls_none w : failedCalls fn delayMs 0 w w
| failedCalls_more k w message w1 w' :
    fn w = (Threw message, w1) ->
    failedCalls fn delayMs k (sleep delayMs w1) w' ->
    failedCalls fn delayMs (S k) w w'.

(** The sellers file [file'] is [file] with the record at index [i]
    carrying the known ids [ks] and the check time [t]. *)
Definition persistedAs (file file' : list Seller) (i : nat)
    (known : Seller -> option (list string)) (lastChecked : Seller -> option Z)
    (ks : list string) (t : Z) : Prop :=
  (exists s', file' !! i = Some s' /\ known s' = Some ks /\ lastChecked s' = Some t)
  /\ (forall j, j <> i -> file' !! j = file !! j).

(** The key under which [addSeller] looks for a duplicate. *)
Definition keyOf (s : Seller) : option string * string := (s_ssn s, s_type s).

(** What identifies a record, apart from what a cycle records in it. *)
Definition identityOf (s : Seller) : string * option string * option string * string * Z :=
  (s_storeName s, s_ssn s, s_username s, s_type s, addedAt s).

(** One seller's turn in a cycle, by the seller's type. *)
Definition turn (env : Env) (s : Seller) (w : World) : World :=
  if bool_decide (s_type s = "listings") then Monitor.checkListingSeller env s w
  else Monitor.checkSoldSeller env s w.

(** The sellers a cycle goes through, in order: those of each type whose
    webhook is configured, listings first. *)
Definition cycleTodo (env : Env) (file : list Seller) : list Seller :=
  ((if Js.truthy (WEBHOOK_URL_LISTINGS env)
    then List.filter (fun s => bool_decide (s_type s = "listings")) file else [])
   ++ (if Js.truthy (WEBHOOK_URL_SOLD env)
       then List.filter (fun s => bool_decide (s_type s = "sold")) file else []))%list.

(** What a cycle may change in a record: nothing that identifies it, and
    only the known ids and check time of the record's own type. *)
Definition cycleMayChange (r r' : Seller) : Prop :=
  identityOf r' = identityOf r
  /\ (s_type r <> "listings" ->
      knownListings r' = knownListings r
      /\ lastCheckedListings r' = lastCheckedListings r)
  /\ (s_type r <> "sold" ->
      knownSoldItems r' = knownSoldItems r /\ lastCheckedSold r' = lastCheckedSold r).

(** The update a turn of seller [s] writes: the seller's known ids of its
    own type followed by further ids, and a check time. *)
Definition updateFor (s : Seller) (u : SellerManager.Updates) : Prop :=
  (s_type s = "listings"
   /\ SellerManager.u_knownSoldItems u = None /\ SellerManager.u_lastCheckedSold u = None
   /\ exists ids t,
        SellerManager.u_knownListings u = Some (default [] (knownListings s) ++ ids)%list
        /\ SellerManager.u_lastCheckedListings u = Some t)
  \/ (s_type s = "sold"
      /\ SellerManager.u_knownListings u = None
      /\ SellerManager.u_lastCheckedListings u = None
      /\ exists ids t,
           SellerManager.u_knownSoldItems u = Some (default [] (knownSoldItems s) ++ ids)%list
           /\ SellerManager.u_lastCheckedSold u = Some t).

#[global] Instance seller_eq_dec : EqDecision Seller.
Proof. solve_decision. Defined.




(** * Properties *)

(** ** The world's components under the primitive actions *)

Lemma sameStore_refl w : sameStore w w.
Proof. by split. Qed.

Lemma sameStore_trans w1 w2 w3 : sameStore w1 w2 -> sameStore w2 w3 -> sameStore w1 w3.
Proof. intros [A1 B1] [A2 B2]. split; congruence. Qed.

Lemma sameStore_sleep ms w : sameStore w (sleep ms w).
Proof. by split. Qed.

(** ** The dispatcher *)

Section DispatcherFacts.
Context (env : Env) (url : string).

Lemma awaitReset_frame u w :
  posts (Webhooks.awaitReset u w) = posts w
  /\ rateLimitState (Webhooks.awaitReset u w) = rateLimitState w
  /\ visits (Webhooks.awaitReset u w) = visits w
  /\ sameStore w (Webhooks.awaitReset u w).
Proof.
  unfold Webhooks.awaitReset.
  destruct (rateLimitState w !! u) as [r|]; [destruct (clock w <? r)|];
    by repeat split.
Qed.

Lemma sendFunction_frame w :
  Webhooks.sendFunction env url w
  = (outcomeAt env url (posts w),
     elapse (fst (axiosPost env (posts w) url))
       (emit (EvPost url) (setPosts (S (posts w)) w))).
Proof.
  unfold Webhooks.sendFunction, outcomeAt. simpl.
  by destruct (axiosPost env (posts w) url).
Qed.

Lemma onError_frame M a resp w st w' :
  Webhooks.onError url M a resp w = (st, w') ->
  posts w' = posts w /\ visits w' = visits w /\ sameStore w w'
  /\ (forall u, u <> url -> rateLimitState w' !! u = rateLimitState w !! u).
Proof.
  unfold Webhooks.onError. intros H.
  destruct resp as [r|]; [|by inversion H].
  destruct (status r =? 429).
  - destruct (a <? M - 1)%nat; inversion H; subst; clear H;
      (repeat split; [intros u Hu; simpl; by rewrite lookup_insert_ne]).
  - destruct ((a <? M - 1)%nat && (500 <=? status r)); by inversion H.
Qed.

Lemma attemptOnce_frame M a w st w' :
  Webhooks.attemptOnce url (Webhooks.sendFunction env url) M a w = (st, w') ->
  posts w' = S (posts w) /\ visits w' = visits w /\ sameStore w w'
  /\ (forall u, u <> url -> rateLimitState w' !! u = rateLimitState w !! u).
Proof.
  unfold Webhooks.attemptOnce. rewrite sendFunction_frame.
  destruct (awaitReset_frame url w) as (Hp & Hr & Hv & Hs).
  rewrite Hp. intros H.
  destruct (outcomeAt env url (posts w)) as [|resp].
  - inversion H; subst; clear H. simpl. rewrite Hr.
    repeat split; try apply Hs; try done.
    intros u Hu. by rewrite lookup_delete_ne.
  - apply onError_frame in H as (H1 & H2 & H3 & H4). simpl in *.
    rewrite H1, H2. repeat split; try done.
    + destruct H3 as [H3 _]. simpl in H3. rewrite H3. apply Hs.
    + destruct H3 as [_ H3]. simpl in H3. rewrite H3. apply Hs.
    + intros u Hu. rewrite (H4 u Hu). simpl. by rewrite Hr.
Qed.

Lemma forAttempts_frame M attempts : forall w b w',
  Webhooks.forAttempts url (Webhooks.sendFunction env url) M attempts w = (b, w') ->
  visits w' = visits w /\ sameStore w w'
  /\ (forall u, u <> url -> rateLimitState w' !! u = rateLimitState w !! u).
Proof.
  induction attempts as [|a later IH]; intros w b w' H; simpl in H.
  - inversion H; subst. repeat split; done.
  - destruct (Webhooks.attemptOnce url (Webhooks.sendFunction env url) M a w)
      as [st w1] eqn:E.
    apply attemptOnce_frame in E as (_ & Hv & Hs & Hr).
    destruct st as [b0|].
    + inversion H; subst. auto.
    + apply IH in H as (Hv' & Hs' & Hr').
      split; [congruence|]. split; [by eapply sameStore_trans|].
      intros u Hu. rewrite (Hr' u Hu). by apply Hr.
Qed.

End DispatcherFacts.

Section DispatcherRun.
Context (env : Env) (url : string).

Lemma retryable_not_ok o : retryable o = true -> o <> PostOk.
Proof. by destruct o. Qed.

(** What one iteration decides, by the outcome of its request. *)
Lemma attemptOnce_cases M a w st w' :
  Webhooks.attemptOnce url (Webhooks.sendFunction env url) M a w = (st, w') ->
  match st with
  | Webhooks.Return true => outcomeAt env url (posts w) = PostOk
  | Webhooks.Return false =>
      outcomeAt env url (posts w) <> PostOk
      /\ (retryable (outcomeAt env url (posts w)) = false \/ ~ (a < M - 1)%nat)
  | Webhooks.Continue =>
      retryable (outcomeAt env url (posts w)) = true /\ (a < M - 1)%nat
  end.
Proof.
  unfold Webhooks.attemptOnce. rewrite sendFunction_frame.
  destruct (awaitReset_frame url w) as (Hp & _). rewrite Hp.
  destruct (outcomeAt env url (posts w)) as [|[r|]]; simpl.
  - intros H. by inversion H.
  - destruct (status r =? 429) eqn:E429; simpl.
    + destruct (a <? M - 1)%nat eqn:Ea; intros H; inversion H; subst.
      * split; [done|]. by apply Nat.ltb_lt.
      * split; [done|]. right. by apply Nat.ltb_nlt.
    + destruct (a <? M - 1)%nat eqn:Ea; simpl;
        [destruct (500 <=? status r) eqn:E5|]; intros H; inversion H; subst.
      * split; [done|]. by apply Nat.ltb_lt.
      * split; [done|]. by left.
      * split; [done|]. right. by apply Nat.ltb_nlt.
  - intros H. inversion H; subst. split; [done|]. by left.
Qed.

(** The run of the loop over the attempts [a, a+1, ..., a+m-1]: it makes
    [n] requests, every one but the last ended in a retryable error, and
    the result is [true] exactly when the last one succeeded. *)
Lemma forAttempts_run M : forall m a w b w',
  Webhooks.forAttempts url (Webhooks.sendFunction env url) M (seq a m) w = (b, w') ->
  exists n : nat,
    posts w' = (posts w + n)%nat
    /\ (n <= m)%nat
    /\ (forall k, (S k < n)%nat -> retryable (outcomeAt env url (posts w + k)) = true)
    /\ (b = true <-> (1 <= n)%nat /\ outcomeAt env url (posts w + (n - 1)) = PostOk)
    /\ ((1 <= m)%nat -> (1 <= n)%nat).
Proof.
  induction m as [|m IH]; intros a w b w' H; simpl in H.
  - inversion H; subst. exists O. repeat split; try lia; try done.
  - destruct (Webhooks.attemptOnce url (Webhooks.sendFunction env url) M a w)
      as [st w1] eqn:E.
    pose proof (attemptOnce_cases _ _ _ _ _ E) as Hc.
    apply attemptOnce_frame in E as (Hp & _).
    destruct st as [b0|].
    + inversion H; subst. exists 1%nat.
      replace (posts w + (1 - 1))%nat with (posts w) by lia.
      repeat split; try lia.
      * by subst b.
      * intros [_ Hok]. destruct b; [done|]. by destruct Hc.
    + destruct Hc as [Hr Ha].
      apply IH in H as (n & Hn & Hle & Hmid & Hb & Hpos).
      exists (S n).
      split; [lia|]. split; [lia|]. split; [|split; [split|lia]].
      * intros [|k] Hk.
        -- by replace (posts w + 0)%nat with (posts w) by lia.
        -- replace (posts w + S k)%nat with (posts w1 + k)%nat by lia.
           apply Hmid. lia.
      * intros Hbt. apply Hb in Hbt as [Hn1 Hok]. split; [lia|].
        by replace (posts w + (S n - 1))%nat with (posts w1 + (n - 1))%nat by lia.
      * intros [_ Hok]. apply Hb.
        destruct n as [|n].
        -- replace (posts w + (1 - 1))%nat with (posts w) in Hok by lia.
           by apply retryable_not_ok in Hr.
        -- split; [lia|].
           by replace (posts w1 + (S n - 1))%nat with (posts w + (S (S n) - 1))%nat by lia.
Qed.

End DispatcherRun.

(** C8. A notification send is a total function to a boolean: whatever
    the requests answer, a send of a new listing or of a sold item makes
    between one and five requests, goes on to a further request only after
    a 429 or a status of 500 and above, returns [false] at once after any
    other error, and returns [true] exactly when its last request
    succeeded. *)
Theorem C8_send_is_bounded_and_returns_boolean
    (env : Env) (url : string) (listing : Listing) (item : SoldItem)
    (ssn : option string) (w : World) :
  sendContract env url w (Webhooks.sendNewListingWebhook env url listing w)
  /\ sendContract env url w (Webhooks.sendSoldItemWebhook env url item ssn w).
Proof.
  assert (Hrun : sendContract env url w
            (Webhooks.sendWithRateLimit url (Webhooks.sendFunction env url) 5 w)).
  { unfold Webhooks.sendWithRateLimit.
    destruct (Webhooks.forAttempts url (Webhooks.sendFunction env url) 5 (seq 0 5) w)
      as [b w'] eqn:E.
    apply forAttempts_run in E as (n & Hn & Hle & Hmid & Hb & Hpos).
    exists n. simpl. split; [done|]. split; [lia|]. split; [done|]. split.
    - intros k Hk Hnok Hnr.
      assert (S k = n) as <-.
      { destruct (decide (S k < n)%nat) as [Hlt|]; [|lia].
        apply Hmid in Hlt. congruence. }
      split; [done|]. destruct b; [|done].
      destruct Hb as [Hb _]. destruct (Hb eq_refl) as [_ Hok].
      by replace (posts w + (S k - 1))%nat with (posts w + k)%nat in Hok by lia.
    - split; [intros Hbt; by apply Hb|]. intros Hok. apply Hb. split; [lia|done]. }
  split; exact Hrun.
Qed.

Lemma rateLimitWait_spec attempt r : WaitFor attempt r (Webhooks.rateLimitWait attempt r).
Proof.
  unfold Webhooks.rateLimitWait.
  destruct (retryAfterHeader r) as [h|] eqn:Eh; [by eapply WaitHeaderSeconds|].
  destruct (retryAfterBody r) as [n|] eqn:Eb; [|apply WaitBackoff; auto].
  destruct (n =? 0) eqn:E0.
  - apply Z.eqb_eq in E0 as ->. apply WaitBackoff; auto.
  - apply Z.eqb_neq in E0. destruct (1000 <? n) eqn:E1.
    + apply Z.ltb_lt in E1. by eapply WaitBodyMilliseconds.
    + apply Z.ltb_ge in E1. by eapply WaitBodySeconds.
Qed.

(** C5, as the code has it.  After a 429 the wait is: a header directive
    times 1000 whatever its value (the header is a string, so it always
    counts as seconds); a body directive as milliseconds above 1000 and as
    seconds otherwise; the backoff [min(30s, 2^attempt s)] without a
    directive.  [resetAt = now + wait] is recorded under the webhook's own
    key, the entries of the other webhooks are untouched, the process sleeps
    for the wait when an attempt remains and returns [false] otherwise; and
    a whole send to one webhook changes no other webhook's entry, so a send
    to a webhook without an entry starts without waiting. *)
Theorem C5_rate_limit_wait_per_destination
    (env : Env) (url : string) (maxRetries attempt : nat) (r : ErrorResponse)
    (w : World) (H429 : status r = 429) :
  let wait := Webhooks.rateLimitWait attempt r in
  let '(st, w') := Webhooks.onError url maxRetries attempt (Some r) w in
  WaitFor attempt r wait
  /\ rateLimitState w' = <[url := clock w + wait]> (rateLimitState w)
  /\ (forall u, u <> url -> rateLimitState w' !! u = rateLimitState w !! u)
  /\ (if (attempt <? maxRetries - 1)%nat
      then st = Webhooks.Continue /\ clock w' = clock w + Z.max 0 wait
           /\ trace w' = (trace w ++ [EvSleep wait])%list
      else st = Webhooks.Return false /\ clock w' = clock w /\ trace w' = trace w)
  /\ (forall u b w2, u <> url ->
        Webhooks.sendWithRateLimit url (Webhooks.sendFunction env url) maxRetries w
          = (b, w2) ->
        rateLimitState w2 !! u = rateLimitState w !! u
        /\ (rateLimitState w !! u = None -> Webhooks.awaitReset u w2 = w2)).
Proof.
  simpl. unfold Webhooks.onError. rewrite H429. simpl.
  assert (Hsend : forall u b w2, u <> url ->
        Webhooks.sendWithRateLimit url (Webhooks.sendFunction env url) maxRetries w
          = (b, w2) ->
        rateLimitState w2 !! u = rateLimitState w !! u
        /\ (rateLimitState w !! u = None -> Webhooks.awaitReset u w2 = w2)).
  { intros u b w2 Hu Hrun. unfold Webhooks.sendWithRateLimit in Hrun.
    apply forAttempts_frame in Hrun as (_ & _ & Hr).
    split; [by apply Hr|]. intros Hnone. unfold Webhooks.awaitReset.
    by rewrite (Hr u Hu), Hnone. }
  destruct (attempt <? maxRetries - 1)%nat; simpl;
    (split; [apply rateLimitWait_spec|]); (split; [done|]);
    (split; [intros u Hu; by rewrite lookup_insert_ne|]); (split; [done|exact Hsend]).
Qed.

(** The theorem at a 429 whose body says 3000: the wait is 3000 ms. *)
Lemma C5_rate_limit_wait_witness :
  let r := {| status := 429; retryAfterHeader := None; retryAfterBody := Some 3000 |} in
  let w := Fixture.world [] in
  Webhooks.rateLimitWait 0 r = 3000
  /\ let '(st, w') := Webhooks.onError "https://hooks.example/sold" 5 0 (Some r) w in
     rateLimitState w' !! "https://hooks.example/sold" = Some (clock w + 3000)
     /\ rateLimitState w' !! "https://hooks.example/listings" = None.
Proof.
  intros r w. split; [reflexivity|].
  pose proof (C5_rate_limit_wait_per_destination
                (Fixture.env (fun _ => PostOk) Fixture.noListings Fixture.noSold)
                "https://hooks.example/sold" 5 0 r w eq_refl) as H.
  cbv zeta in H.
  destruct (Webhooks.onError "https://hooks.example/sold" 5 0 (Some r) w) as [st w'].
  destruct H as (_ & Hset & Hother & _).
  split.
  - rewrite Hset. apply lookup_insert_eq.
  - rewrite Hother; [reflexivity|discriminate].
Defined.

(** C5 as stated fails on a header directive: a 429 whose [retry-after]
    header reads 3000 (a value above 1000) makes the send sleep 3 000 000
    ms before its next request, not 3000 ms. *)
Lemma C5_header_directive_counts_as_seconds :
  let r := {| status := 429; retryAfterHeader := Some 3000; retryAfterBody := None |} in
  let env := Fixture.env (fun n => match n with O => PostError (Some r) | _ => PostOk end)
               Fixture.noListings Fixture.noSold in
  let w := Fixture.world [] in
  let '(b, w') := Webhooks.sendNewListingWebhook env (WEBHOOK_URL_LISTINGS env)
                    (Fixture.listing "222") w in
  b = true
  /\ trace w' = [EvPost (WEBHOOK_URL_LISTINGS env); EvSleep 3000000;
                 EvPost (WEBHOOK_URL_LISTINGS env)]
  /\ clock w' - clock w = 3000000
  /\ clock w' - clock w <> 3000.
Proof. vm_compute. repeat split; discriminate. Qed.

(** ** The crawler *)

Section CrawlerFacts.
Context (env : Env) (storeName : string) (ssn : option string).

Lemma forItems_spec now : forall rest len i acc flag,
  len = (i + List.length rest)%nat ->
  Scraper.forItems env storeName ssn now len i rest acc flag
  = ((acc ++ map (cleaned storeName ssn) (List.filter (inWindow env now) rest))%list,
     match rest with [] => flag | _ => lastInWindow env now rest end).
Proof.
  induction rest as [|item rest IH]; intros len i acc flag Hlen; simpl.
  - by rewrite app_nil_r.
  - simpl in Hlen. fold (inWindow env now item).
    assert (Hlast : (i =? len - 1)%nat = match rest with [] => true | _ => false end).
    { destruct rest; simpl in *; [apply Nat.eqb_eq|apply Nat.eqb_neq]; lia. }
    rewrite Hlast.
    destruct (inWindow env now item) eqn:Ein; simpl;
      rewrite (IH len (S i)) by lia; f_equal.
    + by rewrite <- app_assoc.
    + destruct rest as [|x rest]; [by unfold lastInWindow; simpl; rewrite Ein|done].
    + destruct rest as [|x rest]; [by unfold lastInWindow; simpl; rewrite Ein|done].
Qed.

(** One iteration from a state in which the loop runs. *)
Lemma loopBody_spec st :
  Scraper.shouldContinuePagination st = true ->
  let items := Scraper.pageItemsOf env storeName ssn (Scraper.dom st) in
  let kept := (Scraper.collected st ++ keptOf env storeName ssn (Scraper.dom st))%list in
  Scraper.loopBody env storeName ssn st
  = if lastInWindow env (seenAt (Scraper.dom st)) items then
      match Scraper.ahead st with
      | NextPage p more =>
          {| Scraper.collected := kept; Scraper.pageNum := S (Scraper.pageNum st);
             Scraper.hasMorePages := Scraper.hasMorePages st;
             Scraper.shouldContinuePagination := true;
             Scraper.dom := p; Scraper.ahead := more;
             Scraper.nextLookups := S (Scraper.nextLookups st) |}
      | _ =>
          {| Scraper.collected := kept; Scraper.pageNum := Scraper.pageNum st;
             Scraper.hasMorePages := false;
             Scraper.shouldContinuePagination := true;
             Scraper.dom := Scraper.dom st; Scraper.ahead := Scraper.ahead st;
             Scraper.nextLookups := S (Scraper.nextLookups st) |}
      end
    else
      {| Scraper.collected := kept; Scraper.pageNum := Scraper.pageNum st;
         Scraper.hasMorePages := Scraper.hasMorePages st;
         Scraper.shouldContinuePagination := false;
         Scraper.dom := Scraper.dom st; Scraper.ahead := Scraper.ahead st;
         Scraper.nextLookups := Scraper.nextLookups st |}.
Proof.
  intros Hc items kept. unfold Scraper.loopBody.
  rewrite forItems_spec by (simpl; lia). fold items.
  assert (Hflag : match items with [] => false | _ => lastInWindow env (seenAt (Scraper.dom st)) items end
                  = lastInWindow env (seenAt (Scraper.dom st)) items).
  { by destruct items. }
  rewrite Hflag. unfold kept, keptOf. fold items.
  destruct (lastInWindow env (seenAt (Scraper.dom st)) items); simpl; rewrite ?Hc; simpl.
  - by destruct (Scraper.ahead st).
  - done.
Qed.

Lemma whileLoop_exited fuel st :
  Scraper.hasMorePages st && Scraper.shouldContinuePagination st = false ->
  Scraper.whileLoop env storeName ssn fuel st = st.
Proof. intros H. destruct fuel; simpl; by rewrite H. Qed.

(** With a turn of the loop for every page that can be reached, the loop
    exits and has collected what the policy says. *)
Lemma whileLoop_spec : forall fuel st,
  Scraper.hasMorePages st = true ->
  Scraper.shouldContinuePagination st = true ->
  (S (Scraper.pagesAhead (Scraper.ahead st)) <= fuel)%nat ->
  let fin := Scraper.whileLoop env storeName ssn fuel st in
  Scraper.collected fin
    = (Scraper.collected st
       ++ crawlPolicy env storeName ssn (Scraper.dom st) (Scraper.ahead st))%list
  /\ Scraper.hasMorePages fin && Scraper.shouldContinuePagination fin = false.
Proof.
  induction fuel as [|fuel IH]; intros st Hm Hc Hfuel; [lia|].
  simpl. rewrite Hm, Hc. simpl.
  rewrite (loopBody_spec st Hc).
  destruct (lastInWindow env (seenAt (Scraper.dom st))
              (Scraper.pageItemsOf env storeName ssn (Scraper.dom st))) eqn:El.
  - destruct (Scraper.ahead st) as [| |p more] eqn:Ea.
    + rewrite whileLoop_exited by done. simpl.
      destruct (Scraper.dom st); simpl in *. rewrite El. by rewrite app_nil_r.
    + rewrite whileLoop_exited by done. simpl.
      destruct (Scraper.dom st); simpl in *. rewrite El. by rewrite app_nil_r.
    + simpl in Hfuel.
      match goal with |- context [Scraper.whileLoop _ _ _ fuel ?s] =>
        destruct (IH s) as [Hcol Hexit]; [done|done|simpl; lia|] end.
      simpl in Hcol. split; [|done]. rewrite Hcol.
      destruct (Scraper.dom st); simpl in *. rewrite El. by rewrite <- app_assoc.
  - rewrite whileLoop_exited by (simpl; by rewrite andb_false_r). simpl.
    split; [|by rewrite andb_false_r].
    destruct (Scraper.dom st); destruct (Scraper.ahead st); simpl in *;
      rewrite El; by rewrite app_nil_r.
Qed.

End CrawlerFacts.

(** C3. Sales crawl, one turn of the loop on a page: the in-window items
    of the page are appended to the result; the next-page control is
    looked up exactly when the last collected item of the page, in page
    order, is in-window; if it is not, the loop stops on this page; if it
    is and a next page loads, the loop goes on with that page; if the
    control is missing or the lookup, click or reload fails, the loop
    stops with what it has.  And a visit that loads its first page always
    returns, without error, the items the policy prescribes. *)
Theorem C3_next_page_iff_last_item_in_window
    (env : Env) (storeName : string) (ssn : option string) (st : Scraper.LoopState)
    (Hmore : Scraper.hasMorePages st = true)
    (Hcont : Scraper.shouldContinuePagination st = true) :
  let lastIn := lastInWindow env (seenAt (Scraper.dom st))
                  (Scraper.pageItemsOf env storeName ssn (Scraper.dom st)) in
  let st' := Scraper.loopBody env storeName ssn st in
  Scraper.collected st'
    = (Scraper.collected st ++ keptOf env storeName ssn (Scraper.dom st))%list
  /\ (Scraper.nextLookups st' = S (Scraper.nextLookups st) <-> lastIn = true)
  /\ (lastIn = false ->
        Scraper.nextLookups st' = Scraper.nextLookups st
        /\ Scraper.pageNum st' = Scraper.pageNum st
        /\ Scraper.dom st' = Scraper.dom st
        /\ forall fuel, Scraper.whileLoop env storeName ssn fuel st' = st')
  /\ (lastIn = true ->
        match Scraper.ahead st with
        | NextPage p more =>
            Scraper.dom st' = p /\ Scraper.ahead st' = more
            /\ Scraper.pageNum st' = S (Scraper.pageNum st)
            /\ Scraper.hasMorePages st' && Scraper.shouldContinuePagination st' = true
        | _ =>
            Scraper.pageNum st' = Scraper.pageNum st
            /\ Scraper.dom st' = Scraper.dom st
            /\ forall fuel, Scraper.whileLoop env storeName ssn fuel st' = st'
        end)
  /\ (forall w first more,
        snd (soldVisit env (visits w) storeName ssn) = SoldVisitLoads first more ->
        fst (Scraper.getSellerSoldItemsInternal env storeName ssn w)
        = Ok {| Scraper.sd_sellerUsername := ssn; Scraper.sd_storeName := storeName;
                Scraper.soldItems := crawlPolicy env storeName ssn first more |}
        /\ let fin := Scraper.paginate env storeName ssn first more in
           Scraper.hasMorePages fin && Scraper.shouldContinuePagination fin = false).
Proof.
  intros lastIn st'. subst st'. rewrite (loopBody_spec env storeName ssn st Hcont).
  fold lastIn.
  split; [|split; [|split; [|split]]].
  - destruct lastIn; [destruct (Scraper.ahead st)|]; done.
  - destruct lastIn; [destruct (Scraper.ahead st)|]; simpl; split; try done; lia.
  - intros ->. simpl. repeat split.
    intros fuel. apply whileLoop_exited. simpl. by rewrite andb_false_r.
  - intros ->. destruct (Scraper.ahead st); simpl; repeat split;
      try (intros fuel; by apply whileLoop_exited); by rewrite Hmore.
  - intros w first more Hvisit.
    destruct (whileLoop_spec env storeName ssn (S (Scraper.pagesAhead more))
                (Scraper.startState first more)) as [Hcol Hexit]; [done|done|simpl; lia|].
    split; [|exact Hexit].
    unfold Scraper.getSellerSoldItemsInternal.
    destruct (soldVisit env (visits w) storeName ssn) as [took visit].
    simpl in Hvisit. subst visit. cbn [fst]. unfold Scraper.paginate.
    by rewrite Hcol.
Qed.

(** The theorem on the first of two pages: page 1 ends with an item sold
    the day before, so the control is looked up and page 2 is loaded. *)
Lemma C3_next_page_witness :
  let env := Fixture.env (fun _ => PostOk) Fixture.noListings Fixture.noSold in
  let p1 := {| seenAt := 1762128000000;
               elements := [Fixture.card "111" "Sold  Nov 2, 2025"] |} in
  let p2 := {| seenAt := 1762128000000;
               elements := [Fixture.card "222" "Sold  Oct 1, 2025"] |} in
  let st := Scraper.startState p1 (NextPage p2 NoNextControl) in
  let st' := Scraper.loopBody env "alicestore" (Some "alice") st in
  Scraper.nextLookups st' = 1%nat /\ Scraper.dom st' = p2
  /\ map itemId (Scraper.collected st') = ["111"].
Proof.
  intros env p1 p2 st st'.
  pose proof (C3_next_page_iff_last_item_in_window env "alicestore" (Some "alice") st
                eq_refl eq_refl) as (Hcol & Hlook & _ & Hnext & _).
  split; [|split].
  - apply Hlook. vm_compute. reflexivity.
  - apply Hnext. vm_compute. reflexivity.
  - fold st' in Hcol. rewrite Hcol. vm_compute. reflexivity.
Defined.

Section ExclusionFacts.
Context (env : Env) (storeName : string) (ssn : option string).

Lemma pageItemOf_sold_text e it :
  Scraper.pageItemOf env storeName ssn e = Some it ->
  soldDate it = positiveText e
  /\ Js.truthy (positiveText e) = true
  /\ Js.includes "Sold" (positiveText e) = true.
Proof.
  unfold Scraper.pageItemOf.
  destruct (Js.truthy (positiveText e)); simpl; [|done].
  destruct (Js.includes "Sold" (positiveText e)); simpl; [|done].
  destruct (Js.orElse (hrefCardLink e) _) as [l|]; [|done].
  destruct (Js.truthy l); [|done].
  destruct (Scraper.extractItemId env _) as [id|]; [|done].
  match goal with |- (if ?c then _ else _) = _ -> _ => destruct c; [|done] end.
  intros [= <-]. done.
Qed.

Lemma pageItemOf_excluded e :
  Js.truthy (positiveText e) = false \/ Js.includes "Sold" (positiveText e) = false ->
  Scraper.pageItemOf env storeName ssn e = None.
Proof.
  intros H. destruct (Scraper.pageItemOf env storeName ssn e) as [it|] eqn:E; [|done].
  apply pageItemOf_sold_text in E as (_ & Ht & Hi). destruct H; congruence.
Qed.

(** A date text the pattern does not match counts as in-window. *)
Lemma soldWithinTwoDays_unmatched now text :
  Js.truthy text = true -> Js.includes "Sold" text = true ->
  Scraper.matchSoldDate text = None ->
  Scraper.soldWithinTwoDays env now text = true.
Proof. intros Ht Hi Hm. unfold Scraper.soldWithinTwoDays. by rewrite Ht, Hi, Hm. Qed.

(** A date text the pattern matches but the date constructor rejects
    counts as out of window. *)
Lemma soldWithinTwoDays_invalid now text d :
  Scraper.matchSoldDate text = Some d -> DateParse env d = None ->
  Scraper.soldWithinTwoDays env now text = false.
Proof.
  intros Hm Hd. unfold Scraper.soldWithinTwoDays. rewrite Hm, Hd.
  by destruct (Js.truthy text && Js.includes "Sold" text).
Qed.

End ExclusionFacts.

(** C10. Sales crawl: an element whose sold-date text is empty or lacks
    the word "Sold" yields no collected item; a turn of the loop on a page
    gives the same result, the same next-page decision and the same
    position with the element on the page as without it, so the element is
    out before any item is classified; and every collected item carries a
    non-empty sold-date text that contains "Sold". *)
Theorem C10_elements_without_sold_text_are_not_collected
    (env : Env) (storeName : string) (ssn : option string) (e : Element)
    (Hexcluded : Js.truthy (positiveText e) = false
                 \/ Js.includes "Sold" (positiveText e) = false) :
  Scraper.pageItemOf env storeName ssn e = None
  /\ (forall st before after,
        Scraper.shouldContinuePagination st = true ->
        let st1 := Scraper.loopBody env storeName ssn
                     (onElements st (before ++ e :: after)) in
        let st2 := Scraper.loopBody env storeName ssn
                     (onElements st (before ++ after)) in
        Scraper.collected st1 = Scraper.collected st2
        /\ Scraper.nextLookups st1 = Scraper.nextLookups st2
        /\ Scraper.pageNum st1 = Scraper.pageNum st2
        /\ Scraper.hasMorePages st1 = Scraper.hasMorePages st2
        /\ Scraper.shouldContinuePagination st1 = Scraper.shouldContinuePagination st2
        /\ Scraper.ahead st1 = Scraper.ahead st2)
  /\ (forall p it,
        it ∈ Scraper.pageItemsOf env storeName ssn p ->
        Js.truthy (soldDate it) = true /\ Js.includes "Sold" (soldDate it) = true).
Proof.
  pose proof (pageItemOf_excluded env storeName ssn e Hexcluded) as Hnone.
  split; [done|]. split.
  - intros st before after Hc st1 st2. subst st1 st2.
    assert (Heq : forall t,
      Scraper.pageItemsOf env storeName ssn {| seenAt := t; elements := before ++ e :: after |}
      = Scraper.pageItemsOf env storeName ssn {| seenAt := t; elements := before ++ after |}).
    { intros t. unfold Scraper.pageItemsOf. simpl. rewrite !omap_app. simpl.
      by rewrite Hnone. }
    rewrite !loopBody_spec by done.
    unfold keptOf, onElements.
    cbn [Scraper.dom Scraper.collected Scraper.ahead Scraper.pageNum
         Scraper.hasMorePages Scraper.nextLookups seenAt].
    rewrite Heq.
    destruct (lastInWindow env (seenAt (Scraper.dom st)) _);
      [destruct (Scraper.ahead st)|]; simpl; done.
  - intros p it Hin. unfold Scraper.pageItemsOf in Hin.
    apply list_elem_of_omap in Hin as (e' & _ & He').
    apply pageItemOf_sold_text in He' as (-> & Ht & Hi). done.
Qed.

(** The theorem at a card without sold-date text between two sold cards. *)
Lemma C10_elements_without_sold_text_witness :
  let env := Fixture.env (fun _ => PostOk) Fixture.noListings Fixture.noSold in
  let e := Fixture.card "999" "" in
  let p := {| seenAt := 1762128000000;
              elements := [Fixture.card "111" "Sold  Nov 2, 2025"; e;
                           Fixture.card "222" "Sold  Nov 1, 2025"] |} in
  Js.truthy (positiveText e) = false
  /\ map itemId (Scraper.pageItemsOf env "alicestore" (Some "alice") p) = ["111"; "222"].
Proof.
  intros env e p. split; [reflexivity|].
  pose proof (C10_elements_without_sold_text_are_not_collected env "alicestore"
                (Some "alice") e (or_introl eq_refl)) as (Hnone & _ & _).
  unfold Scraper.pageItemsOf, p. simpl elements.
  change (omap ?f (?a :: e :: ?l)) with
    (match f a with Some y => y :: omap f (e :: l) | None => omap f (e :: l) end).
  change (omap ?f (e :: ?l)) with
    (match f e with Some y => y :: omap f l | None => omap f l end).
  rewrite Hnone. vm_compute. reflexivity.
Defined.

(** C7, at a text the pattern matches and the date constructor rejects
    ("Okt" is no month name): the item is collected from the page, it is
    classified out of window, and the visit returns no item. *)
Theorem C7_invalid_date_is_dropped :
  let text := "Sold  Okt 2, 2025" in
  let page := {| seenAt := 1762128000000; elements := [Fixture.card "333" text] |} in
  let env := Fixture.env (fun _ => PostOk) Fixture.noListings
               (fun _ => SoldVisitLoads page NoNextControl) in
  Scraper.matchSoldDate text = Some "Okt 2, 2025"
  /\ DateParse env "Okt 2, 2025" = None
  /\ map soldDate (Scraper.pageItemsOf env "alicestore" (Some "alice") page) = [text]
  /\ Scraper.soldWithinTwoDays env (seenAt page) text = false
  /\ fst (Scraper.getSellerSoldItemsInternal env "alicestore" (Some "alice")
            (Fixture.world []))
     = Ok {| Scraper.sd_sellerUsername := Some "alice";
             Scraper.sd_storeName := "alicestore"; Scraper.soldItems := [] |}.
Proof. vm_compute. repeat split. Qed.

(** ** The bounded retry of a crawl *)

Lemma retryOperation_3 {A : Type} (fn : World -> Result A * World) w :
  Scraper.retryOperation fn 3 5000 w
  = match fn w with
    | (Ok a, w1) => (Ok (Some a), w1)
    | (Threw _, w1) =>
        match fn (sleep 5000 w1) with
        | (Ok a, w2) => (Ok (Some a), w2)
        | (Threw _, w2) =>
            match fn (sleep 5000 w2) with
            | (Ok a, w3) => (Ok (Some a), w3)
            | (Threw m, w3) => (Threw m, w3)
            end
        end
    end.
Proof. reflexivity. Qed.

Lemma retryOperation_bounded {A : Type} v (fn : World -> Result A * World) w :
  visitLike v fn -> crawlBounded v w (Scraper.retryOperation fn 3 5000 w).
Proof.
  intros Hfn. rewrite retryOperation_3.
  pose proof (Hfn w) as (V1 & T1 & P1 & R1 & [F1 W1]).
  destruct (fn w) as [[a1|m1] w1]; simpl in *.
  { exists 1%nat. simpl. repeat split; try done; lia. }
  pose proof (Hfn (sleep 5000 w1)) as (V2 & T2 & P2 & R2 & [F2 W2]).
  destruct (fn (sleep 5000 w1)) as [[a2|m2] w2]; simpl in *.
  { exists 2%nat. simpl. rewrite T2, T1, <- !app_assoc. simpl.
    repeat split; try done; try lia; congruence. }
  pose proof (Hfn (sleep 5000 w2)) as (V3 & T3 & P3 & R3 & [F3 W3]).
  destruct (fn (sleep 5000 w2)) as [[a3|m3] w3]; simpl in *;
    exists 3%nat; simpl; rewrite T3, T2, T1, <- !app_assoc; simpl;
    repeat split; try done; try lia; congruence.
Qed.

Lemma getSellerListingsInternal_visit env storeName ssn :
  visitLike (EvVisit storeName ssn) (Scraper.getSellerListingsInternal env storeName ssn).
Proof.
  intros w. unfold Scraper.getSellerListingsInternal.
  destruct (listingsVisit env (visits w) storeName ssn) as [took r]. by repeat split.
Qed.

Lemma getSellerSoldItemsInternal_visit env storeName ssn :
  visitLike (EvVisit storeName ssn) (Scraper.getSellerSoldItemsInternal env storeName ssn).
Proof.
  intros w. unfold Scraper.getSellerSoldItemsInternal.
  destruct (soldVisit env (visits w) storeName ssn) as [took [m|first more]];
    by repeat split.
Qed.


(** ** The diff step *)

Lemma sublist_filter_max {A : Type} (P : A -> Prop) `{!forall x, Decision (P x)}
    (l crawled : list A) :
  l `sublist_of` crawled -> Forall P l -> l `sublist_of` filter P crawled.
Proof.
  induction 1 as [|x l1 l2 Hsub IH|x l1 l2 Hsub IH]; intros HP.
  - apply sublist_nil.
  - apply Forall_cons in HP as [Hx HP].
    rewrite filter_cons_True by done. apply sublist_skip. by apply IH.
  - rewrite filter_cons. destruct (decide (P x)); [apply sublist_cons|]; by apply IH.
Qed.

(** C1. The diff step.  The new items are the items of the crawl whose
    id is not in the known set, in the crawl's order: every new item has an
    unknown id, the new items are a subsequence of the crawl, and every
    subsequence of the crawl made of items with unknown ids is a
    subsequence of the new items.  The updated known list holds, as a set,
    the known ids and the ids of the new items, and no known id is lost. *)
Theorem C1_diff_new_items_and_known_set
    {A : Type} (idOf : A -> string) (known : option (list string)) (crawled : list A) :
  let K := Monitor.knownIds known in
  let newItems := Monitor.newItemsOf idOf known crawled in
  let updated : gset string := list_to_set (Monitor.updatedKnownOf idOf known newItems) in
  Forall (fun x => idOf x ∉ K) newItems
  /\ newItems `sublist_of` crawled
  /\ (forall l, l `sublist_of` crawled -> Forall (fun x => idOf x ∉ K) l ->
                l `sublist_of` newItems)
  /\ updated = K ∪ list_to_set (map idOf newItems)
  /\ K ⊆ updated.
Proof.
  intros K newItems updated. subst newItems updated. unfold Monitor.newItemsOf. fold K.
  split; [|split; [|split; [|split]]].
  - apply Forall_forall. intros x Hx. by apply list_elem_of_filter in Hx as [Hx _].
  - apply sublist_filter.
  - intros l Hsub HP. by apply sublist_filter_max.
  - unfold Monitor.updatedKnownOf. by rewrite list_to_set_app_L.
  - unfold Monitor.updatedKnownOf. rewrite list_to_set_app_L. fold (Monitor.knownIds known).
    fold K. set_solver.
Qed.

(** ** One seller's turn in the cycle *)

Lemma findIndex_Some {A : Type} (p : A -> bool) (l : list A) i :
  SellerManager.findIndex p l = Some i -> exists x, l !! i = Some x /\ p x = true.
Proof.
  revert i. induction l as [|x l IH]; intros i H; simpl in H; [done|].
  destruct (p x) eqn:Ep.
  - inversion H; subst. by exists x.
  - destruct (SellerManager.findIndex p l) as [j|]; [|done].
    inversion H; subst. simpl. by apply IH.
Qed.

Lemma updateSeller_found env ssn u type w i s0 :
  SellerManager.findIndex (SellerManager.isSeller ssn type) (sellersFile w) = Some i ->
  sellersFile w !! i = Some s0 ->
  fsWriteFile env (writes w) = true ->
  let w' := snd (SellerManager.updateSeller env ssn u type w) in
  sellersFile w' = <[i := SellerManager.merge s0 u]> (sellersFile w)
  /\ writes w' = S (writes w).
Proof.
  intros Hi Hs Hw. unfold SellerManager.updateSeller, SellerManager.loadSellers.
  rewrite Hi, Hs. unfold SellerManager.saveSellers. by rewrite Hw.
Qed.

Section CycleFacts.
Context (env : Env).

Lemma sendWithRateLimit_frame url M w :
  let w' := snd (Webhooks.sendWithRateLimit url (Webhooks.sendFunction env url) M w) in
  visits w' = visits w /\ sameStore w w'.
Proof.
  unfold Webhooks.sendWithRateLimit.
  destruct (Webhooks.forAttempts url (Webhooks.sendFunction env url) M (seq 0 M) w)
    as [b w'] eqn:E.
  apply forAttempts_frame in E as (Hv & Hs & _). by split.
Qed.

Lemma sendNewListingWebhook_frame url listing w :
  let w' := snd (Webhooks.sendNewListingWebhook env url listing w) in
  visits w' = visits w /\ sameStore w w'.
Proof. exact (sendWithRateLimit_frame url 5 w). Qed.

Lemma sendSoldItemWebhook_frame url item ssn w :
  let w' := snd (Webhooks.sendSoldItemWebhook env url item ssn w) in
  visits w' = visits w /\ sameStore w w'.
Proof. exact (sendWithRateLimit_frame url 5 w). Qed.

Lemma notifyListings_frame l : forall w,
  visits (Monitor.notifyListings env l w) = visits w
  /\ sameStore w (Monitor.notifyListings env l w).
Proof.
  unfold Monitor.notifyListings.
  induction l as [|x l IH]; intros w; simpl; [by split|].
  pose proof (sendNewListingWebhook_frame (WEBHOOK_URL_LISTINGS env) x w) as [Hv Hs].
  destruct (Webhooks.sendNewListingWebhook env _ x w) as [b w1]. simpl in Hv, Hs.
  destruct (IH (sleep 2500 w1)) as [Hv' Hs'].
  split; [by rewrite Hv'|].
  eapply sameStore_trans; [|exact Hs']. eapply sameStore_trans; [exact Hs|].
  apply sameStore_sleep.
Qed.

Lemma notifySold_frame ssn l : forall w,
  visits (Monitor.notifySold env ssn l w) = visits w
  /\ sameStore w (Monitor.notifySold env ssn l w).
Proof.
  unfold Monitor.notifySold.
  induction l as [|x l IH]; intros w; simpl; [by split|].
  pose proof (sendSoldItemWebhook_frame (WEBHOOK_URL_SOLD env) x ssn w) as [Hv Hs].
  destruct (Webhooks.sendSoldItemWebhook env _ x ssn w) as [b w1]. simpl in Hv, Hs.
  destruct (IH (sleep 2500 w1)) as [Hv' Hs'].
  split; [by rewrite Hv'|].
  eapply sameStore_trans; [|exact Hs']. eapply sameStore_trans; [exact Hs|].
  apply sameStore_sleep.
Qed.

Lemma length_pos_iff {A : Type} (l : list A) :
  (0 <? List.length l)%nat = match l with [] => false | _ => true end.
Proof. by destruct l. Qed.

Lemma nonempty_match {A : Type} (l : list A) :
  l <> [] -> match l with [] => false | _ => true end = true.
Proof. by destruct l. Qed.

(** The turn of a listing seller whose crawl succeeded. *)
Lemma checkListingSeller_crawled seller w listings w1 :
  Scraper.getSellerListings env (s_storeName seller) (Monitor.ssnOf seller) w
    = (Ok (Some listings), w1) ->
  let newListings := Monitor.newItemsOf l_itemId (knownListings seller) listings in
  let wn := Monitor.notifyListings env newListings w1 in
  let w' := Monitor.checkListingSeller env seller w in
  (newListings = [] -> sellersFile w' = sellersFile w /\ writes w' = writes w)
  /\ (newListings <> [] ->
      forall i s0,
        SellerManager.findIndex
          (SellerManager.isSeller (Monitor.ssnOf seller) "listings") (sellersFile w) = Some i ->
        sellersFile w !! i = Some s0 ->
        fsWriteFile env (writes w) = true ->
        sellersFile w'
        = <[i := SellerManager.merge s0
                   {| SellerManager.u_knownListings :=
                        Some (Monitor.updatedKnownOf l_itemId (knownListings seller) newListings);
                      SellerManager.u_lastCheckedListings := Some (clock wn);
                      SellerManager.u_knownSoldItems := None;
                      SellerManager.u_lastCheckedSold := None |}]> (sellersFile w)
        /\ writes w' = S (writes w)).
Proof.
  intros Hcrawl newListings wn w'. subst w'. unfold Monitor.checkListingSeller.
  pose proof (retryOperation_bounded (EvVisit (s_storeName seller) (Monitor.ssnOf seller))
                _ w (getSellerListingsInternal_visit env (s_storeName seller)
                       (Monitor.ssnOf seller))) as (n & _ & _ & _ & _ & _ & Hs1 & _).
  fold (Scraper.getSellerListings env (s_storeName seller) (Monitor.ssnOf seller) w) in Hs1.
  rewrite Hcrawl in *. simpl in Hs1. destruct Hs1 as [Hf1 Hw1].
  fold newListings. rewrite length_pos_iff.
  split.
  - intros ->. simpl. by split.
  - intros Hne i s0 Hi Hs0 Hwr.
    rewrite (nonempty_match _ Hne).
    destruct (notifyListings_frame newListings w1) as [_ [Hf2 Hw2]]. fold wn in Hf2, Hw2.
    fold wn. simpl.
    destruct (updateSeller_found env (Monitor.ssnOf seller)
      {| SellerManager.u_knownListings :=
           Some (Monitor.updatedKnownOf l_itemId (knownListings seller) newListings);
         SellerManager.u_lastCheckedListings := Some (clock wn);
         SellerManager.u_knownSoldItems := None;
         SellerManager.u_lastCheckedSold := None |} "listings" wn i s0) as [Hfile Hwrites];
      [congruence|congruence|congruence|].
    rewrite Hfile, Hwrites. split; congruence.
Qed.

(** The turn of a sold seller whose crawl succeeded. *)
Lemma checkSoldSeller_crawled seller w soldData w1 :
  Scraper.getSellerSoldItems env (s_storeName seller) (Monitor.ssnOf seller) w
    = (Ok (Some soldData), w1) ->
  let newSoldItems :=
    Monitor.newItemsOf itemId (knownSoldItems seller) (Scraper.soldItems soldData) in
  let wn := Monitor.notifySold env (Monitor.ssnOf seller) newSoldItems w1 in
  let w' := Monitor.checkSoldSeller env seller w in
  (newSoldItems = [] -> sellersFile w' = sellersFile w /\ writes w' = writes w)
  /\ (newSoldItems <> [] ->
      forall i s0,
        SellerManager.findIndex
          (SellerManager.isSeller (Monitor.ssnOf seller) "sold") (sellersFile w) = Some i ->
        sellersFile w !! i = Some s0 ->
        fsWriteFile env (writes w) = true ->
        sellersFile w'
        = <[i := SellerManager.merge s0
                   {| SellerManager.u_knownListings := None;
                      SellerManager.u_lastCheckedListings := None;
                      SellerManager.u_knownSoldItems :=
                        Some (Monitor.updatedKnownOf itemId (knownSoldItems seller) newSoldItems);
                      SellerManager.u_lastCheckedSold := Some (clock wn) |}]> (sellersFile w)
        /\ writes w' = S (writes w)).
Proof.
  intros Hcrawl newSoldItems wn w'. subst w'. unfold Monitor.checkSoldSeller.
  pose proof (retryOperation_bounded (EvVisit (s_storeName seller) (Monitor.ssnOf seller))
                _ w (getSellerSoldItemsInternal_visit env (s_storeName seller)
                       (Monitor.ssnOf seller))) as (n & _ & _ & _ & _ & _ & Hs1 & _).
  fold (Scraper.getSellerSoldItems env (s_storeName seller) (Monitor.ssnOf seller) w) in Hs1.
  rewrite Hcrawl in *. simpl in Hs1. destruct Hs1 as [Hf1 Hw1].
  fold newSoldItems. rewrite length_pos_iff.
  split.
  - intros ->. simpl. by split.
  - intros Hne i s0 Hi Hs0 Hwr.
    rewrite (nonempty_match _ Hne).
    destruct (notifySold_frame (Monitor.ssnOf seller) newSoldItems w1) as [_ [Hf2 Hw2]].
    fold wn in Hf2, Hw2. fold wn. simpl.
    destruct (updateSeller_found env (Monitor.ssnOf seller)
      {| SellerManager.u_knownListings := None;
         SellerManager.u_lastCheckedListings := None;
         SellerManager.u_knownSoldItems :=
           Some (Monitor.updatedKnownOf itemId (knownSoldItems seller) newSoldItems);
         SellerManager.u_lastCheckedSold := Some (clock wn) |} "sold" wn i s0)
      as [Hfile Hwrites]; [congruence|congruence|congruence|].
    rewrite Hfile, Hwrites. split; congruence.
Qed.

End CycleFacts.

Lemma persistedAs_listings file i s0 ks t :
  file !! i = Some s0 ->
  persistedAs file
    (<[i := SellerManager.merge s0
              {| SellerManager.u_knownListings := Some ks;
                 SellerManager.u_lastCheckedListings := Some t;
                 SellerManager.u_knownSoldItems := None;
                 SellerManager.u_lastCheckedSold := None |}]> file)
    i knownListings lastCheckedListings ks t.
Proof.
  intros Hi. split.
  - eexists. split; [apply list_lookup_insert_eq; by eapply lookup_lt_Some|].
    split; reflexivity.
  - intros j Hj. by apply list_lookup_insert_ne.
Qed.

Lemma persistedAs_sold file i s0 ks t :
  file !! i = Some s0 ->
  persistedAs file
    (<[i := SellerManager.merge s0
              {| SellerManager.u_knownListings := None;
                 SellerManager.u_lastCheckedListings := None;
                 SellerManager.u_knownSoldItems := Some ks;
                 SellerManager.u_lastCheckedSold := Some t |}]> file)
    i knownSoldItems lastCheckedSold ks t.
Proof.
  intros Hi. split.
  - eexists. split; [apply list_lookup_insert_eq; by eapply lookup_lt_Some|].
    split; reflexivity.
  - intros j Hj. by apply list_lookup_insert_ne.
Qed.

(** C4, as the code has it.  After a crawl that succeeded, the seller's
    record is written only when the crawl brought at least one new item:
    then, if the record is found in the file and the write succeeds, it
    carries the known ids followed by the new ids and a check time equal to
    the clock reading at the write, after the notifications, and the other
    records are as they were.  With no new item nothing is written: the
    file, and with it the check time, stays as it was. *)
Theorem C4_seller_record_written_only_with_new_items
    (env : Env) (seller : Seller) (w : World) :
  let store := s_storeName seller in
  let ssn := Monitor.ssnOf seller in
  (forall listings w1,
     Scraper.getSellerListings env store ssn w = (Ok (Some listings), w1) ->
     let newListings := Monitor.newItemsOf l_itemId (knownListings seller) listings in
     let w' := Monitor.checkListingSeller env seller w in
     (newListings = [] -> sellersFile w' = sellersFile w /\ writes w' = writes w)
     /\ (newListings <> [] ->
         forall i,
           SellerManager.findIndex (SellerManager.isSeller ssn "listings") (sellersFile w)
             = Some i ->
           fsWriteFile env (writes w) = true ->
           persistedAs (sellersFile w) (sellersFile w') i knownListings lastCheckedListings
             (Monitor.updatedKnownOf l_itemId (knownListings seller) newListings)
             (clock (Monitor.notifyListings env newListings w1))))
  /\ (forall soldData w1,
     Scraper.getSellerSoldItems env store ssn w = (Ok (Some soldData), w1) ->
     let newSoldItems :=
       Monitor.newItemsOf itemId (knownSoldItems seller) (Scraper.soldItems soldData) in
     let w' := Monitor.checkSoldSeller env seller w in
     (newSoldItems = [] -> sellersFile w' = sellersFile w /\ writes w' = writes w)
     /\ (newSoldItems <> [] ->
         forall i,
           SellerManager.findIndex (SellerManager.isSeller ssn "sold") (sellersFile w)
             = Some i ->
           fsWriteFile env (writes w) = true ->
           persistedAs (sellersFile w) (sellersFile w') i knownSoldItems lastCheckedSold
             (Monitor.updatedKnownOf itemId (knownSoldItems seller) newSoldItems)
             (clock (Monitor.notifySold env ssn newSoldItems w1)))).
Proof.
  intros store ssn. split.
  - intros listings w1 Hcrawl newListings w'.
    destruct (checkListingSeller_crawled env seller w listings w1 Hcrawl) as [Hnil Hcons].
    split; [exact Hnil|].
    intros Hne i Hi Hwr.
    destruct (findIndex_Some _ _ _ Hi) as (s0 & Hs0 & _).
    destruct (Hcons Hne i s0 Hi Hs0 Hwr) as [Hfile _].
    subst w'. rewrite Hfile. by apply persistedAs_listings.
  - intros soldData w1 Hcrawl newSoldItems w'.
    destruct (checkSoldSeller_crawled env seller w soldData w1 Hcrawl) as [Hnil Hcons].
    split; [exact Hnil|].
    intros Hne i Hi Hwr.
    destruct (findIndex_Some _ _ _ Hi) as (s0 & Hs0 & _).
    destruct (Hcons Hne i s0 Hi Hs0 Hwr) as [Hfile _].
    subst w'. rewrite Hfile. by apply persistedAs_sold.
Qed.

(** The theorem on the scenario of the specification: known ids 111, the
    crawl returns 111, 222, 333. *)
Lemma C4_seller_record_written_witness :
  let env := Fixture.env (fun _ => PostOk)
               (fun _ => Ok [Fixture.listing "111"; Fixture.listing "222";
                             Fixture.listing "333"])
               Fixture.noSold in
  let alice := Fixture.seller "listings" "alice" ["111"] in
  let w := Fixture.world [alice] in
  let w' := Monitor.checkListingSeller env alice w in
  persistedAs (sellersFile w) (sellersFile w') 0 knownListings lastCheckedListings
    ["111"; "222"; "333"] (clock w + 5000).
Proof.
  intros env alice w w'.
  pose proof (C4_seller_record_written_only_with_new_items env alice w) as [H _].
  destruct (Scraper.getSellerListings env (s_storeName alice) (Monitor.ssnOf alice) w)
    as [r w1] eqn:Hcrawl.
  vm_compute in Hcrawl. inversion Hcrawl; subst r w1; clear Hcrawl.
  match type of H with forall l w1, (?a, ?b) = _ -> _ =>
    specialize (H _ _ eq_refl) end.
  destruct H as [_ H]. apply (H ltac:(vm_compute; discriminate) 0%nat);
    vm_compute; reflexivity.
Defined.

(** C4 as stated fails when the crawl succeeds without a new item: the
    crawl returns the one known listing, nothing is written and the check
    time stays unset. *)
Lemma C4_no_new_item_nothing_persisted :
  let env := Fixture.env (fun _ => PostOk) (fun _ => Ok [Fixture.listing "111"])
               Fixture.noSold in
  let alice := Fixture.seller "listings" "alice" ["111"] in
  let w := Fixture.world [alice] in
  let w' := Monitor.monitorSellers env true w in
  fst (Scraper.getSellerListings env "alicestore" (Some "alice") w)
    = Ok (Some [Fixture.listing "111"])
  /\ sellersFile w' = sellersFile w
  /\ map lastCheckedListings (sellersFile w') = [None]
  /\ writes w' = 0%nat.
Proof. vm_compute. repeat split. Qed.

(** ** What a turn with new items sends and records *)

Section TurnFacts.
Context (env : Env).

Lemma sendWithRateLimit_posts url w :
  exists n : nat,
    posts (snd (Webhooks.sendWithRateLimit url (Webhooks.sendFunction env url) 5 w))
    = (posts w + n)%nat
    /\ (1 <= n <= 5)%nat.
Proof.
  unfold Webhooks.sendWithRateLimit.
  destruct (Webhooks.forAttempts url (Webhooks.sendFunction env url) 5 (seq 0 5) w)
    as [b w'] eqn:E.
  apply forAttempts_run in E as (n & Hn & Hle & _ & _ & Hpos).
  exists n. simpl. split; [done|]. split; [apply Hpos; lia|done].
Qed.

(** One send per item of the list, each of one to five requests. *)
Lemma notifyListings_posts l : forall w,
  exists n : nat,
    posts (Monitor.notifyListings env l w) = (posts w + n)%nat
    /\ (List.length l <= n <= 5 * List.length l)%nat.
Proof.
  unfold Monitor.notifyListings.
  induction l as [|x l IH]; intros w; simpl.
  - exists 0%nat. lia.
  - destruct (sendWithRateLimit_posts (WEBHOOK_URL_LISTINGS env) w) as (n1 & H1 & B1).
    fold (Webhooks.sendNewListingWebhook env (WEBHOOK_URL_LISTINGS env) x w) in H1.
    destruct (Webhooks.sendNewListingWebhook env _ x w) as [b w1]. simpl in H1.
    destruct (IH (sleep 2500 w1)) as (n2 & H2 & B2). simpl in H2.
    exists (n1 + n2)%nat. split; lia.
Qed.

Lemma notifySold_posts ssn l : forall w,
  exists n : nat,
    posts (Monitor.notifySold env ssn l w) = (posts w + n)%nat
    /\ (List.length l <= n <= 5 * List.length l)%nat.
Proof.
  unfold Monitor.notifySold.
  induction l as [|x l IH]; intros w; simpl.
  - exists 0%nat. lia.
  - destruct (sendWithRateLimit_posts (WEBHOOK_URL_SOLD env) w) as (n1 & H1 & B1).
    fold (Webhooks.sendSoldItemWebhook env (WEBHOOK_URL_SOLD env) x ssn w) in H1.
    destruct (Webhooks.sendSoldItemWebhook env _ x ssn w) as [b w1]. simpl in H1.
    destruct (IH (sleep 2500 w1)) as (n2 & H2 & B2). simpl in H2.
    exists (n1 + n2)%nat. split; lia.
Qed.

(** [updateSeller] sends nothing, and records nothing when it finds no
    record or its write fails. *)
Lemma updateSeller_unsaved ssn u type w :
  let w' := snd (SellerManager.updateSeller env ssn u type w) in
  posts w' = posts w
  /\ (SellerManager.findIndex (SellerManager.isSeller ssn type) (sellersFile w) = None
      \/ fsWriteFile env (writes w) = false ->
      sellersFile w' = sellersFile w).
Proof.
  unfold SellerManager.updateSeller, SellerManager.loadSellers.
  destruct (SellerManager.findIndex _ (sellersFile w)) as [i|] eqn:Hi; [|by split].
  destruct (sellersFile w !! i) as [s0|]; [|by split].
  unfold SellerManager.saveSellers.
  destruct (fsWriteFile env (writes w)) eqn:Hw; simpl; (split; [done|]).
  - intros [?|?]; done.
  - done.
Qed.

(** The sends of a listing seller's turn, and the turn that records
    nothing. *)
Lemma checkListingSeller_sent seller w listings w1 :
  Scraper.getSellerListings env (s_storeName seller) (Monitor.ssnOf seller) w
    = (Ok (Some listings), w1) ->
  let newListings := Monitor.newItemsOf l_itemId (knownListings seller) listings in
  let w' := Monitor.checkListingSeller env seller w in
  newListings <> [] ->
  (exists n : nat,
     posts w' = (posts w + n)%nat
     /\ (List.length newListings <= n <= 5 * List.length newListings)%nat)
  /\ (SellerManager.findIndex
        (SellerManager.isSeller (Monitor.ssnOf seller) "listings") (sellersFile w) = None
      \/ fsWriteFile env (writes w) = false ->
      sellersFile w' = sellersFile w).
Proof.
  intros Hcrawl newListings w' Hne. subst w'. unfold Monitor.checkListingSeller.
  pose proof (retryOperation_bounded (EvVisit (s_storeName seller) (Monitor.ssnOf seller))
                _ w (getSellerListingsInternal_visit env (s_storeName seller)
                       (Monitor.ssnOf seller))) as (n & _ & _ & _ & Hp1 & _ & Hs1 & _).
  fold (Scraper.getSellerListings env (s_storeName seller) (Monitor.ssnOf seller) w)
    in Hp1, Hs1.
  rewrite Hcrawl in *. simpl in Hp1, Hs1. destruct Hs1 as [Hf1 Hw1].
  fold newListings. rewrite length_pos_iff, (nonempty_match _ Hne).
  destruct (notifyListings_frame env newListings w1) as [_ [Hf2 Hw2]].
  destruct (notifyListings_posts newListings w1) as (k & Hk & Bk).
  set (wn := Monitor.notifyListings env newListings w1) in *.
  match goal with |- context [SellerManager.updateSeller env ?s ?u ?t wn] =>
    destruct (updateSeller_unsaved s u t wn) as [Hp3 Hun] end.
  simpl. split.
  - exists k. rewrite Hp3, Hk, Hp1. split; [done|lia].
  - intros H. rewrite Hun; [congruence|]. rewrite Hf2, Hf1, Hw2, Hw1. exact H.
Qed.

Lemma checkSoldSeller_sent seller w soldData w1 :
  Scraper.getSellerSoldItems env (s_storeName seller) (Monitor.ssnOf seller) w
    = (Ok (Some soldData), w1) ->
  let newSoldItems :=
    Monitor.newItemsOf itemId (knownSoldItems seller) (Scraper.soldItems soldData) in
  let w' := Monitor.checkSoldSeller env seller w in
  newSoldItems <> [] ->
  (exists n : nat,
     posts w' = (posts w + n)%nat
     /\ (List.length newSoldItems <= n <= 5 * List.length newSoldItems)%nat)
  /\ (SellerManager.findIndex
        (SellerManager.isSeller (Monitor.ssnOf seller) "sold") (sellersFile w) = None
      \/ fsWriteFile env (writes w) = false ->
      sellersFile w' = sellersFile w).
Proof.
  intros Hcrawl newSoldItems w' Hne. subst w'. unfold Monitor.checkSoldSeller.
  pose proof (retryOperation_bounded (EvVisit (s_storeName seller) (Monitor.ssnOf seller))
                _ w (getSellerSoldItemsInternal_visit env (s_storeName seller)
                       (Monitor.ssnOf seller))) as (n & _ & _ & _ & Hp1 & _ & Hs1 & _).
  fold (Scraper.getSellerSoldItems env (s_storeName seller) (Monitor.ssnOf seller) w)
    in Hp1, Hs1.
  rewrite Hcrawl in *. simpl in Hp1, Hs1. destruct Hs1 as [Hf1 Hw1].
  fold newSoldItems. rewrite length_pos_iff, (nonempty_match _ Hne).
  destruct (notifySold_frame env (Monitor.ssnOf seller) newSoldItems w1) as [_ [Hf2 Hw2]].
  destruct (notifySold_posts (Monitor.ssnOf seller) newSoldItems w1) as (k & Hk & Bk).
  set (wn := Monitor.notifySold env (Monitor.ssnOf seller) newSoldItems w1) in *.
  match goal with |- context [SellerManager.updateSeller env ?s ?u ?t wn] =>
    destruct (updateSeller_unsaved s u t wn) as [Hp3 Hun] end.
  simpl. split.
  - exists k. rewrite Hp3, Hk, Hp1. split; [done|lia].
  - intros H. rewrite Hun; [congruence|]. rewrite Hf2, Hf1, Hw2, Hw1. exact H.
Qed.

(** No item whose id is among the known ids comes out of the diff. *)
Lemma newItemsOf_not_known {A : Type} (idOf : A -> string) known later y :
  y ∈ Monitor.newItemsOf idOf known later -> idOf y ∉ default [] known.
Proof.
  unfold Monitor.newItemsOf, Monitor.knownIds. intros Hy Hin.
  apply list_elem_of_filter in Hy as [Hy _]. apply Hy. by apply elem_of_list_to_set.
Qed.

End TurnFacts.

(** C2, as the code has it.  The result of a send is bound and never
    read.  In a turn whose crawl brought [k] new items (an id that occurs
    twice in the crawl counts twice) between [k] and [5 k] requests are
    made; then the ids of all the new items are appended to the seller's
    known ids in a single update, whatever the sends returned.  If the record that the seller's
    handle and type select is found and the write succeeds, that record
    keeps its identity and carries the seller's known ids followed by the
    new ids, so no crawl yields an item with one of these ids as new
    against it: a failed notification is not retried.  If no record is
    found or the write fails, the file is as it was. *)
Theorem C2_new_ids_recorded_whatever_the_send_returns
    (env : Env) (seller : Seller) (w : World) :
  let store := s_storeName seller in
  let ssn := Monitor.ssnOf seller in
  (forall listings w1,
     Scraper.getSellerListings env store ssn w = (Ok (Some listings), w1) ->
     let newListings := Monitor.newItemsOf l_itemId (knownListings seller) listings in
     let w' := Monitor.checkListingSeller env seller w in
     newListings <> [] ->
     (exists n : nat,
        posts w' = (posts w + n)%nat
        /\ (List.length newListings <= n <= 5 * List.length newListings)%nat)
     /\ (forall i,
           SellerManager.findIndex (SellerManager.isSeller ssn "listings") (sellersFile w)
             = Some i ->
           fsWriteFile env (writes w) = true ->
           exists s0 s',
             sellersFile w !! i = Some s0
             /\ sellersFile w' !! i = Some s'
             /\ identityOf s' = identityOf s0
             /\ knownListings s'
                = Some (default [] (knownListings seller) ++ map l_itemId newListings)%list
             /\ (forall x, x ∈ newListings -> l_itemId x ∈ default [] (knownListings s'))
             /\ (forall later y x,
                   y ∈ Monitor.newItemsOf l_itemId (knownListings s') later ->
                   x ∈ newListings -> l_itemId y <> l_itemId x))
     /\ (SellerManager.findIndex (SellerManager.isSeller ssn "listings") (sellersFile w)
           = None
         \/ fsWriteFile env (writes w) = false ->
         sellersFile w' = sellersFile w))
  /\ (forall soldData w1,
     Scraper.getSellerSoldItems env store ssn w = (Ok (Some soldData), w1) ->
     let newSoldItems :=
       Monitor.newItemsOf itemId (knownSoldItems seller) (Scraper.soldItems soldData) in
     let w' := Monitor.checkSoldSeller env seller w in
     newSoldItems <> [] ->
     (exists n : nat,
        posts w' = (posts w + n)%nat
        /\ (List.length newSoldItems <= n <= 5 * List.length newSoldItems)%nat)
     /\ (forall i,
           SellerManager.findIndex (SellerManager.isSeller ssn "sold") (sellersFile w)
             = Some i ->
           fsWriteFile env (writes w) = true ->
           exists s0 s',
             sellersFile w !! i = Some s0
             /\ sellersFile w' !! i = Some s'
             /\ identityOf s' = identityOf s0
             /\ knownSoldItems s'
                = Some (default [] (knownSoldItems seller) ++ map itemId newSoldItems)%list
             /\ (forall x, x ∈ newSoldItems -> itemId x ∈ default [] (knownSoldItems s'))
             /\ (forall later y x,
                   y ∈ Monitor.newItemsOf itemId (knownSoldItems s') later ->
                   x ∈ newSoldItems -> itemId y <> itemId x))
     /\ (SellerManager.findIndex (SellerManager.isSeller ssn "sold") (sellersFile w)
           = None
         \/ fsWriteFile env (writes w) = false ->
         sellersFile w' = sellersFile w)).
Proof.
  intros store ssn. split.
  - intros listings w1 Hcrawl newListings w' Hne.
    destruct (checkListingSeller_sent env seller w listings w1 Hcrawl Hne) as [Hsent Hun].
    split; [exact Hsent|]. split; [|exact Hun].
    intros i Hi Hwr.
    destruct (checkListingSeller_crawled env seller w listings w1 Hcrawl) as [_ Hcons].
    destruct (findIndex_Some _ _ _ Hi) as (s0 & Hs0 & _).
    destruct (Hcons Hne i s0 Hi Hs0 Hwr) as [Hfile _].
    exists s0. eexists. split; [exact Hs0|].
    split; [subst w'; rewrite Hfile; apply list_lookup_insert_eq; by eapply lookup_lt_Some|].
    split; [reflexivity|]. split; [reflexivity|].
    assert (Hin : forall x, x ∈ newListings ->
              l_itemId x ∈ (default [] (knownListings seller)
                            ++ map l_itemId newListings)%list).
    { intros x Hx. apply elem_of_app. right. apply list_elem_of_fmap. by exists x. }
    split; [exact Hin|].
    intros later y x Hy Hx Heq.
    apply newItemsOf_not_known in Hy. apply Hy. rewrite Heq. by apply Hin.
  - intros soldData w1 Hcrawl newSoldItems w' Hne.
    destruct (checkSoldSeller_sent env seller w soldData w1 Hcrawl Hne) as [Hsent Hun].
    split; [exact Hsent|]. split; [|exact Hun].
    intros i Hi Hwr.
    destruct (checkSoldSeller_crawled env seller w soldData w1 Hcrawl) as [_ Hcons].
    destruct (findIndex_Some _ _ _ Hi) as (s0 & Hs0 & _).
    destruct (Hcons Hne i s0 Hi Hs0 Hwr) as [Hfile _].
    exists s0. eexists. split; [exact Hs0|].
    split; [subst w'; rewrite Hfile; apply list_lookup_insert_eq; by eapply lookup_lt_Some|].
    split; [reflexivity|]. split; [reflexivity|].
    assert (Hin : forall x, x ∈ newSoldItems ->
              itemId x ∈ (default [] (knownSoldItems seller)
                          ++ map itemId newSoldItems)%list).
    { intros x Hx. apply elem_of_app. right. apply list_elem_of_fmap. by exists x. }
    split; [exact Hin|].
    intros later y x Hy Hx Heq.
    apply newItemsOf_not_known in Hy. apply Hy. rewrite Heq. by apply Hin.
Qed.

(** The theorem where the only send fails: the destination answers 400;
    one request is made, the id of the new listing 222 is in the persisted
    known ids, and 222 is not new at a later crawl. *)
Lemma C2_new_ids_recorded_witness :
  let env := Fixture.env
               (fun _ => PostError (Some {| status := 400; retryAfterHeader := None;
                                            retryAfterBody := None |}))
               (fun _ => Ok [Fixture.listing "111"; Fixture.listing "222"])
               Fixture.noSold in
  let alice := Fixture.seller "listings" "alice" ["111"] in
  let w := Fixture.world [alice] in
  let w' := Monitor.checkListingSeller env alice w in
  (1 <= posts w' <= 5)%nat
  /\ exists s',
       sellersFile w' !! 0%nat = Some s'
       /\ knownListings s' = Some ["111"; "222"]
       /\ Monitor.newItemsOf l_itemId (knownListings s')
            [Fixture.listing "111"; Fixture.listing "222"] = [].
Proof.
  intros env alice w w'.
  pose proof (C2_new_ids_recorded_whatever_the_send_returns env alice w) as [H _].
  destruct (Scraper.getSellerListings env (s_storeName alice) (Monitor.ssnOf alice) w)
    as [r w1] eqn:Hcrawl.
  vm_compute in Hcrawl. inversion Hcrawl; subst r w1; clear Hcrawl.
  match type of H with forall l w1, (?a, ?b) = _ -> _ =>
    specialize (H _ _ eq_refl) end.
  destruct H as ((n & Hn & Hb) & Hrec & _); [vm_compute; discriminate|].
  split.
  - subst w'. rewrite Hn. vm_compute in Hb. simpl. lia.
  - destruct (Hrec 0%nat) as (s0 & s' & _ & Hs' & _ & Hks & _ & _);
      [vm_compute; reflexivity|vm_compute; reflexivity|].
    exists s'. split; [exact Hs'|]. rewrite Hks. split; vm_compute; reflexivity.
Defined.

(** C2 as stated fails: the send of the new listing 222 returns [false]
    (the destination answers 400), and the cycle records 222 among the
    known ids all the same; the next cycle sends nothing. *)
Lemma C2_failed_send_still_recorded :
  let env := Fixture.env
               (fun _ => PostError (Some {| status := 400; retryAfterHeader := None;
                                            retryAfterBody := None |}))
               (fun _ => Ok [Fixture.listing "111"; Fixture.listing "222"])
               Fixture.noSold in
  let w := Fixture.world [Fixture.seller "listings" "alice" ["111"]] in
  let w1 := snd (Scraper.getSellerListings env "alicestore" (Some "alice") w) in
  let w' := Monitor.monitorSellers env true w in
  fst (Webhooks.sendNewListingWebhook env (WEBHOOK_URL_LISTINGS env)
         (Fixture.listing "222") w1) = false
  /\ map knownListings (sellersFile w') = [Some ["111"; "222"]]
  /\ posts w' = 1%nat
  /\ posts (Monitor.monitorSellers env true w') = 1%nat.
Proof. vm_compute. repeat split. Qed.

(** ** A failed crawl and the rest of the cycle *)





(** ** The scheduler *)

Lemma step_monitoringActive M st ev :
  Scheduler.monitoringActive (Scheduler.step M st ev) = Scheduler.monitoringActive st.
Proof.
  destruct ev; simpl; try done.
  - destruct (Scheduler.timeouts st) as [|due later]; [done|].
    destruct (due <=? Scheduler.now st); [|done].
    unfold Scheduler.callMonitorSellers. simpl.
    by destruct (Scheduler.monitoringActive st).
  - destruct (Scheduler.intervalDue st) as [due|]; [|done].
    destruct (due <=? Scheduler.now st); [|done].
    unfold Scheduler.callMonitorSellers. simpl.
    by destruct (Scheduler.monitoringActive st).
Qed.

Lemma run_monitoringActive M evs :
  Scheduler.monitoringActive (Scheduler.run M evs) = true.
Proof.
  unfold Scheduler.run.
  assert (H : forall st, Scheduler.monitoringActive st = true ->
                         Scheduler.monitoringActive (foldl (Scheduler.step M) st evs) = true).
  { induction evs as [|ev evs IH]; intros st Hst; [done|].
    simpl. apply IH. by rewrite step_monitoringActive. }
  by apply H.
Qed.

(** C9, as the code has it.  Nothing serializes the cycles.  In every
    state the process can reach, the flag that guards [monitorSellers] is
    set; a configuration change adds one timeout due in two seconds and
    leaves the periodic timer and the pending timeouts alone; and when a
    due timeout fires, a new cycle starts at once, whatever the number of
    cycles still in progress. *)
Theorem C9_timeout_starts_a_cycle_at_once
    (MONITOR_INTERVAL : Z) (evs : list Scheduler.Event) (due : Z) (later : list Z)
    (Hqueue : Scheduler.timeouts (Scheduler.run MONITOR_INTERVAL evs) = due :: later)
    (Hdue : due <= Scheduler.now (Scheduler.run MONITOR_INTERVAL evs)) :
  let st := Scheduler.run MONITOR_INTERVAL evs in
  let changed := Scheduler.step MONITOR_INTERVAL st Scheduler.ConfigurationChanged in
  let fired := Scheduler.step MONITOR_INTERVAL st Scheduler.TimeoutFires in
  Scheduler.monitoringActive st = true
  /\ Scheduler.timeouts changed = (Scheduler.timeouts st ++ [Scheduler.now st + 2000])%list
  /\ Scheduler.intervalDue changed = Scheduler.intervalDue st
  /\ Scheduler.cyclesInProgress changed = Scheduler.cyclesInProgress st
  /\ Scheduler.cyclesInProgress fired = S (Scheduler.cyclesInProgress st)
  /\ Scheduler.timeouts fired = later.
Proof.
  intros st changed fired. subst changed fired.
  pose proof (run_monitoringActive MONITOR_INTERVAL evs) as Hactive. fold st in Hactive, Hqueue, Hdue.
  split; [exact Hactive|]. split; [done|]. split; [done|]. split; [done|].
  simpl. rewrite Hqueue.
  apply Z.leb_le in Hdue. rewrite Hdue.
  unfold Scheduler.callMonitorSellers. simpl. rewrite Hactive. simpl. by split.
Qed.

(** The theorem two seconds after a configuration change during the
    first cycle: the timeout fires and a second cycle is in progress. *)
Lemma C9_timeout_starts_a_cycle_witness :
  let st := Scheduler.run 43200000 [Scheduler.ConfigurationChanged; Scheduler.Elapse 2000] in
  Scheduler.cyclesInProgress st = 1%nat
  /\ Scheduler.cyclesInProgress (Scheduler.step 43200000 st Scheduler.TimeoutFires)
     = 2%nat.
Proof.
  intros st. split; [reflexivity|].
  pose proof (C9_timeout_starts_a_cycle_at_once 43200000
                [Scheduler.ConfigurationChanged; Scheduler.Elapse 2000] 2000 []
                eq_refl ltac:(vm_compute; discriminate)) as (_ & _ & _ & _ & Hfired & _).
  exact Hfired.
Defined.

(** C9 as stated fails: a seller is added while the first cycle runs; two
    seconds later the timeout fires and two cycles are in progress. *)
Lemma C9_two_cycles_in_progress :
  Scheduler.cyclesInProgress
    (Scheduler.run 43200000
       [Scheduler.ConfigurationChanged; Scheduler.Elapse 2000; Scheduler.TimeoutFires])
  = 2%nat.
Proof. reflexivity. Qed.

(** ** Worked scenarios *)

(** Known ids 111; the crawl returns 111, 222, 333: two notifications,
    2.5 s after each, one write with the three ids, then the 5 s pause. *)
Example end_to_end_scenario :
  let env := Fixture.env (fun _ => PostOk)
               (fun _ => Ok [Fixture.listing "111"; Fixture.listing "222";
                             Fixture.listing "333"])
               Fixture.noSold in
  let w := Fixture.world [Fixture.seller "listings" "alice" ["111"]] in
  let w' := Monitor.monitorSellers env true w in
  map knownListings (sellersFile w') = [Some ["111"; "222"; "333"]]
  /\ map lastCheckedListings (sellersFile w') = [Some (clock w + 5000)]
  /\ trace w' = [EvVisit "alicestore" (Some "alice");
                 EvPost "https://hooks.example/listings"; EvSleep 2500;
                 EvPost "https://hooks.example/listings"; EvSleep 2500;
                 EvWrite true; EvSleep 5000].
Proof. vm_compute. repeat split. Qed.

(** Page 1 within the window, page 2 outside: page 2 is loaded and adds
    nothing, page 3 is never asked for. *)
Example pagination_confirms_the_old_page :
  let env := Fixture.env (fun _ => PostOk) Fixture.noListings Fixture.noSold in
  let p1 := {| seenAt := 1762128000000;
               elements := [Fixture.card "1" "Sold  Nov 2, 2025";
                            Fixture.card "2" "Sold  Nov 1, 2025"] |} in
  let p2 := {| seenAt := 1762128000000;
               elements := [Fixture.card "3" "Sold  Oct 1, 2025"] |} in
  let p3 := {| seenAt := 1762128000000;
               elements := [Fixture.card "4" "Sold  Nov 2, 2025"] |} in
  let fin := Scraper.paginate env "alicestore" (Some "alice") p1
               (NextPage p2 (NextPage p3 NoNextControl)) in
  map itemId (Scraper.collected fin) = ["1"; "2"]
  /\ Scraper.pageNum fin = 2%nat /\ Scraper.nextLookups fin = 1%nat.
Proof. vm_compute. repeat split. Qed.

(** Page 1 ends outside the window: page 2 is not asked for. *)
Example pagination_stops_on_an_old_tail :
  let env := Fixture.env (fun _ => PostOk) Fixture.noListings Fixture.noSold in
  let p1 := {| seenAt := 1762128000000;
               elements := [Fixture.card "1" "Sold  Nov 2, 2025";
                            Fixture.card "2" "Sold  Oct 1, 2025"] |} in
  let p2 := {| seenAt := 1762128000000;
               elements := [Fixture.card "3" "Sold  Nov 2, 2025"] |} in
  let fin := Scraper.paginate env "alicestore" (Some "alice") p1
               (NextPage p2 NoNextControl) in
  map itemId (Scraper.collected fin) = ["1"]
  /\ Scraper.pageNum fin = 1%nat /\ Scraper.nextLookups fin = 0%nat.
Proof. vm_compute. repeat split. Qed.

(** A date text without a date ("Sold yesterday") counts as in-window. *)
Example unmatched_date_text_is_kept :
  let env := Fixture.env (fun _ => PostOk) Fixture.noListings Fixture.noSold in
  Scraper.matchSoldDate "Sold yesterday" = None
  /\ Scraper.soldWithinTwoDays env 1762128000000 "Sold yesterday" = true.
Proof. vm_compute. split; reflexivity. Qed.

(** A 429 whose body says 3000 on the sold webhook: the retry waits 3000
    ms, and a send to the listings webhook afterwards does not wait. *)
Example rate_limit_is_per_webhook :
  let r := {| status := 429; retryAfterHeader := None; retryAfterBody := Some 3000 |} in
  let env := Fixture.env (fun n => match n with O => PostError (Some r) | _ => PostOk end)
               Fixture.noListings Fixture.noSold in
  let w := Fixture.world [] in
  let '(b1, w1) := Webhooks.sendWithRateLimit (WEBHOOK_URL_SOLD env)
                     (Webhooks.sendFunction env (WEBHOOK_URL_SOLD env)) 1 w in
  let '(b2, w2) := Webhooks.sendNewListingWebhook env (WEBHOOK_URL_LISTINGS env)
                     (Fixture.listing "222") w1 in
  b1 = false /\ b2 = true
  /\ rateLimitState w1 !! WEBHOOK_URL_SOLD env = Some (clock w + 3000)
  /\ trace w2 = [EvPost (WEBHOOK_URL_SOLD env); EvPost (WEBHOOK_URL_LISTINGS env)]
  /\ clock w2 = clock w.
Proof. vm_compute. repeat split. Qed.

(** * Further properties of the sources *)

(** ** Adding, removing and updating sellers *)

Lemma find_None_iff {A : Type} (p : A -> bool) (l : list A) :
  List.find p l = None <-> forall x, x ∈ l -> p x = false.
Proof.
  split.
  - intros H x Hx. apply list_elem_of_In in Hx. by eapply find_none.
  - intros H. induction l as [|x l IH]; [done|]. simpl.
    rewrite (H x) by apply list_elem_of_here.
    apply IH. intros y Hy. apply H. by apply list_elem_of_further.
Qed.

Lemma filter_all {A : Type} (p : A -> bool) (l : list A) :
  List.length (List.filter p l) = List.length l <-> forall x, x ∈ l -> p x = true.
Proof.
  induction l as [|x l IH]; simpl.
  - split; [|done]. intros _ y Hy. by apply not_elem_of_nil in Hy.
  - pose proof (List.filter_length_le p l) as Hle.
    destruct (p x) eqn:Ep; simpl; split.
    + intros H y Hy. apply elem_of_cons in Hy as [->|Hy]; [done|].
      apply IH; [lia|done].
    + intros H. f_equal. apply IH. intros y Hy. apply H. by apply list_elem_of_further.
    + lia.
    + intros H. rewrite (H x) in Ep by apply list_elem_of_here. done.
Qed.

Lemma filter_all_eq {A : Type} (p : A -> bool) (l : list A) :
  (forall x, x ∈ l -> p x = true) -> List.filter p l = l.
Proof.
  induction l as [|x l IH]; intros H; [done|]. simpl.
  rewrite (H x) by apply list_elem_of_here. f_equal.
  apply IH. intros y Hy. apply H. by apply list_elem_of_further.
Qed.

Section AdminFacts.
Context (env : Env).

(** How [addSeller] fails: the three refusals, and what a failure leaves. *)
Lemma addSeller_failure_cases
    (storeName ssn : option string) (type : string) (w : World) :
  let r := fst (SellerAdmin.addSeller env storeName ssn type w) in
  let w' := snd (SellerAdmin.addSeller env storeName ssn type w) in
  (type <> "listings" /\ type <> "sold" -> r = SellerAdmin.InvalidType)
  /\ (JsText.trimmedOrEmpty storeName = "" \/ JsText.trimmedOrEmpty ssn = "" ->
      SellerAdmin.addSucceeded r = false)
  /\ ((exists s, s ∈ sellersFile w /\ s_ssn s = Some (JsText.trimmedOrEmpty ssn)
                 /\ s_type s = type) ->
      SellerAdmin.addSucceeded r = false)
  /\ (SellerAdmin.addSucceeded r = false -> sellersFile w' = sellersFile w)
  /\ (SellerAdmin.addSucceeded r = false -> r <> SellerAdmin.AddNotSaved -> w' = w).
Proof.
  intros r w'. subst r w'. unfold SellerAdmin.addSeller, SellerManager.loadSellers.
  destruct (bool_decide (type = "listings")) eqn:Hl;
    destruct (bool_decide (type = "sold")) eqn:Hs; simpl.
  all: try (apply bool_decide_eq_true in Hl).
  all: try (apply bool_decide_eq_true in Hs).
  all: try (apply bool_decide_eq_false in Hl).
  all: try (apply bool_decide_eq_false in Hs).
  4: { repeat split; done. }
  all: destruct (Js.truthy (JsText.trimmedOrEmpty storeName)) eqn:Hts; simpl;
    [destruct (Js.truthy (JsText.trimmedOrEmpty ssn)) eqn:Htn; simpl|].
  all: try (repeat split; try done; intros [? ?]; congruence).
  all: destruct (List.find _ (sellersFile w)) as [dup|] eqn:Hfind;
    [repeat split; try done; intros [? ?]; congruence|].
  all: unfold SellerManager.saveSellers;
    destruct (fsWriteFile env (writes w)); simpl.
  all: split; [intros [? ?]; congruence|].
  all: split; [intros [E|E]; rewrite E in *; done|].
  all: split; [|done].
  all: intros (s & Hin & Hssn & Hty);
    pose proof (proj1 (find_None_iff _ _) Hfind s Hin) as Hno;
    unfold SellerAdmin.sameSsnAndType in Hno;
    rewrite !bool_decide_eq_true_2 in Hno by done; done.
Qed.

(** X1. [addSeller] refuses an unknown type, an empty store name or
    handle (after trimming) and a handle already monitored for the type;
    whenever it reports failure the sellers file is as it was, and apart
    from a failed write the world is untouched. *)
Theorem addSeller_rejects_without_changing_the_file
    (storeName ssn : option string) (type : string) (w : World) :
  let r := fst (SellerAdmin.addSeller env storeName ssn type w) in
  let w' := snd (SellerAdmin.addSeller env storeName ssn type w) in
  (type <> "listings" /\ type <> "sold" -> r = SellerAdmin.InvalidType)
  /\ (JsText.trimmedOrEmpty storeName = "" \/ JsText.trimmedOrEmpty ssn = "" ->
      SellerAdmin.addSucceeded r = false)
  /\ ((exists s, s ∈ sellersFile w /\ s_ssn s = Some (JsText.trimmedOrEmpty ssn)
                 /\ s_type s = type) ->
      SellerAdmin.addSucceeded r = false)
  /\ (SellerAdmin.addSucceeded r = false -> sellersFile w' = sellersFile w)
  /\ (SellerAdmin.addSucceeded r = false -> r <> SellerAdmin.AddNotSaved -> w' = w).
Proof. exact (addSeller_failure_cases storeName ssn type w). Qed.

(** The record a successful [addSeller] appends. *)
Lemma addSeller_added_shape
    (storeName ssn : option string) (type : string) (w w' : World) (n : Seller)
    (Hadd : SellerAdmin.addSeller env storeName ssn type w = (SellerAdmin.Added n, w')) :
  sellersFile w' = (sellersFile w ++ [n])%list
  /\ s_storeName n = JsText.trimmedOrEmpty storeName
  /\ s_ssn n = Some (JsText.trimmedOrEmpty ssn)
  /\ s_username n = Some (JsText.trimmedOrEmpty ssn)
  /\ Js.truthy (JsText.trimmedOrEmpty storeName) = true
  /\ Js.truthy (JsText.trimmedOrEmpty ssn) = true
  /\ s_type n = type
  /\ ((type = "listings" /\ knownListings n = Some [] /\ knownSoldItems n = None)
      \/ (type = "sold" /\ knownListings n = None /\ knownSoldItems n = Some []))
  /\ lastCheckedListings n = None /\ lastCheckedSold n = None
  /\ addedAt n = clock w
  /\ (forall s, s ∈ sellersFile w -> keyOf s <> keyOf n).
Proof.
  unfold SellerAdmin.addSeller, SellerManager.loadSellers in Hadd.
  destruct (negb (bool_decide (type = "listings")) && negb (bool_decide (type = "sold")))
    eqn:Hty; [done|].
  destruct (negb (Js.truthy (JsText.trimmedOrEmpty storeName))
            || negb (Js.truthy (JsText.trimmedOrEmpty ssn))) eqn:Hempty; [done|].
  apply orb_false_elim in Hempty as [Hs Hn].
  apply negb_false_iff in Hs, Hn.
  destruct (List.find _ (sellersFile w)) as [dup|] eqn:Hfind; [done|].
  unfold SellerManager.saveSellers in Hadd.
  destruct (fsWriteFile env (writes w)); [|done].
  inversion Hadd; subst n w'; clear Hadd. simpl.
  repeat (split; [done|]).
  split.
  - destruct (bool_decide (type = "listings")) eqn:Hl.
    + apply bool_decide_eq_true in Hl. left. subst type. done.
    + destruct (bool_decide (type = "sold")) eqn:Hsd; [|done].
      apply bool_decide_eq_true in Hsd. right. subst type. done.
  - repeat (split; [done|]).
    intros s Hin Hkey. unfold keyOf in Hkey. simpl in Hkey.
    pose proof (proj1 (find_None_iff _ _) Hfind s Hin) as Hno.
    unfold SellerAdmin.sameSsnAndType in Hno.
    inversion Hkey as [[Hk1 Hk2]].
    rewrite !bool_decide_eq_true_2 in Hno by done. done.
Qed.

(** X2. A successful [addSeller] appends one record at the end of the
    file: trimmed, non-empty store name and handle, the requested type,
    an empty known list for that type and none for the other, no check
    time, the current time as creation time; and no earlier record had the
    same handle and type. *)
Theorem addSeller_appends_a_fresh_record
    (storeName ssn : option string) (type : string) (w w' : World) (n : Seller)
    (Hadd : SellerAdmin.addSeller env storeName ssn type w = (SellerAdmin.Added n, w')) :
  sellersFile w' = (sellersFile w ++ [n])%list
  /\ s_storeName n = JsText.trimmedOrEmpty storeName
  /\ s_ssn n = Some (JsText.trimmedOrEmpty ssn)
  /\ s_username n = Some (JsText.trimmedOrEmpty ssn)
  /\ Js.truthy (JsText.trimmedOrEmpty storeName) = true
  /\ Js.truthy (JsText.trimmedOrEmpty ssn) = true
  /\ s_type n = type
  /\ ((type = "listings" /\ knownListings n = Some [] /\ knownSoldItems n = None)
      \/ (type = "sold" /\ knownListings n = None /\ knownSoldItems n = Some []))
  /\ lastCheckedListings n = None /\ lastCheckedSold n = None
  /\ addedAt n = clock w
  /\ (forall s, s ∈ sellersFile w -> keyOf s <> keyOf n).
Proof. exact (addSeller_added_shape storeName ssn type w w' n Hadd). Qed.

(** X3. [addSeller] keeps the handles unique per type: if no two records
    of the file share handle and type before the call, none do after it,
    whatever the call returns. *)
Theorem addSeller_keeps_keys_unique
    (storeName ssn : option string) (type : string) (w : World)
    (Huniq : NoDup (map keyOf (sellersFile w))) :
  NoDup (map keyOf (sellersFile (snd (SellerAdmin.addSeller env storeName ssn type w)))).
Proof.
  destruct (SellerAdmin.addSeller env storeName ssn type w) as [r w'] eqn:Hadd.
  destruct r as [n| | | |].
  - destruct (addSeller_added_shape _ _ _ _ _ _ Hadd)
      as (Hfile & _ & _ & _ & _ & _ & _ & _ & _ & _ & _ & Hfresh).
    simpl. rewrite Hfile, map_app. simpl.
    apply NoDup_app. split; [done|]. split; [|apply NoDup_singleton].
    intros k Hk Hk'. apply list_elem_of_singleton in Hk'. subst k.
    apply list_elem_of_fmap in Hk as (s & Hs & Hin). by apply (Hfresh s Hin).
  - pose proof (addSeller_failure_cases storeName ssn type w)
      as (_ & _ & _ & Hsame & _). rewrite Hadd in Hsame. simpl in *.
    by rewrite Hsame.
  - pose proof (addSeller_failure_cases storeName ssn type w)
      as (_ & _ & _ & Hsame & _). rewrite Hadd in Hsame. simpl in *.
    by rewrite Hsame.
  - pose proof (addSeller_failure_cases storeName ssn type w)
      as (_ & _ & _ & Hsame & _). rewrite Hadd in Hsame. simpl in *.
    by rewrite Hsame.
  - pose proof (addSeller_failure_cases storeName ssn type w)
      as (_ & _ & _ & Hsame & _). rewrite Hadd in Hsame. simpl in *.
    by rewrite Hsame.
Qed.

End AdminFacts.

(** The theorems on [addSeller] for a handle typed with blanks around it. *)
Lemma addSeller_appends_a_fresh_record_witness :
  let env := Fixture.env (fun _ => PostOk) Fixture.noListings Fixture.noSold in
  let w := Fixture.world [Fixture.seller "listings" "alice" []] in
  let w' := snd (SellerAdmin.addSeller env (Some " Bob Store ") (Some "  bob ") "sold" w) in
  map s_ssn (sellersFile w') = [Some "alice"; Some "bob"]
  /\ map s_storeName (sellersFile w') = ["alicestore"; "Bob Store"].
Proof.
  intros env w w'.
  destruct (SellerAdmin.addSeller env (Some " Bob Store ") (Some "  bob ") "sold" w)
    as [r w1] eqn:Hadd.
  assert (Hr : exists n, r = SellerAdmin.Added n).
  { vm_compute in Hadd. inversion Hadd. eexists. reflexivity. }
  destruct Hr as [n ->].
  destruct (addSeller_appends_a_fresh_record env _ _ _ _ _ _ Hadd)
    as (Hfile & Hstore & Hssn & _).
  subst w'. simpl. rewrite Hfile, !map_app. simpl. rewrite Hssn, Hstore.
  split; reflexivity.
Defined.

Lemma addSeller_keeps_keys_unique_witness :
  let env := Fixture.env (fun _ => PostOk) Fixture.noListings Fixture.noSold in
  let w := Fixture.world [Fixture.seller "listings" "alice" []] in
  NoDup (map keyOf (sellersFile
    (snd (SellerAdmin.addSeller env (Some "alicestore") (Some "alice") "sold" w)))).
Proof.
  intros env w.
  apply (addSeller_keeps_keys_unique env (Some "alicestore") (Some "alice") "sold" w).
  simpl. apply NoDup_singleton.
Defined.

Section RemoveFacts.
Context (env : Env).

(** The three outcomes of [removeSeller]. *)
Lemma removeSeller_cases
    (ssn type : string) (w : World) :
  let r := fst (SellerAdmin.removeSeller env ssn type w) in
  let w' := snd (SellerAdmin.removeSeller env ssn type w) in
  (r = SellerAdmin.NotFound <->
     forall s, s ∈ sellersFile w -> SellerAdmin.toRemove ssn type s = false)
  /\ (SellerAdmin.removeSucceeded r = false -> sellersFile w' = sellersFile w)
  /\ (r = SellerAdmin.Removed ->
      sellersFile w'
        = List.filter (fun s => negb (SellerAdmin.toRemove ssn type s)) (sellersFile w)
      /\ (List.length (sellersFile w') < List.length (sellersFile w))%nat
      /\ (forall s, s ∈ sellersFile w' <->
                    s ∈ sellersFile w /\ SellerAdmin.toRemove ssn type s = false)
      /\ fst (SellerAdmin.removeSeller env ssn type w') = SellerAdmin.NotFound).
Proof.
  intros r w'. subst r w'.
  destruct (SellerAdmin.removeSeller env ssn type w) as [r w'] eqn:E. simpl.
  unfold SellerAdmin.removeSeller, SellerManager.loadSellers in E.
  set (keep := fun s => negb (SellerAdmin.toRemove ssn type s)) in *.
  assert (Hall : List.length (List.filter keep (sellersFile w)) = List.length (sellersFile w)
                 <-> forall s, s ∈ sellersFile w -> SellerAdmin.toRemove ssn type s = false).
  { rewrite filter_all. unfold keep. split; intros H s Hs; specialize (H s Hs);
      by destruct (SellerAdmin.toRemove ssn type s). }
  pose proof (List.filter_length_le keep (sellersFile w)) as Hle.
  destruct (List.length (List.filter keep (sellersFile w)) =? List.length (sellersFile w))%nat
    eqn:Hlen.
  - apply Nat.eqb_eq in Hlen. inversion E; subst r w'; clear E.
    split; [split; [intros _; by apply Hall|done]|]. split; done.
  - apply Nat.eqb_neq in Hlen.
    unfold SellerManager.saveSellers in E.
    destruct (fsWriteFile env (writes w)); inversion E; subst r w'; clear E; simpl.
    + split; [split; [done|intros H; apply Hall in H; done]|].
      split; [done|]. intros _. split; [reflexivity|]. split; [lia|]. split.
      * intros s. rewrite !list_elem_of_In, filter_In. unfold keep.
        destruct (SellerAdmin.toRemove ssn type s); simpl; intuition congruence.
      * unfold SellerAdmin.removeSeller, SellerManager.loadSellers. simpl.
        fold keep.
        assert (Hidem : List.filter keep (List.filter keep (sellersFile w))
                        = List.filter keep (sellersFile w)).
        { apply filter_all_eq. intros s Hs. apply list_elem_of_In in Hs.
          by apply filter_In in Hs as [_ Hs]. }
        rewrite Hidem, Nat.eqb_refl. done.
    + split; [split; [done|intros H; apply Hall in H; done]|].
      split; done.
Qed.

(** X4. [removeSeller] deletes every record of the type whose handle or
    username is the given one and keeps the others in order.  It reports
    not-found exactly when no record matches; whenever it does not report
    success the file is as it was; after a success no record matches any
    more, so a second call reports not-found. *)
Theorem removeSeller_deletes_exactly_the_matching_records
    (ssn type : string) (w : World) :
  let r := fst (SellerAdmin.removeSeller env ssn type w) in
  let w' := snd (SellerAdmin.removeSeller env ssn type w) in
  (r = SellerAdmin.NotFound <->
     forall s, s ∈ sellersFile w -> SellerAdmin.toRemove ssn type s = false)
  /\ (SellerAdmin.removeSucceeded r = false -> sellersFile w' = sellersFile w)
  /\ (r = SellerAdmin.Removed ->
      sellersFile w'
        = List.filter (fun s => negb (SellerAdmin.toRemove ssn type s)) (sellersFile w)
      /\ (List.length (sellersFile w') < List.length (sellersFile w))%nat
      /\ (forall s, s ∈ sellersFile w' <->
                    s ∈ sellersFile w /\ SellerAdmin.toRemove ssn type s = false)
      /\ fst (SellerAdmin.removeSeller env ssn type w') = SellerAdmin.NotFound).
Proof. exact (removeSeller_cases ssn type w). Qed.

(** X5. Removing what was just added restores the file: after a
    successful [addSeller], [removeSeller] with the trimmed handle and the
    same type succeeds (if its write does) and leaves the file as it was
    before the addition, provided no earlier record of that type carried
    the handle as handle or username. *)
Theorem removeSeller_undoes_addSeller
    (storeName ssn : option string) (type : string) (w w1 : World) (n : Seller)
    (Hadd : SellerAdmin.addSeller env storeName ssn type w = (SellerAdmin.Added n, w1))
    (Hfree : forall s, s ∈ sellersFile w ->
               SellerAdmin.toRemove (JsText.trimmedOrEmpty ssn) type s = false)
    (Hwrite : fsWriteFile env (writes w1) = true) :
  let r := SellerAdmin.removeSeller env (JsText.trimmedOrEmpty ssn) type w1 in
  fst r = SellerAdmin.Removed /\ sellersFile (snd r) = sellersFile w.
Proof.
  destruct (addSeller_added_shape env _ _ _ _ _ _ Hadd)
    as (Hfile & _ & Hssn & _ & _ & _ & Hty & _).
  unfold SellerAdmin.removeSeller, SellerManager.loadSellers. rewrite Hfile.
  rewrite List.filter_app. simpl.
  assert (Hn : SellerAdmin.toRemove (JsText.trimmedOrEmpty ssn) type n = true).
  { unfold SellerAdmin.toRemove.
    by rewrite (bool_decide_eq_true_2 _ Hssn), (bool_decide_eq_true_2 _ Hty). }
  rewrite Hn. simpl. rewrite app_nil_r.
  assert (Hkeep : List.filter
            (fun s => negb (SellerAdmin.toRemove (JsText.trimmedOrEmpty ssn) type s))
            (sellersFile w) = sellersFile w).
  { apply filter_all_eq. intros s Hs. by rewrite (Hfree s Hs). }
  rewrite Hkeep, length_app. simpl.
  replace (List.length (sellersFile w) =? List.length (sellersFile w) + 1)%nat with false
    by (symmetry; apply Nat.eqb_neq; lia).
  unfold SellerManager.saveSellers. rewrite Hwrite. simpl. by split.
Qed.

(** X6. [updateSeller] never changes how many records the file holds nor
    what identifies them (store, handle, username, type, creation time);
    when no record matches the handle and type it reports failure and
    leaves the world as it was, and whenever it reports failure the file is
    as it was. *)
Theorem updateSeller_keeps_the_records_in_place
    (ssn : option string) (updates : SellerManager.Updates) (type : string) (w : World) :
  let ok := fst (SellerManager.updateSeller env ssn updates type w) in
  let w' := snd (SellerManager.updateSeller env ssn updates type w) in
  map identityOf (sellersFile w') = map identityOf (sellersFile w)
  /\ (SellerManager.findIndex (SellerManager.isSeller ssn type) (sellersFile w) = None ->
      ok = false /\ w' = w)
  /\ (ok = false -> sellersFile w' = sellersFile w)
  /\ (forall i, SellerManager.findIndex (SellerManager.isSeller ssn type) (sellersFile w)
                  = Some i ->
                forall j, j <> i -> sellersFile w' !! j = sellersFile w !! j).
Proof.
  intros ok w'. subst ok w'.
  unfold SellerManager.updateSeller, SellerManager.loadSellers.
  destruct (SellerManager.findIndex _ (sellersFile w)) as [i|] eqn:Hi; [|by repeat split].
  destruct (findIndex_Some _ _ _ Hi) as (s0 & Hs0 & _). rewrite Hs0.
  unfold SellerManager.saveSellers.
  destruct (fsWriteFile env (writes w)); simpl; [|by repeat split].
  split; [|split; [done|split; [done|]]].
  - rewrite list_fmap_insert. apply list_insert_id.
    rewrite list_lookup_fmap, Hs0. done.
  - intros i' [= <-] j Hj. by apply list_lookup_insert_ne.
Qed.

End RemoveFacts.

Lemma removeSeller_undoes_addSeller_witness :
  let env := Fixture.env (fun _ => PostOk) Fixture.noListings Fixture.noSold in
  let w := Fixture.world [Fixture.seller "listings" "alice" ["111"]] in
  let w1 := snd (SellerAdmin.addSeller env (Some "bobstore") (Some " bob ") "sold" w) in
  sellersFile (snd (SellerAdmin.removeSeller env "bob" "sold" w1)) = sellersFile w.
Proof.
  intros env w w1.
  destruct (SellerAdmin.addSeller env (Some "bobstore") (Some " bob ") "sold" w)
    as [r w1'] eqn:Hadd.
  assert (Hr : exists n, r = SellerAdmin.Added n).
  { vm_compute in Hadd. inversion Hadd. eexists. reflexivity. }
  destruct Hr as [n ->].
  refine (proj2 (removeSeller_undoes_addSeller env _ _ _ _ _ _ Hadd _ _)).
  - intros s Hs. apply list_elem_of_singleton in Hs. subst s. reflexivity.
  - vm_compute in Hadd. inversion Hadd. reflexivity.
Defined.

(** ** The admin routes *)

Lemma trimStart_shape s :
  JsText.trimStart s = "" \/
  exists c r, JsText.trimStart s = String c r /\ Js.isSpace c = false.
Proof.
  induction s as [|c s IH]; simpl; [by left|].
  destruct (Js.isSpace c) eqn:E; [exact IH|]. right. by exists c, s.
Qed.

Lemma trimEnd_idempotent s : JsText.trimEnd (JsText.trimEnd s) = JsText.trimEnd s.
Proof.
  induction s as [|c s IH]; simpl; [done|].
  destruct (Js.isSpace c && negb (Js.truthy (JsText.trimEnd s))) eqn:E; [done|].
  simpl. by rewrite IH, E.
Qed.

Lemma trim_idempotent s : JsText.trim (JsText.trim s) = JsText.trim s.
Proof.
  unfold JsText.trim.
  destruct (trimStart_shape s) as [E|(c & r & E & Hc)]; rewrite E; [done|].
  simpl. rewrite Hc. simpl. rewrite Hc. simpl. rewrite Hc. simpl.
  by rewrite trimEnd_idempotent.
Qed.

Lemma trimmedOrEmpty_idempotent v :
  JsText.trimmedOrEmpty (Some (JsText.trimmedOrEmpty v)) = JsText.trimmedOrEmpty v.
Proof.
  unfold JsText.trimmedOrEmpty at 1.
  destruct (Js.truthy (JsText.trimmedOrEmpty v)) eqn:E.
  - destruct v as [s|]; simpl in *; [|done].
    destruct (Js.truthy s); [|done]. apply trim_idempotent.
  - by destruct (JsText.trimmedOrEmpty v).
Qed.

Section RouteFacts.
Context (env : Env).

(** X7. [POST /api/admin/sellers] answers 200, 400 or 500.  It answers
    500 exactly when the request has no body or its store name or handle is
    a truthy value that is no string.  On 200 the three fields were
    strings, one record with the trimmed store name and handle and the
    requested type has been appended to the file, and one monitoring
    restart has been scheduled; on any other answer the file is as it was
    and nothing is scheduled. *)
Theorem postSeller_schedules_a_restart_only_on_success
    (body : option Routes.Body) (w : World) (sched : Scheduler.State) :
  let '(status, w', sched') := Routes.postSeller env body w sched in
  (status = 200 \/ status = 400 \/ status = 500)
  /\ (status = 500 <->
      body = None
      \/ exists b, body = Some b
           /\ (Routes.b_storeName b = Routes.NotText true
               \/ Routes.b_ssn b = Routes.NotText true))
  /\ (status = 200 ->
      sched' = Scheduler.triggerMonitoringRestart sched
      /\ exists b storeName ssn type n,
           body = Some b
           /\ Routes.b_storeName b = Routes.Text storeName
           /\ Routes.b_ssn b = Routes.Text ssn
           /\ Routes.b_type b = Routes.Text type
           /\ sellersFile w' = (sellersFile w ++ [n])%list
           /\ s_storeName n = JsText.trim storeName
           /\ s_ssn n = Some (JsText.trim ssn)
           /\ s_type n = type)
  /\ (status <> 200 -> sched' = sched /\ sellersFile w' = sellersFile w).
Proof.
  unfold Routes.postSeller.
  destruct body as [b|].
  2: { split; [auto|]. split; [split; [by left|done]|]. split; done. }
  assert (Hfield : forall v,
            match Routes.trimmedField v with
            | Threw _ => v = Routes.NotText true
            | Ok t =>
                v <> Routes.NotText true
                /\ (Js.truthy t = true -> exists s, v = Routes.Text s /\ t = JsText.trim s)
            end).
  { intros [|s|[|]]; simpl; try done.
    - split; [done|]. intros H. exists s. split; [done|].
      destruct (Js.truthy s); [done|]. simpl in H. done. }
  pose proof (Hfield (Routes.b_storeName b)) as Hstore.
  pose proof (Hfield (Routes.b_ssn b)) as Hssn.
  destruct (Routes.trimmedField (Routes.b_storeName b)) as [tStore|m1].
  2: { split; [auto|]. split; [split; [intros _; right; exists b; auto|done]|].
       split; done. }
  destruct Hstore as [Hstore1 Hstore2].
  destruct (Routes.trimmedField (Routes.b_ssn b)) as [tSsn|m2].
  2: { split; [auto|]. split; [split; [intros _; right; exists b; auto|done]|].
       split; done. }
  destruct Hssn as [Hssn1 Hssn2].
  assert (Hno500 : ~ (Some b = None
                      \/ exists b0, Some b = Some b0
                           /\ (Routes.b_storeName b0 = Routes.NotText true
                               \/ Routes.b_ssn b0 = Routes.NotText true))).
  { intros [?|(b0 & [= <-] & [?|?])]; done. }
  destruct (Js.truthy tStore) eqn:Ets; simpl;
    [|split; [auto|]; split; [split; [done|intros H; by apply Hno500 in H]|];
      split; done].
  destruct (Js.truthy tSsn) eqn:Etn; simpl;
    [|split; [auto|]; split; [split; [done|intros H; by apply Hno500 in H]|];
      split; done].
  destruct (Hstore2 eq_refl) as (storeName & HbS & ->).
  destruct (Hssn2 eq_refl) as (ssn & HbN & ->).
  destruct (Routes.b_type b) as [|t|nt] eqn:Hbt;
    [split; [auto|]; split; [split; [done|intros H; by apply Hno500 in H]|];
      split; done| |
     split; [auto|]; split; [split; [done|intros H; by apply Hno500 in H]|];
      split; done].
  destruct (negb (Js.truthy t)
            || negb (bool_decide (t = "listings")) && negb (bool_decide (t = "sold")));
    [split; [auto|]; split; [split; [done|intros H; by apply Hno500 in H]|];
      split; done|].
  destruct (SellerAdmin.addSeller env (Some (JsText.trim storeName))
              (Some (JsText.trim ssn)) t w) as [r w1] eqn:Hadd.
  destruct r as [n| | | |]; simpl.
  - destruct (addSeller_added_shape env _ _ _ _ _ _ Hadd)
      as (Hfile & Hstore & Hssn & _ & _ & _ & Hty & _).
    simpl in Hstore, Hssn. rewrite Ets in Hstore. rewrite Etn in Hssn.
    rewrite trim_idempotent in Hstore, Hssn.
    split; [auto|]. split; [split; [done|intros H; by apply Hno500 in H]|].
    split; [|done]. intros _. split; [done|].
    by exists b, storeName, ssn, t, n.
  - pose proof (addSeller_failure_cases env (Some (JsText.trim storeName))
                  (Some (JsText.trim ssn)) t w) as (_ & _ & _ & Hsame & _).
    rewrite Hadd in Hsame.
    split; [auto|]. split; [split; [done|intros H; by apply Hno500 in H]|].
    split; [done|]. intros _. split; [done|]. by apply Hsame.
  - pose proof (addSeller_failure_cases env (Some (JsText.trim storeName))
                  (Some (JsText.trim ssn)) t w) as (_ & _ & _ & Hsame & _).
    rewrite Hadd in Hsame.
    split; [auto|]. split; [split; [done|intros H; by apply Hno500 in H]|].
    split; [done|]. intros _. split; [done|]. by apply Hsame.
  - pose proof (addSeller_failure_cases env (Some (JsText.trim storeName))
                  (Some (JsText.trim ssn)) t w) as (_ & _ & _ & Hsame & _).
    rewrite Hadd in Hsame.
    split; [auto|]. split; [split; [done|intros H; by apply Hno500 in H]|].
    split; [done|]. intros _. split; [done|]. by apply Hsame.
  - pose proof (addSeller_failure_cases env (Some (JsText.trim storeName))
                  (Some (JsText.trim ssn)) t w) as (_ & _ & _ & Hsame & _).
    rewrite Hadd in Hsame.
    split; [auto|]. split; [split; [done|intros H; by apply Hno500 in H]|].
    split; [done|]. intros _. split; [done|]. by apply Hsame.
Qed.

(** X8. [DELETE /api/admin/sellers/:ssn] answers 200, 400 or 404.  On 200
    the matching records are gone from the file and one monitoring restart
    has been scheduled; otherwise the file is as it was and nothing is
    scheduled; 404 is the answer when the type is valid and no record
    matches. *)
Theorem deleteSeller_schedules_a_restart_only_on_success
    (ssn : string) (type : option string) (w : World) (sched : Scheduler.State) :
  let '(status, w', sched') := Routes.deleteSeller env ssn type w sched in
  (status = 200 \/ status = 400 \/ status = 404)
  /\ (status = 200 ->
      sched' = Scheduler.triggerMonitoringRestart sched
      /\ exists t, type = Some t
           /\ sellersFile w'
              = List.filter (fun s => negb (SellerAdmin.toRemove ssn t s)) (sellersFile w))
  /\ (status <> 200 -> sched' = sched /\ sellersFile w' = sellersFile w)
  /\ (forall t, type = Some t -> Js.truthy ssn = true ->
        t = "listings" \/ t = "sold" ->
        (forall s, s ∈ sellersFile w -> SellerAdmin.toRemove ssn t s = false) ->
        status = 404).
Proof.
  unfold Routes.deleteSeller.
  destruct (Js.truthy ssn) eqn:Hssn; simpl; [|by repeat split; auto].
  destruct type as [t|]; [|by repeat split; auto].
  destruct (Js.truthy t) eqn:Ht; simpl.
  2: { repeat split; auto; try done.
       intros t' [= <-] _ [->| ->]; done. }
  destruct (bool_decide (t = "listings")) eqn:Hl;
    destruct (bool_decide (t = "sold")) eqn:Hs; simpl.
  4: { apply bool_decide_eq_false in Hl, Hs.
       repeat split; auto; try done. intros t' [= <-] _ [->| ->]; done. }
  all: pose proof (removeSeller_cases env ssn t w)
         as (Hnf & Hsame & Hrem);
       destruct (SellerAdmin.removeSeller env ssn t w) as [r w1];
       simpl in Hnf, Hsame, Hrem;
       destruct r; simpl.
  all: first
    [ (* removed *)
      destruct (Hrem eq_refl) as (Hfile & _);
      split; [by left|]; split; [intros _; split; [done|]; by exists t|];
      split; [done|];
      intros t' [= <-] _ _ Hnone; apply Hnf in Hnone; done
    | (* not removed *)
      split; [by right; right|]; split; [done|];
      split; [intros _; split; [done|]; by apply Hsame|]; done ].
Qed.

(** X9. [POST /api/admin/check/:ssn] is a probe: whatever it answers, it
    sends no notification, leaves the rate-limit state and the sellers file
    alone, and makes at most six visits (two crawls of at most three). *)
Theorem checkSeller_is_read_only (ssn : string) (w : World) :
  let w' := snd (Routes.checkSeller env ssn w) in
  sameStore w w' /\ posts w' = posts w /\ rateLimitState w' = rateLimitState w
  /\ (visits w <= visits w' <= visits w + 6)%nat.
Proof.
  unfold Routes.checkSeller.
  destruct (List.find _ (SellerManager.getAllSellers None w)) as [seller|];
    [|simpl; repeat split; lia].
  pose proof (retryOperation_bounded
                (EvVisit (s_storeName seller) (Monitor.ssnOf seller)) _ w
                (getSellerListingsInternal_visit env (s_storeName seller)
                   (Monitor.ssnOf seller)))
    as (n1 & Hn1 & Hv1 & _ & Hp1 & Hr1 & [Hf1 Hw1] & _).
  fold (Scraper.getSellerListings env (s_storeName seller) (Monitor.ssnOf seller) w)
    in Hv1, Hp1, Hr1, Hf1, Hw1.
  destruct (Scraper.getSellerListings env (s_storeName seller) (Monitor.ssnOf seller) w)
    as [r1 w1]. simpl in Hv1, Hp1, Hr1, Hf1, Hw1.
  assert (Hstop : sameStore w w1 /\ posts w1 = posts w
                  /\ rateLimitState w1 = rateLimitState w
                  /\ (visits w <= visits w1 <= visits w + 6)%nat).
  { repeat split; try done; lia. }
  destruct r1 as [[listings|]|m]; [|exact Hstop|exact Hstop].
  destruct (Routes.filterNotIncluded l_itemId (knownListings seller) listings);
    [|exact Hstop].
  pose proof (retryOperation_bounded
                (EvVisit (s_storeName seller) (Monitor.ssnOf seller)) _ w1
                (getSellerSoldItemsInternal_visit env (s_storeName seller)
                   (Monitor.ssnOf seller)))
    as (n2 & Hn2 & Hv2 & _ & Hp2 & Hr2 & [Hf2 Hw2] & _).
  fold (Scraper.getSellerSoldItems env (s_storeName seller) (Monitor.ssnOf seller) w1)
    in Hv2, Hp2, Hr2, Hf2, Hw2.
  destruct (Scraper.getSellerSoldItems env (s_storeName seller) (Monitor.ssnOf seller) w1)
    as [r2 w2]. simpl in Hv2, Hp2, Hr2, Hf2, Hw2.
  assert (Hend : sameStore w w2 /\ posts w2 = posts w
                 /\ rateLimitState w2 = rateLimitState w
                 /\ (visits w <= visits w2 <= visits w + 6)%nat).
  { repeat split; try congruence; lia. }
  destruct r2 as [[soldData|]|m]; [|exact Hend|exact Hend].
  destruct (Routes.filterNotIncluded itemId (knownSoldItems seller)
              (Scraper.soldItems soldData)); exact Hend.
Qed.

Lemma filterNotIncluded_Some {A : Type} (idOf : A -> string) known items new :
  Routes.filterNotIncluded idOf known items = Some new ->
  (List.length new <= List.length items)%nat /\ (known = None -> items = []).
Proof.
  unfold Routes.filterNotIncluded. destruct items as [|x items].
  - intros [= <-]. by split.
  - destruct known as [k|]; [|done]. intros [= <-]. split; [|done].
    exact (List.filter_length_le
             (fun y => negb (bool_decide (idOf y ∈ k))) (x :: items)).
Qed.

(** X10. [POST /api/admin/check/:ssn] answers 200 only if every list it
    reads exists or has nothing to be compared with: for a seller without a
    known-listings list (every seller added for sold items) a 200 means the
    listings crawl returned no listing, and for a seller without a
    known-sold list (every seller added for listings) a 200 means the sold
    crawl returned no item; in all other cases the answer is 500.  In a 200
    the count of new items never exceeds the total. *)
Theorem checkSeller_answers_200_only_with_both_lists
    (ssn : string) (w w' : World) (seller : Seller) (lt ln st sn : nat)
    (Hfound : List.find (fun s => bool_decide (s_ssn s = Some ssn)
                                  || bool_decide (s_username s = Some ssn))
                (sellersFile w) = Some seller)
    (Hok : Routes.checkSeller env ssn w = (Routes.Check200 lt ln st sn, w')) :
  (knownListings seller = None -> lt = 0%nat)
  /\ (knownSoldItems seller = None -> st = 0%nat)
  /\ (ln <= lt)%nat /\ (sn <= st)%nat.
Proof.
  unfold Routes.checkSeller, SellerManager.getAllSellers, SellerManager.loadSellers in Hok.
  rewrite Hfound in Hok.
  destruct (Scraper.getSellerListings env (s_storeName seller) (Monitor.ssnOf seller) w)
    as [[[listings|]|m] w1]; try done.
  destruct (Routes.filterNotIncluded l_itemId (knownListings seller) listings)
    as [newListings|] eqn:E1; [|done].
  destruct (Scraper.getSellerSoldItems env (s_storeName seller) (Monitor.ssnOf seller) w1)
    as [[[soldData|]|m] w2]; try done.
  destruct (Routes.filterNotIncluded itemId (knownSoldItems seller)
              (Scraper.soldItems soldData)) as [newSoldItems|] eqn:E2; [|done].
  inversion Hok; subst; clear Hok.
  apply filterNotIncluded_Some in E1 as [Hle1 Hnil1].
  apply filterNotIncluded_Some in E2 as [Hle2 Hnil2].
  repeat split; try done.
  - intros Hnone. by rewrite (Hnil1 Hnone).
  - intros Hnone. by rewrite (Hnil2 Hnone).
Qed.

End RouteFacts.

(** The theorem on a seller added for sold items whose listings page is
    empty: the probe answers 200 and counts one sold item, already known. *)
Lemma checkSeller_answers_200_witness :
  let page := {| seenAt := 1762128000000;
                 elements := [Fixture.card "111" "Sold  Nov 2, 2025"] |} in
  let env := Fixture.env (fun _ => PostOk) Fixture.noListings
               (fun _ => SoldVisitLoads page NoNextControl) in
  let w := Fixture.world [Fixture.seller "sold" "alice" ["111"]] in
  fst (Routes.checkSeller env "alice" w) = Routes.Check200 0 0 1 0.
Proof.
  intros page env w.
  destruct (Routes.checkSeller env "alice" w) as [r w'] eqn:Hok.
  assert (Hr : r = Routes.Check200 0 0 1 0).
  { vm_compute in Hok. inversion Hok. reflexivity. }
  subst r.
  pose proof (checkSeller_answers_200_only_with_both_lists env "alice" w w'
                (Fixture.seller "sold" "alice" ["111"]) 0 0 1 0 eq_refl Hok)
    as (Hlt & _).
  reflexivity.
Defined.

(** ** More on the dispatcher *)

Section DispatcherMore.
Context (env : Env) (url : string).

Lemma attemptOnce_true M a w w' :
  Webhooks.attemptOnce url (Webhooks.sendFunction env url) M a w
    = (Webhooks.Return true, w') ->
  rateLimitState w' !! url = None.
Proof.
  unfold Webhooks.attemptOnce. rewrite sendFunction_frame.
  destruct (outcomeAt env url (posts (Webhooks.awaitReset url w))) as [|resp]; intros H.
  - inversion H; subst w'. apply lookup_delete_eq.
  - unfold Webhooks.onError in H. destruct resp as [r|]; [|done].
    destruct (status r =? 429); [destruct (a <? M - 1)%nat; done|].
    destruct ((a <? M - 1)%nat && (500 <=? status r)); done.
Qed.

Lemma forAttempts_true M attempts : forall w w',
  Webhooks.forAttempts url (Webhooks.sendFunction env url) M attempts w = (true, w') ->
  rateLimitState w' !! url = None.
Proof.
  induction attempts as [|a later IH]; intros w w' H; simpl in H; [done|].
  destruct (Webhooks.attemptOnce url (Webhooks.sendFunction env url) M a w)
    as [st w1] eqn:E.
  destruct st as [b|]; [|by eapply IH].
  inversion H; subst b w1. by eapply attemptOnce_true.
Qed.

(** X11. A send that returns [true] leaves no rate-limit entry for its
    webhook: the next send to it starts without waiting. *)
Theorem successful_send_clears_the_rate_limit (maxRetries : nat) (w : World) :
  let r := Webhooks.sendWithRateLimit url (Webhooks.sendFunction env url) maxRetries w in
  fst r = true ->
  rateLimitState (snd r) !! url = None
  /\ Webhooks.awaitReset url (snd r) = snd r.
Proof.
  intros r. subst r. unfold Webhooks.sendWithRateLimit.
  destruct (Webhooks.forAttempts url (Webhooks.sendFunction env url) maxRetries
              (seq 0 maxRetries) w) as [b w'] eqn:E.
  simpl. intros ->. apply forAttempts_true in E.
  split; [exact E|]. unfold Webhooks.awaitReset. by rewrite E.
Qed.

Lemma awaitReset_trace w :
  trace (Webhooks.awaitReset url w)
  = (trace w ++ match rateLimitState w !! url with
                | Some resetAt =>
                    if clock w <? resetAt then [EvSleep (resetAt - clock w)] else []
                | None => []
                end)%list.
Proof.
  unfold Webhooks.awaitReset. destruct (rateLimitState w !! url) as [ra|].
  - destruct (clock w <? ra); [done|by rewrite app_nil_r].
  - by rewrite app_nil_r.
Qed.

Lemma onError_trace M a resp w st w' :
  Webhooks.onError url M a resp w = (st, w') ->
  exists later, trace w' = (trace w ++ later)%list.
Proof.
  unfold Webhooks.onError. intros H.
  destruct resp as [r|]; [|inversion H; subst; exists []; by rewrite app_nil_r].
  destruct (status r =? 429).
  - destruct (a <? M - 1)%nat; inversion H; subst; simpl;
      [by eexists|exists []; by rewrite app_nil_r].
  - destruct ((a <? M - 1)%nat && (500 <=? status r)); inversion H; subst; simpl;
      [by eexists|exists []; by rewrite app_nil_r].
Qed.

Lemma attemptOnce_trace M a w st w' :
  Webhooks.attemptOnce url (Webhooks.sendFunction env url) M a w = (st, w') ->
  exists later,
    trace w' = (trace (Webhooks.awaitReset url w) ++ EvPost url :: later)%list.
Proof.
  unfold Webhooks.attemptOnce. rewrite sendFunction_frame.
  destruct (outcomeAt env url (posts (Webhooks.awaitReset url w))) as [|resp]; intros H.
  - inversion H; subst; clear H. simpl. by exists [].
  - apply onError_trace in H as [later H]. simpl in H.
    exists later. by rewrite H, <- app_assoc.
Qed.

Lemma forAttempts_trace M attempts : forall w b w',
  Webhooks.forAttempts url (Webhooks.sendFunction env url) M attempts w = (b, w') ->
  exists later, trace w' = (trace w ++ later)%list.
Proof.
  induction attempts as [|a rest IH]; intros w b w' H; simpl in H.
  - inversion H; subst. exists []. by rewrite app_nil_r.
  - destruct (Webhooks.attemptOnce url (Webhooks.sendFunction env url) M a w)
      as [st w1] eqn:E.
    apply attemptOnce_trace in E as [l1 E]. rewrite awaitReset_trace in E.
    destruct st as [b0|].
    + inversion H; subst. rewrite E, <- app_assoc. by eexists.
    + apply IH in H as [l2 H]. rewrite H, E, <- !app_assoc. by eexists.
Qed.

(** X12. What a send does first depends on the entry recorded for its
    webhook, which is read once before the request: with a [resetAt] later
    than the clock reading, the send first sleeps for [resetAt - now] and
    then issues its first request; with no entry, or with a [resetAt] that
    the clock has reached, its first action is the request. *)
Theorem rate_limit_entry_delays_the_next_request
    (maxRetries : nat) (w : World) (Hsome : (1 <= maxRetries)%nat) :
  let w' := snd (Webhooks.sendWithRateLimit url (Webhooks.sendFunction env url)
                   maxRetries w) in
  (forall resetAt,
     rateLimitState w !! url = Some resetAt -> clock w < resetAt ->
     exists later,
       trace w' = (trace w ++ EvSleep (resetAt - clock w) :: EvPost url :: later)%list)
  /\ (rateLimitState w !! url = None
      \/ (exists resetAt, rateLimitState w !! url = Some resetAt /\ resetAt <= clock w) ->
      exists later, trace w' = (trace w ++ EvPost url :: later)%list).
Proof.
  intros w'.
  assert (Hfirst : exists later,
            trace w' = (trace (Webhooks.awaitReset url w) ++ EvPost url :: later)%list).
  { subst w'. unfold Webhooks.sendWithRateLimit.
    destruct maxRetries as [|M]; [lia|]. simpl.
    destruct (Webhooks.attemptOnce url (Webhooks.sendFunction env url) (S M) 0 w)
      as [st w1] eqn:E.
    apply attemptOnce_trace in E as [l1 E].
    destruct st as [b|]; simpl; [by exists l1|].
    destruct (Webhooks.forAttempts url (Webhooks.sendFunction env url) (S M) (seq 1 M) w1)
      as [b w2] eqn:E2.
    apply forAttempts_trace in E2 as [l2 E2]. simpl.
    rewrite E2, E, <- app_assoc. by eexists. }
  destruct Hfirst as [later Hfirst]. rewrite awaitReset_trace in Hfirst.
  split.
  - intros resetAt Hentry Hlt. rewrite Hentry in Hfirst.
    apply Z.ltb_lt in Hlt. rewrite Hlt in Hfirst.
    exists later. by rewrite Hfirst, <- app_assoc.
  - intros [Hnone|(resetAt & Hentry & Hle)].
    + rewrite Hnone, app_nil_r in Hfirst. by exists later.
    + rewrite Hentry in Hfirst. apply Z.ltb_ge in Hle. rewrite Hle in Hfirst.
      rewrite app_nil_r in Hfirst. by exists later.
Qed.

Lemma attemptOnce_server_error a w r :
  rateLimitState w !! url = None ->
  outcomeAt env url (posts w) = PostError (Some r) ->
  500 <= status r ->
  exists w1,
    Webhooks.attemptOnce url (Webhooks.sendFunction env url) 5 a w
      = (if (a <? 4)%nat then Webhooks.Continue else Webhooks.Return false, w1)
    /\ posts w1 = S (posts w)
    /\ rateLimitState w1 = rateLimitState w
    /\ trace w1 = (trace w ++ EvPost url ::
                     (if (a <? 4)%nat then [EvSleep (Webhooks.serverErrorWait a)] else []))%list.
Proof.
  intros Hfree Hout H5.
  unfold Webhooks.attemptOnce, Webhooks.awaitReset. rewrite Hfree, sendFunction_frame, Hout.
  unfold Webhooks.onError.
  replace (status r =? 429) with false by (symmetry; apply Z.eqb_neq; lia).
  replace (500 <=? status r) with true by (symmetry; apply Z.leb_le; lia).
  change (5 - 1)%nat with 4%nat.
  destruct (a <? 4)%nat; simpl; eexists; (split; [reflexivity|]); simpl;
    repeat split; by rewrite <- ?app_assoc.
Qed.

(** X14. When every request is answered with a server error (status 500
    and above) and the webhook is not rate limited, a send makes its five
    requests with sleeps of 1, 2, 4 and 8 seconds between them, returns
    [false], and records no rate limit. *)
Theorem server_errors_use_up_the_five_attempts (w : World)
    (Hfree : rateLimitState w !! url = None)
    (Herr : forall k, (k < 5)%nat ->
              exists r, outcomeAt env url (posts w + k) = PostError (Some r)
                        /\ 500 <= status r) :
  let r := Webhooks.sendWithRateLimit url (Webhooks.sendFunction env url) 5 w in
  fst r = false
  /\ posts (snd r) = (posts w + 5)%nat
  /\ rateLimitState (snd r) = rateLimitState w
  /\ trace (snd r)
     = (trace w ++ [EvPost url; EvSleep 1000; EvPost url; EvSleep 2000; EvPost url;
                    EvSleep 4000; EvPost url; EvSleep 8000; EvPost url])%list.
Proof.
  unfold Webhooks.sendWithRateLimit. simpl seq. simpl.
  destruct (Herr 0%nat ltac:(lia)) as (r0 & Ho0 & Hs0).
  replace (posts w + 0)%nat with (posts w) in Ho0 by lia.
  destruct (attemptOnce_server_error 0 w r0 Hfree Ho0 Hs0) as (w1 & E1 & P1 & R1 & T1).
  rewrite E1. simpl.
  destruct (Herr 1%nat ltac:(lia)) as (r1 & Ho1 & Hs1).
  replace (posts w + 1)%nat with (posts w1) in Ho1 by lia.
  destruct (attemptOnce_server_error 1 w1 r1 ltac:(by rewrite R1) Ho1 Hs1)
    as (w2 & E2 & P2 & R2 & T2).
  rewrite E2. simpl.
  destruct (Herr 2%nat ltac:(lia)) as (r2 & Ho2 & Hs2).
  replace (posts w + 2)%nat with (posts w2) in Ho2 by lia.
  destruct (attemptOnce_server_error 2 w2 r2 ltac:(by rewrite R2, R1) Ho2 Hs2)
    as (w3 & E3 & P3 & R3 & T3).
  rewrite E3. simpl.
  destruct (Herr 3%nat ltac:(lia)) as (r3 & Ho3 & Hs3).
  replace (posts w + 3)%nat with (posts w3) in Ho3 by lia.
  destruct (attemptOnce_server_error 3 w3 r3 ltac:(by rewrite R3, R2, R1) Ho3 Hs3)
    as (w4 & E4 & P4 & R4 & T4).
  rewrite E4. simpl.
  destruct (Herr 4%nat ltac:(lia)) as (r4 & Ho4 & Hs4).
  replace (posts w + 4)%nat with (posts w4) in Ho4 by lia.
  destruct (attemptOnce_server_error 4 w4 r4 ltac:(by rewrite R4, R3, R2, R1) Ho4 Hs4)
    as (w5 & E5 & P5 & R5 & T5).
  rewrite E5. simpl.
  split; [done|]. split; [lia|]. split; [congruence|].
  rewrite T5, T4, T3, T2, T1. simpl. rewrite <- !app_assoc. reflexivity.
Qed.

End DispatcherMore.

(** X15. Without a directive the waits stay within their caps for every
    attempt number: between 1 and 10 seconds after a server error, between
    1 and 30 seconds after a rate limit, and never shorter on a later
    attempt. *)
Theorem backoff_waits_are_capped (attempt : nat) (r : ErrorResponse) :
  1000 <= Webhooks.serverErrorWait attempt <= 10000
  /\ Webhooks.serverErrorWait attempt <= Webhooks.serverErrorWait (S attempt)
  /\ (retryAfterHeader r = None ->
      retryAfterBody r = None \/ retryAfterBody r = Some 0 ->
      1000 <= Webhooks.rateLimitWait attempt r <= 30000
      /\ Webhooks.rateLimitWait attempt r <= Webhooks.rateLimitWait (S attempt) r).
Proof.
  assert (Hpow : 1 <= 2 ^ Z.of_nat attempt).
  { pose proof (Z.pow_pos_nonneg 2 (Z.of_nat attempt)). lia. }
  assert (Hmono : 2 ^ Z.of_nat attempt <= 2 ^ Z.of_nat (S attempt)).
  { apply Z.pow_le_mono_r; lia. }
  unfold Webhooks.serverErrorWait. split; [lia|]. split; [lia|].
  intros Hh Hb. unfold Webhooks.rateLimitWait. rewrite Hh.
  destruct Hb as [-> | ->]; simpl; lia.
Qed.

(** ** More on the crawler *)

Lemma forRetries_bounded {A : Type} v (fn : World -> Result A * World) M d :
  visitLike v fn ->
  forall m a w, (a + m = S M)%nat -> (1 <= a)%nat ->
  let r := Scraper.forRetries fn M d (seq a m) w in
  exists n : nat,
    (n <= m)%nat
    /\ visits (snd r) = (visits w + n)%nat
    /\ (fst r = Ok None -> m = 0%nat)
    /\ (m = 0%nat -> r = (Ok None, w))
    /\ (forall msg, fst r = Threw msg -> n = m).
Proof.
  intros Hfn. induction m as [|m IH]; intros a w Ha H1; simpl.
  - exists 0%nat. repeat split; try done; lia.
  - pose proof (Hfn w) as (Hv & _).
    destruct (fn w) as [[x|msg] w1]; simpl in Hv.
    + exists 1%nat. simpl. repeat split; try done; lia.
    + destruct (a =? M)%nat eqn:E.
      * apply Nat.eqb_eq in E. exists 1%nat. simpl.
        repeat split; try done; lia.
      * apply Nat.eqb_neq in E.
        destruct (IH (S a) (sleep d w1) ltac:(lia) ltac:(lia))
          as (n & Hn & Hvis & Hnone & Hzero & Hthrow).
        exists (S n). simpl in Hvis.
        split; [lia|]. split; [lia|]. split; [|split; [done|]].
        -- intros Hu. specialize (Hnone Hu). lia.
        -- intros msg' Hm. specialize (Hthrow msg' Hm). lia.
Qed.

(** The loop over the attempts [a, ..., maxRetries]: it ends at the first
    call that returns, with that call's result and world, or at the failure
    of attempt [maxRetries]. *)
Lemma forRetries_outcome {A : Type} (fn : World -> Result A * World) M d :
  forall m a w, (a + m = S M)%nat ->
  let r := Scraper.forRetries fn M d (seq a m) w in
  (m = 0%nat /\ r = (Ok None, w))
  \/ (exists k w1 x,
        (k < m)%nat /\ failedCalls fn d k w w1
        /\ fn w1 = (Ok x, snd r) /\ fst r = Ok (Some x))
  \/ (exists k w1 msg,
        m = S k /\ failedCalls fn d k w w1
        /\ fn w1 = (Threw msg, snd r) /\ fst r = Threw msg).
Proof.
  induction m as [|m IH]; intros a w Ha; simpl; [by left|].
  destruct (fn w) as [[x|msg] w1] eqn:Efn.
  - right. left. exists 0%nat, w, x. simpl.
    split; [lia|]. split; [constructor|]. by split.
  - destruct (a =? M)%nat eqn:E.
    + apply Nat.eqb_eq in E. right. right. exists 0%nat, w, msg. simpl.
      split; [f_equal; lia|]. split; [constructor|]. by split.
    + apply Nat.eqb_neq in E.
      destruct (IH (S a) (sleep d w1) ltac:(lia))
        as [[Hm _]|[(k & w2 & x & Hk & Hf & Hcall & Hres)
                   |(k & w2 & msg' & Hk & Hf & Hcall & Hres)]].
      * lia.
      * right. left. exists (S k), w2, x.
        split; [lia|]. split; [by econstructor|]. by split.
      * right. right. exists (S k), w2, msg'.
        split; [lia|]. split; [by econstructor|]. by split.
Qed.

(** X16. [retryOperation] returns the result of the first call of its
    function that returns, in the world that call left, and calls it no
    more; before that call every call threw and was followed by the delay.
    It throws only when [maxRetries] calls in a row have thrown, with the
    error of the last one and no delay after it.  It returns [undefined]
    only when [maxRetries] is 0, without a call.  So a function that counts
    as one visit is called at most [maxRetries] times. *)
Theorem retryOperation_is_bounded_by_maxRetries
    {A : Type} (fn : World -> Result A * World)
    (maxRetries : nat) (delayMs : Z) (w : World) :
  let r := Scraper.retryOperation fn maxRetries delayMs w in
  ((maxRetries = 0%nat /\ r = (Ok None, w))
   \/ (exists k w1 a,
         (k < maxRetries)%nat /\ failedCalls fn delayMs k w w1
         /\ fn w1 = (Ok a, snd r) /\ fst r = Ok (Some a))
   \/ (exists k w1 message,
         maxRetries = S k /\ failedCalls fn delayMs k w w1
         /\ fn w1 = (Threw message, snd r) /\ fst r = Threw message))
  /\ (forall v, visitLike v fn ->
      exists n : nat, (n <= maxRetries)%nat /\ visits (snd r) = (visits w + n)%nat).
Proof.
  intros r. subst r. unfold Scraper.retryOperation. split.
  - apply (forRetries_outcome fn maxRetries delayMs maxRetries 1 w). lia.
  - intros v Hfn.
    destruct (forRetries_bounded v fn maxRetries delayMs Hfn maxRetries 1 w
                ltac:(lia) ltac:(lia)) as (n & Hn & Hv & _).
    by exists n.
Qed.

Lemma span_digits d rest :
  forallb Js.isDigit (list_ascii_of_string d) = true ->
  (rest = "" \/ exists c r, rest = String c r /\ Js.isDigit c = false) ->
  Js.span Js.isDigit (d ++ rest) = (d, rest).
Proof.
  intros Hd Hrest. induction d as [|c d IH]; simpl in *.
  - destruct Hrest as [-> | (c & r & -> & Hc)]; simpl; [done|]. by rewrite Hc.
  - apply andb_prop in Hd as [Hc Hd]. rewrite Hc, (IH Hd). done.
Qed.

Lemma matchItm_unfold s :
  Scraper.matchItm s
  = match (if Js.startsWith "/itm/" s then
             let '(digits, _) := Js.span Js.isDigit (Scraper.skip 5 s) in
             if Js.truthy digits then Some digits else None
           else None) with
    | Some d => Some d
    | None => match s with
              | EmptyString => None
              | String _ s' => Scraper.matchItm s'
              end
    end.
Proof. by destruct s. Qed.

Lemma matchItm_truthy s id : Scraper.matchItm s = Some id -> Js.truthy id = true.
Proof.
  induction s as [|c s IH]; rewrite matchItm_unfold.
  - by destruct (Js.startsWith "/itm/" "").
  - destruct (Js.startsWith "/itm/" (String c s)); [|exact IH].
    destruct (Js.span Js.isDigit (Scraper.skip 5 (String c s))) as [digits tl].
    destruct (Js.truthy digits) eqn:E; [|exact IH].
    intros H. inversion H; subst. exact E.
Qed.

(** X17. [extractItemId] reads the item number off a canonical item
    link: for a non-empty run of digits followed by nothing or by a
    character that is no digit, the id of
    [https://www.ebay.com/itm/<digits><rest>] is the run of digits, without
    consulting the URL parser; and an id it returns is never empty. *)
Theorem extractItemId_reads_the_item_number
    (env : Env) (d rest : string)
    (Hsome : Js.truthy d = true)
    (Hdigits : forallb Js.isDigit (list_ascii_of_string d) = true)
    (Hrest : rest = "" \/ exists c r, rest = String c r /\ Js.isDigit c = false) :
  Scraper.extractItemId env ("https://www.ebay.com/itm/" ++ d ++ rest) = Some d
  /\ Scraper.extractItemId env ("/itm/" ++ d ++ rest) = Some d
  /\ forall url id, Scraper.extractItemId env url = Some id -> Js.truthy id = true.
Proof.
  assert (Hrel : Scraper.matchItm ("/itm/" ++ d ++ rest) = Some d).
  { change ("/itm/" ++ d ++ rest)%string
      with (String "/" (String "i" (String "t" (String "m" (String "/" (d ++ rest)))))).
    unfold Scraper.matchItm at 1.
    change (Js.startsWith "/itm/"
              (String "/" (String "i" (String "t" (String "m" (String "/" (d ++ rest)))))))
      with true.
    change (Scraper.skip 5
              (String "/" (String "i" (String "t" (String "m" (String "/" (d ++ rest)))))))
      with (d ++ rest)%string.
    cbv iota. rewrite (span_digits d rest Hdigits Hrest), Hsome. done. }
  split; [|split].
  - unfold Scraper.extractItemId.
    change (Js.truthy ("https://www.ebay.com/itm/" ++ d ++ rest)) with true.
    cbv iota. simpl negb. cbv iota.
    assert (Habs : Scraper.matchItm ("https://www.ebay.com/itm/" ++ d ++ rest) = Some d).
    { change ("https://www.ebay.com/itm/" ++ d ++ rest)%string
        with ("https://www.ebay.com" ++ ("/itm/" ++ d ++ rest))%string.
      generalize dependent ("/itm/" ++ d ++ rest)%string. intros tl Htl.
      cbn -[Scraper.matchItm Js.startsWith].
      repeat (match goal with
              | |- Scraper.matchItm (String ?c ?s) = _ =>
                  let H := fresh in
                  assert (H : Scraper.matchItm (String c s) = Scraper.matchItm s)
                    by (unfold Scraper.matchItm at 1; fold Scraper.matchItm;
                        cbn [Js.startsWith Ascii.eqb Bool.eqb]; reflexivity);
                  rewrite H; clear H
              end).
      exact Htl. }
    by rewrite Habs.
  - unfold Scraper.extractItemId.
    change (Js.truthy ("/itm/" ++ d ++ rest)) with true. simpl negb. cbv iota.
    by rewrite Hrel.
  - intros url id. unfold Scraper.extractItemId.
    destruct (negb (Js.truthy url)); [done|].
    destruct (Scraper.matchItm url) as [m|] eqn:Hm.
    + intros [= <-]. by eapply matchItm_truthy.
    + destruct (UrlSearchParams env _) as [get|]; [|done].
      destruct (Js.truthyOpt (Js.orElse (get "_id") (Js.orElse (get "item") (get "itm"))))
        eqn:Ht; [|done].
      intros Hid. rewrite Hid in Ht. exact Ht.
Qed.

Lemma beforeFirst_has_no_separator s :
  Js.includes "?" (Js.beforeFirst "?" s) = false.
Proof.
  induction s as [|c s IH]; [done|].
  simpl Js.beforeFirst. destruct (Ascii.eqb c "?") eqn:E; [done|].
  change (Js.includes "?" (String c (Js.beforeFirst "?" s)))
    with (Js.startsWith "?" (String c (Js.beforeFirst "?" s))
          || Js.includes "?" (Js.beforeFirst "?" s)).
  rewrite IH, orb_false_r.
  change (Js.startsWith "?" (String c (Js.beforeFirst "?" s)))
    with (if Ascii.eqb "?" c then Js.startsWith "" (Js.beforeFirst "?" s) else false).
  by rewrite Ascii.eqb_sym, E.
Qed.

Lemma startsWith_app p : forall s,
  Js.startsWith p s = true -> exists r, s = (p ++ r)%string.
Proof.
  induction p as [|a p IH]; intros s H.
  - by exists s.
  - destruct s as [|b s]; [done|].
    change (Js.startsWith (String a p) (String b s))
      with (if Ascii.eqb a b then Js.startsWith p s else false) in H.
    destruct (Ascii.eqb a b) eqn:E; [|done].
    apply Ascii.eqb_eq in E as ->. destruct (IH s H) as [r ->]. by exists r.
Qed.

Lemma beforeFirst_keeps_http s :
  Js.startsWith "http" s = true -> Js.startsWith "http" (Js.beforeFirst "?" s) = true.
Proof. intros H. apply startsWith_app in H as [r ->]. reflexivity. Qed.

Lemma absolute_link l :
  Js.startsWith "http"
    (if Js.startsWith "http" l then l else ("https://www.ebay.com" ++ l)%string) = true.
Proof. by destruct (Js.startsWith "http" l) eqn:E. Qed.

Section ItemFacts.
Context (env : Env) (store : string) (ssn : option string).

Lemma pageItemOf_wellformed e it :
  Scraper.pageItemOf env store ssn e = Some it ->
  Js.truthy (title it) = true /\ Js.truthy (itemId it) = true
  /\ Js.startsWith "http" (link it) = true.
Proof.
  unfold Scraper.pageItemOf.
  destruct (negb (Js.truthy (positiveText e)) || negb (Js.includes "Sold" (positiveText e)));
    [done|].
  destruct (Js.orElse (hrefCardLink e) _) as [l|]; [|done].
  destruct (Js.truthy l); [|done].
  destruct (Scraper.extractItemId env _) as [id|]; [|done].
  destruct (Js.truthy _) eqn:Ht; [|done]. simpl.
  destruct (Js.truthy id) eqn:Hid; [|done]. simpl.
  destruct (_ || _); [|done].
  intros [= <-]. simpl. split; [done|]. split; [done|]. apply absolute_link.
Qed.

Lemma crawlPolicy_elem : forall more p x,
  x ∈ crawlPolicy env store ssn p more ->
  exists q it,
    q ∈ sitePages p more
    /\ it ∈ Scraper.pageItemsOf env store ssn q
    /\ inWindow env (seenAt q) it = true
    /\ x = cleaned store ssn it.
Proof.
  assert (Hkept : forall p more x, x ∈ keptOf env store ssn p ->
            exists q it, q ∈ sitePages p more
                         /\ it ∈ Scraper.pageItemsOf env store ssn q
                         /\ inWindow env (seenAt q) it = true
                         /\ x = cleaned store ssn it).
  { intros p more x Hx. unfold keptOf in Hx.
    apply list_elem_of_fmap in Hx as (it & -> & Hit).
    apply list_elem_of_In, filter_In in Hit as [Hin Hw].
    exists p, it. split; [destruct more; apply list_elem_of_here|].
    split; [by apply list_elem_of_In|]. by split. }
  induction more as [| |p' more IH]; intros p x Hx; simpl in Hx.
  - apply elem_of_app in Hx as [Hx|Hx]; [by apply Hkept|].
    destruct (lastInWindow env _ _); by apply not_elem_of_nil in Hx.
  - apply elem_of_app in Hx as [Hx|Hx]; [by apply Hkept|].
    destruct (lastInWindow env _ _); by apply not_elem_of_nil in Hx.
  - apply elem_of_app in Hx as [Hx|Hx]; [by apply Hkept|].
    destruct (lastInWindow env _ _); [|by apply not_elem_of_nil in Hx].
    destruct (IH p' x Hx) as (q & it & Hq & Hrest).
    exists q, it. split; [|exact Hrest].
    simpl. by apply list_elem_of_further.
Qed.

(** X18. Every sold item a visit returns was read off an element of one
    of the site's pages and classified, at the clock reading of that very
    page, as sold within two days.  It has a non-empty id and title, an
    absolute link without query string (the element's link cut at the first
    question mark), the element's sold-date text, which contains "Sold",
    and the handle and store the visit was made for. *)
Theorem sold_items_returned_are_wellformed_and_recent
    (w : World) (first : Page) (more : Site)
    (Hvisit : snd (soldVisit env (visits w) store ssn) = SoldVisitLoads first more) :
  exists soldData,
    fst (Scraper.getSellerSoldItemsInternal env store ssn w) = Ok soldData
    /\ forall x, x ∈ Scraper.soldItems soldData ->
         Js.truthy (itemId x) = true /\ Js.truthy (title x) = true
         /\ Js.startsWith "http" (link x) = true
         /\ Js.includes "?" (link x) = false
         /\ Js.includes "Sold" (soldDate x) = true
         /\ sellerUsername x = ssn /\ storeName x = store
         /\ exists page e it,
              page ∈ sitePages first more
              /\ e ∈ elements page
              /\ Scraper.pageItemOf env store ssn e = Some it
              /\ itemId x = itemId it /\ title x = title it
              /\ link x = Js.beforeFirst "?" (link it)
              /\ soldDate x = positiveText e
              /\ Scraper.soldWithinTwoDays env (seenAt page) (soldDate x) = true.
Proof.
  unfold Scraper.getSellerSoldItemsInternal.
  destruct (soldVisit env (visits w) store ssn) as [took visit].
  simpl in Hvisit. subst visit. eexists. split; [reflexivity|]. simpl.
  destruct (whileLoop_spec env store ssn (S (Scraper.pagesAhead more))
              (Scraper.startState first more)) as [Hcol _]; [done|done|simpl; lia|].
  unfold Scraper.paginate. rewrite Hcol. simpl.
  intros x Hx. apply crawlPolicy_elem in Hx as (q & it & Hq & Hit & Hwin & ->).
  unfold Scraper.pageItemsOf in Hit.
  apply list_elem_of_omap in Hit as (e & Hin & He).
  destruct (pageItemOf_wellformed e it He) as (Ht & Hid & Hl).
  destruct (pageItemOf_sold_text env store ssn e it He) as (Hsd & _ & Hinc).
  simpl. split; [done|]. split; [done|].
  split; [by apply beforeFirst_keeps_http|].
  split; [apply beforeFirst_has_no_separator|].
  split; [by rewrite Hsd|]. split; [done|]. split; [done|].
  exists q, e, it. by repeat (split; [done|]).
Qed.

Lemma whileLoop_pages : forall fuel st,
  let fin := Scraper.whileLoop env store ssn fuel st in
  (Scraper.pageNum st <= Scraper.pageNum fin)%nat
  /\ (Scraper.pageNum fin + Scraper.pagesAhead (Scraper.ahead fin)
      <= Scraper.pageNum st + Scraper.pagesAhead (Scraper.ahead st))%nat
  /\ (Scraper.nextLookups fin + Scraper.pageNum st
      <= Scraper.nextLookups st + Scraper.pageNum fin + 1)%nat
  /\ (Scraper.nextLookups st <= Scraper.nextLookups fin)%nat.
Proof.
  induction fuel as [|fuel IH]; intros st; simpl.
  - destruct (Scraper.hasMorePages st && Scraper.shouldContinuePagination st); lia.
  - destruct (Scraper.hasMorePages st) eqn:Hm; simpl; [|lia].
    destruct (Scraper.shouldContinuePagination st) eqn:Hc; simpl; [|lia].
    rewrite (loopBody_spec env store ssn st Hc).
    destruct (lastInWindow env _ _).
    + destruct (Scraper.ahead st) as [| |p more] eqn:Ea.
      * rewrite whileLoop_exited by done. simpl. rewrite ?Ea. simpl. lia.
      * rewrite whileLoop_exited by done. simpl. rewrite ?Ea. simpl. lia.
      * match goal with |- context [Scraper.whileLoop _ _ _ fuel ?s] =>
          specialize (IH s) end.
        simpl in IH. rewrite ?Ea in *. simpl. lia.
    + rewrite whileLoop_exited by (simpl; by rewrite Hm). simpl. lia.
Qed.

(** X19. The pagination of a visit is bounded by the site: it sees at
    least the first page and at most one page more than the site has
    further pages, and it looks up the next-page control at most once per
    page seen. *)
Theorem pagination_is_bounded_by_the_site (first : Page) (more : Site) :
  let fin := Scraper.paginate env store ssn first more in
  (1 <= Scraper.pageNum fin <= S (Scraper.pagesAhead more))%nat
  /\ (Scraper.nextLookups fin <= Scraper.pageNum fin)%nat.
Proof.
  pose proof (whileLoop_pages (S (Scraper.pagesAhead more))
                (Scraper.startState first more)) as H.
  unfold Scraper.paginate. cbv zeta in H |- *.
  change (Scraper.pageNum (Scraper.startState first more)) with 1%nat in H.
  change (Scraper.nextLookups (Scraper.startState first more)) with 0%nat in H.
  change (Scraper.ahead (Scraper.startState first more)) with more in H.
  lia.
Qed.

(** X20. Listing extraction: a card without the new-listing badge yields
    nothing; every listing extracted has a non-empty title and id, an
    absolute link without query string and the seller's handle and store;
    and its listed date, when present, is the first attribute text of the
    card that looks like a date. *)
Theorem listings_extracted_are_wellformed (e : Listings.Card) :
  (Listings.hasNewListingBadge e = false -> Listings.listingOf env store ssn e = None)
  /\ (forall l, Listings.listingOf env store ssn e = Some l ->
        Listings.hasNewListingBadge e = true
        /\ Js.truthy (l_title l) = true /\ Js.truthy (l_itemId l) = true
        /\ Js.startsWith "http" (l_link l) = true
        /\ Js.includes "?" (l_link l) = false
        /\ l_sellerUsername l = ssn /\ l_storeName l = store
        /\ l_listedDate l = List.find Listings.looksLikeDate (Listings.attributeRows e)
        /\ (forall d, l_listedDate l = Some d ->
              Listings.looksLikeDate d = true /\ d ∈ Listings.attributeRows e)).
Proof.
  unfold Listings.listingOf. split.
  - by intros ->.
  - intros l. destruct (Listings.hasNewListingBadge e); simpl; [|done].
    destruct (Js.orElse (Listings.c_hrefCardLink e) _) as [lk|]; [|done].
    destruct (Js.truthy lk); [|done].
    destruct (Scraper.extractItemId env _) as [id|]; [|done].
    destruct (Js.truthy _) eqn:Ht; [|done]. simpl.
    destruct (Js.truthy id) eqn:Hid; [|done].
    intros [= <-]. simpl.
    split; [done|]. split; [done|]. split; [done|].
    split; [apply beforeFirst_keeps_http, absolute_link|].
    split; [apply beforeFirst_has_no_separator|].
    split; [done|]. split; [done|]. split; [done|].
    intros d Hd. unfold Listings.listedDateOf in Hd.
    apply find_some in Hd as [Hin Hlook]. split; [done|]. by apply list_elem_of_In.
Qed.

End ItemFacts.

(** ** The cycle as a whole *)

Section WholeCycle.
Context (env : Env).

Lemma updateSeller_effect ssn u type w :
  let w' := snd (SellerManager.updateSeller env ssn u type w) in
  visits w' = visits w
  /\ (writes w <= writes w' <= writes w + 1)%nat
  /\ (sellersFile w' = sellersFile w
      \/ exists i s0,
           SellerManager.findIndex (SellerManager.isSeller ssn type) (sellersFile w) = Some i
           /\ sellersFile w !! i = Some s0
           /\ sellersFile w' = <[i := SellerManager.merge s0 u]> (sellersFile w)).
Proof.
  unfold SellerManager.updateSeller, SellerManager.loadSellers.
  destruct (SellerManager.findIndex _ (sellersFile w)) as [i|] eqn:Hi;
    [|simpl; split; [done|]; split; [lia|by left]].
  destruct (findIndex_Some _ _ _ Hi) as (s0 & Hs0 & _). rewrite Hs0.
  unfold SellerManager.saveSellers.
  destruct (fsWriteFile env (writes w)); simpl.
  - split; [done|]. split; [lia|]. right. by exists i, s0.
  - split; [done|]. split; [lia|]. by left.
Qed.

Lemma checkListingSeller_effect s w :
  s_type s = "listings" ->
  let w' := Monitor.checkListingSeller env s w in
  (visits w <= visits w' <= visits w + 3)%nat
  /\ (writes w <= writes w' <= writes w + 1)%nat
  /\ (sellersFile w' = sellersFile w
      \/ exists i s0 u,
           SellerManager.findIndex
             (SellerManager.isSeller (Monitor.ssnOf s) (s_type s)) (sellersFile w) = Some i
           /\ sellersFile w !! i = Some s0
           /\ sellersFile w' = <[i := SellerManager.merge s0 u]> (sellersFile w)
           /\ updateFor s u).
Proof.
  intros Hty. rewrite Hty. unfold Monitor.checkListingSeller.
  pose proof (retryOperation_bounded (EvVisit (s_storeName s) (Monitor.ssnOf s))
                _ w (getSellerListingsInternal_visit env (s_storeName s) (Monitor.ssnOf s)))
    as (n & Hn & Hv & _ & _ & _ & [Hf1 Hw1] & _).
  fold (Scraper.getSellerListings env (s_storeName s) (Monitor.ssnOf s) w) in Hv, Hf1, Hw1.
  destruct (Scraper.getSellerListings env (s_storeName s) (Monitor.ssnOf s) w)
    as [r w1]. simpl in Hv, Hf1, Hw1.
  destruct r as [[listings|]|msg]; simpl;
    [|split; [lia|]; split; [lia|by left]|split; [lia|]; split; [lia|by left]].
  destruct (0 <? List.length _)%nat; simpl;
    [|split; [lia|]; split; [lia|by left]].
  set (newListings := Monitor.newItemsOf l_itemId (knownListings s) listings).
  destruct (notifyListings_frame env newListings w1) as [Hv2 [Hf2 Hw2]].
  set (wn := Monitor.notifyListings env newListings w1) in *.
  set (u := {| SellerManager.u_knownListings :=
                 Some (Monitor.updatedKnownOf l_itemId (knownListings s) newListings);
               SellerManager.u_lastCheckedListings := Some (clock wn);
               SellerManager.u_knownSoldItems := None;
               SellerManager.u_lastCheckedSold := None |}).
  destruct (updateSeller_effect (Monitor.ssnOf s) u "listings" wn) as (Hv3 & Hw3 & Hf3).
  split; [lia|]. split; [lia|].
  destruct Hf3 as [Hsame|(i & s0 & Hi & Hs0 & Hfile)].
  - left. congruence.
  - right. exists i, s0, u. rewrite Hf2, Hf1 in Hi, Hs0, Hfile.
    split; [done|]. split; [done|]. split; [done|].
    left. split; [done|]. split; [done|]. split; [done|].
    by exists (map l_itemId newListings), (clock wn).
Qed.

Lemma checkSoldSeller_effect s w :
  s_type s = "sold" ->
  let w' := Monitor.checkSoldSeller env s w in
  (visits w <= visits w' <= visits w + 3)%nat
  /\ (writes w <= writes w' <= writes w + 1)%nat
  /\ (sellersFile w' = sellersFile w
      \/ exists i s0 u,
           SellerManager.findIndex
             (SellerManager.isSeller (Monitor.ssnOf s) (s_type s)) (sellersFile w) = Some i
           /\ sellersFile w !! i = Some s0
           /\ sellersFile w' = <[i := SellerManager.merge s0 u]> (sellersFile w)
           /\ updateFor s u).
Proof.
  intros Hty. rewrite Hty. unfold Monitor.checkSoldSeller.
  pose proof (retryOperation_bounded (EvVisit (s_storeName s) (Monitor.ssnOf s))
                _ w (getSellerSoldItemsInternal_visit env (s_storeName s) (Monitor.ssnOf s)))
    as (n & Hn & Hv & _ & _ & _ & [Hf1 Hw1] & _).
  fold (Scraper.getSellerSoldItems env (s_storeName s) (Monitor.ssnOf s) w) in Hv, Hf1, Hw1.
  destruct (Scraper.getSellerSoldItems env (s_storeName s) (Monitor.ssnOf s) w)
    as [r w1]. simpl in Hv, Hf1, Hw1.
  destruct r as [[soldData|]|msg]; simpl;
    [|split; [lia|]; split; [lia|by left]|split; [lia|]; split; [lia|by left]].
  destruct (0 <? List.length _)%nat; simpl;
    [|split; [lia|]; split; [lia|by left]].
  set (newSoldItems :=
         Monitor.newItemsOf itemId (knownSoldItems s) (Scraper.soldItems soldData)).
  destruct (notifySold_frame env (Monitor.ssnOf s) newSoldItems w1) as [Hv2 [Hf2 Hw2]].
  set (wn := Monitor.notifySold env (Monitor.ssnOf s) newSoldItems w1) in *.
  set (u := {| SellerManager.u_knownListings := None;
               SellerManager.u_lastCheckedListings := None;
               SellerManager.u_knownSoldItems :=
                 Some (Monitor.updatedKnownOf itemId (knownSoldItems s) newSoldItems);
               SellerManager.u_lastCheckedSold := Some (clock wn) |}).
  destruct (updateSeller_effect (Monitor.ssnOf s) u "sold" wn) as (Hv3 & Hw3 & Hf3).
  split; [lia|]. split; [lia|].
  destruct Hf3 as [Hsame|(i & s0 & Hi & Hs0 & Hfile)].
  - left. congruence.
  - right. exists i, s0, u. rewrite Hf2, Hf1 in Hi, Hs0, Hfile.
    split; [done|]. split; [done|]. split; [done|].
    right. split; [done|]. split; [done|]. split; [done|].
    by exists (map itemId newSoldItems), (clock wn).
Qed.

(** The effect of one turn, whatever the seller's type. *)
Lemma turn_effect s w :
  s_type s = "listings" \/ s_type s = "sold" ->
  let w' := turn env s w in
  (visits w <= visits w' <= visits w + 3)%nat
  /\ (writes w <= writes w' <= writes w + 1)%nat
  /\ (sellersFile w' = sellersFile w
      \/ exists i s0 u,
           SellerManager.findIndex
             (SellerManager.isSeller (Monitor.ssnOf s) (s_type s)) (sellersFile w) = Some i
           /\ sellersFile w !! i = Some s0
           /\ sellersFile w' = <[i := SellerManager.merge s0 u]> (sellersFile w)
           /\ updateFor s u).
Proof.
  intros [Hty|Hty]; unfold turn.
  - rewrite (bool_decide_eq_true_2 _ Hty). by apply checkListingSeller_effect.
  - rewrite bool_decide_eq_false_2 by (rewrite Hty; done).
    by apply checkSoldSeller_effect.
Qed.

Lemma forListingSellers_turns l : forall w,
  (forall s, s ∈ l -> s_type s = "listings") ->
  Monitor.forListingSellers env l w = foldl (fun w s => turn env s w) w l.
Proof.
  unfold Monitor.forListingSellers.
  induction l as [|s l IH]; intros w H; [done|]. simpl.
  rewrite IH by (intros x Hx; apply H; by apply list_elem_of_further).
  assert (Ht : turn env s w = Monitor.checkListingSeller env s w).
  { unfold turn. rewrite bool_decide_eq_true_2; [done|]. apply H, list_elem_of_here. }
  by rewrite Ht.
Qed.

Lemma forSoldSellers_turns l : forall w,
  (forall s, s ∈ l -> s_type s = "sold") ->
  Monitor.forSoldSellers env l w = foldl (fun w s => turn env s w) w l.
Proof.
  unfold Monitor.forSoldSellers.
  induction l as [|s l IH]; intros w H; [done|]. simpl.
  rewrite IH by (intros x Hx; apply H; by apply list_elem_of_further).
  assert (Ht : turn env s w = Monitor.checkSoldSeller env s w).
  { unfold turn. rewrite bool_decide_eq_false_2; [done|].
    rewrite (H s (list_elem_of_here _ _)). done. }
  by rewrite Ht.
Qed.

Lemma filter_type_elem t file s :
  s ∈ List.filter (fun s => bool_decide (s_type s = t)) file -> s ∈ file /\ s_type s = t.
Proof.
  intros H. apply list_elem_of_In, filter_In in H as [Hin Ht].
  split; [by apply list_elem_of_In|]. by apply bool_decide_eq_true in Ht.
Qed.

(** A cycle is the sequence of the turns of [cycleTodo]. *)
Lemma monitorSellers_turns w :
  Monitor.monitorSellers env true w
  = foldl (fun w s => turn env s w) w (cycleTodo env (sellersFile w)).
Proof.
  unfold Monitor.monitorSellers, cycleTodo, SellerManager.getAllSellers,
    SellerManager.loadSellers. simpl negb. cbv iota.
  destruct (sellersFile w) as [|s0 file] eqn:Hfile.
  { simpl. by destruct (Js.truthy (WEBHOOK_URL_LISTINGS env)),
                       (Js.truthy (WEBHOOK_URL_SOLD env)). }
  change (List.length (s0 :: file) =? 0)%nat with false. cbv iota.
  set (ls := List.filter (fun s => bool_decide (s_type s = "listings")) (s0 :: file)).
  set (ss := List.filter (fun s => bool_decide (s_type s = "sold")) (s0 :: file)).
  assert (Hls : forall s, s ∈ ls -> s_type s = "listings")
    by (intros s Hs; by apply filter_type_elem in Hs as [_ ?]).
  assert (Hss : forall s, s ∈ ss -> s_type s = "sold")
    by (intros s Hs; by apply filter_type_elem in Hs as [_ ?]).
  rewrite foldl_app.
  destruct (Js.truthy (WEBHOOK_URL_LISTINGS env));
    destruct (Js.truthy (WEBHOOK_URL_SOLD env)); simpl.
  - rewrite <- (forListingSellers_turns ls w Hls), <- forSoldSellers_turns by done.
    destruct ls; destruct ss; done.
  - rewrite <- (forListingSellers_turns ls w Hls). by destruct ls.
  - rewrite <- forSoldSellers_turns by done. by destruct ss.
  - done.
Qed.

Lemma cycleTodo_spec file :
  (forall s, s ∈ cycleTodo env file ->
             s ∈ file /\ (s_type s = "listings" \/ s_type s = "sold"))
  /\ (List.length (cycleTodo env file) <= List.length file)%nat
  /\ (NoDup file -> NoDup (cycleTodo env file)).
Proof.
  set (ls := List.filter (fun s => bool_decide (s_type s = "listings")) file).
  set (ss := List.filter (fun s => bool_decide (s_type s = "sold")) file).
  assert (Hlen : (List.length ls + List.length ss <= List.length file)%nat).
  { subst ls ss. induction file as [|x file IH]; simpl; [lia|].
    destruct (bool_decide (s_type x = "listings")) eqn:E1;
      destruct (bool_decide (s_type x = "sold")) eqn:E2; simpl; try lia.
    apply bool_decide_eq_true in E1, E2. congruence. }
  pose proof (List.filter_length_le (fun s => bool_decide (s_type s = "listings")) file).
  pose proof (List.filter_length_le (fun s => bool_decide (s_type s = "sold")) file).
  unfold cycleTodo. fold ls ss.
  split; [|split].
  - intros s Hs. apply elem_of_app in Hs as [Hs|Hs].
    + destruct (Js.truthy (WEBHOOK_URL_LISTINGS env)); [|by apply not_elem_of_nil in Hs].
      apply filter_type_elem in Hs as [? ?]. auto.
    + destruct (Js.truthy (WEBHOOK_URL_SOLD env)); [|by apply not_elem_of_nil in Hs].
      apply filter_type_elem in Hs as [? ?]. auto.
  - rewrite length_app.
    destruct (Js.truthy (WEBHOOK_URL_LISTINGS env));
      destruct (Js.truthy (WEBHOOK_URL_SOLD env)); simpl; lia.
  - intros Hnd. apply NoDup_app. split; [|split].
    + destruct (Js.truthy (WEBHOOK_URL_LISTINGS env)); [|apply NoDup_nil_2].
      apply NoDup_ListNoDup, List.NoDup_filter. by apply NoDup_ListNoDup.
    + intros s Hs Hs'.
      destruct (Js.truthy (WEBHOOK_URL_LISTINGS env)); [|by apply not_elem_of_nil in Hs].
      destruct (Js.truthy (WEBHOOK_URL_SOLD env)); [|by apply not_elem_of_nil in Hs'].
      apply filter_type_elem in Hs as [_ Hs]. apply filter_type_elem in Hs' as [_ Hs'].
      congruence.
    + destruct (Js.truthy (WEBHOOK_URL_SOLD env)); [|apply NoDup_nil_2].
      apply NoDup_ListNoDup, List.NoDup_filter. by apply NoDup_ListNoDup.
Qed.

End WholeCycle.

Lemma Forall2_compose {A : Type} (R : A -> A -> Prop) (l1 l2 l3 : list A) :
  (forall x y z, R x y -> R y z -> R x z) ->
  Forall2 R l1 l2 -> Forall2 R l2 l3 -> Forall2 R l1 l3.
Proof.
  intros Htrans H12. revert l3.
  induction H12 as [|x y l1 l2 Hxy H12 IH]; intros l3 H23.
  - by inversion H23.
  - inversion H23 as [|? z ? l3' Hyz H23']; subst.
    constructor; [by eapply Htrans|by apply IH].
Qed.

Lemma Forall2_refl_insert {A : Type} (R : A -> A -> Prop) (l : list A) i x y :
  (forall z, R z z) -> l !! i = Some x -> R x y -> Forall2 R l (<[i := y]> l).
Proof.
  intros Hrefl. revert i. induction l as [|z l IH]; intros i Hi Hxy; [done|].
  destruct i as [|i]; simpl in *.
  - inversion Hi; subst. constructor; [done|]. by apply Forall_Forall2_diag, Forall_true.
  - constructor; [done|]. by apply IH.
Qed.


Lemma cycleMayChange_refl r : cycleMayChange r r.
Proof. by repeat split. Qed.

Lemma cycleMayChange_trans r1 r2 r3 :
  cycleMayChange r1 r2 -> cycleMayChange r2 r3 -> cycleMayChange r1 r3.
Proof.
  intros (I1 & L1 & S1) (I2 & L2 & S2).
  assert (Hty : s_type r2 = s_type r1).
  { unfold identityOf in I1. by inversion I1. }
  rewrite Hty in L2, S2.
  split; [congruence|]. split; intros Hn.
  - destruct (L1 Hn), (L2 Hn). split; congruence.
  - destruct (S1 Hn), (S2 Hn). split; congruence.
Qed.



Lemma isSeller_type k s s0 :
  s_type s = "listings" \/ s_type s = "sold" ->
  SellerManager.isSeller k (s_type s) s0 = true -> s_type s0 = s_type s.
Proof.
  intros Hty H. unfold SellerManager.isSeller in H.
  apply andb_prop in H as [_ H].
  destruct Hty as [E|E]; rewrite E in *; simpl in H; by apply bool_decide_eq_true in H.
Qed.

Section CycleInvariants.
Context (env : Env).

(** One turn changes only fields of the record's own type. *)
Lemma turn_cycleMayChange s w :
  s_type s = "listings" \/ s_type s = "sold" ->
  Forall2 cycleMayChange (sellersFile w) (sellersFile (turn env s w)).
Proof.
  intros Hty.
  destruct (turn_effect env s w Hty) as (_ & _ & [Hsame|(i & s0 & u & Hi & Hs0 & Hfile & Hu)]).
  - rewrite Hsame. apply Forall_Forall2_diag, Forall_forall. intros. apply cycleMayChange_refl.
  - rewrite Hfile. eapply Forall2_refl_insert; [apply cycleMayChange_refl|exact Hs0|].
    destruct (findIndex_Some _ _ _ Hi) as (s0' & Hs0' & Hmatch).
    rewrite Hs0 in Hs0'. inversion Hs0'; subst s0'.
    pose proof (isSeller_type _ _ _ Hty Hmatch) as Hsame.
    destruct Hu as [(Hl & Hks & Hts & ids & t & Hkl & Htl)|(Hsd & Hkl & Htl & ids & t & Hks & Hts)].
    + split; [done|]. split.
      * intros Hn. congruence.
      * intros _. unfold SellerManager.merge. simpl. by rewrite Hks, Hts.
    + split; [done|]. split.
      * intros _. unfold SellerManager.merge. simpl. by rewrite Hkl, Htl.
      * intros Hn. congruence.
Qed.

Lemma turns_cycleMayChange todo : forall w,
  (forall s, s ∈ todo -> s_type s = "listings" \/ s_type s = "sold") ->
  Forall2 cycleMayChange (sellersFile w)
    (sellersFile (foldl (fun w s => turn env s w) w todo)).
Proof.
  induction todo as [|s todo IH]; intros w Hty; simpl.
  - apply Forall_Forall2_diag, Forall_forall. intros. apply cycleMayChange_refl.
  - eapply Forall2_compose; [apply cycleMayChange_trans| |].
    + apply turn_cycleMayChange, Hty, list_elem_of_here.
    + apply IH. intros x Hx. apply Hty. by apply list_elem_of_further.
Qed.


(** X21. A monitoring cycle never adds, removes or reorders records and
    never changes what identifies one; in a record it changes at most the
    known ids and the check time of the record's own type, so records of
    the other type, and of any other type, come out exactly as they went
    in. *)
Theorem cycle_changes_only_fields_of_the_own_type (active : bool) (w : World) :
  Forall2 cycleMayChange (sellersFile w)
    (sellersFile (Monitor.monitorSellers env active w)).
Proof.
  destruct active.
  - rewrite monitorSellers_turns. apply turns_cycleMayChange.
    intros s Hs. by apply (cycleTodo_spec env (sellersFile w)) in Hs as [_ ?].
  - apply Forall_Forall2_diag, Forall_forall. intros. apply cycleMayChange_refl.
Qed.




End CycleInvariants.


(** ** More on the scheduler *)

Section SchedulerMore.
Context (MONITOR_INTERVAL : Z).

Lemma triggers_queue k : forall st,
  let st' := foldl (Scheduler.step MONITOR_INTERVAL) st
               (replicate k Scheduler.ConfigurationChanged) in
  Scheduler.timeouts st'
    = (Scheduler.timeouts st ++ replicate k (Scheduler.now st + 2000))%list
  /\ Scheduler.now st' = Scheduler.now st
  /\ Scheduler.cyclesInProgress st' = Scheduler.cyclesInProgress st
  /\ Scheduler.monitoringActive st' = Scheduler.monitoringActive st
  /\ Scheduler.intervalDue st' = Scheduler.intervalDue st.
Proof.
  induction k as [|k IH]; intros st; simpl.
  - by rewrite app_nil_r.
  - destruct (IH (Scheduler.triggerMonitoringRestart st)) as (Ht & Hn & Hc & Ha & Hi).
    simpl in *. rewrite Ht, Hn, Hc, Ha, Hi. by rewrite <- app_assoc.
Qed.

Lemma timeouts_fire k : forall st due,
  Scheduler.monitoringActive st = true ->
  Scheduler.timeouts st = replicate k due ->
  due <= Scheduler.now st ->
  let st' := foldl (Scheduler.step MONITOR_INTERVAL) st
               (replicate k Scheduler.TimeoutFires) in
  Scheduler.cyclesInProgress st' = (Scheduler.cyclesInProgress st + k)%nat
  /\ Scheduler.timeouts st' = [].
Proof.
  induction k as [|k IH]; intros st due Ha Hq Hdue; simpl.
  - split; [lia|done].
  - simpl in Hq. rewrite Hq.
    replace (due <=? Scheduler.now st) with true by (symmetry; by apply Z.leb_le).
    unfold Scheduler.callMonitorSellers. simpl. rewrite Ha. simpl.
    match goal with |- context [foldl _ ?s _] =>
      destruct (IH s due) as [Hc Ht]; [done|done|done|] end.
    simpl in Hc. split; [lia|done].
Qed.

(** X24. Configuration changes are not coalesced: [k] changes in a row
    add [k] timeouts, all due two seconds later, and start no cycle by
    themselves; if no timeout was pending, then once the two seconds have
    passed the [k] timeouts start [k] cycles, on top of those in progress. *)
Theorem configuration_changes_are_not_coalesced
    (evs : list Scheduler.Event) (k : nat) :
  let st := Scheduler.run MONITOR_INTERVAL evs in
  let changed := foldl (Scheduler.step MONITOR_INTERVAL) st
                   (replicate k Scheduler.ConfigurationChanged) in
  let fired := foldl (Scheduler.step MONITOR_INTERVAL) changed
                 (Scheduler.Elapse 2000 :: replicate k Scheduler.TimeoutFires) in
  Scheduler.timeouts changed
    = (Scheduler.timeouts st ++ replicate k (Scheduler.now st + 2000))%list
  /\ Scheduler.cyclesInProgress changed = Scheduler.cyclesInProgress st
  /\ (Scheduler.timeouts st = [] ->
      Scheduler.cyclesInProgress fired = (Scheduler.cyclesInProgress st + k)%nat
      /\ Scheduler.timeouts fired = []).
Proof.
  intros st changed fired.
  destruct (triggers_queue k st) as (Ht & Hn & Hc & Ha & _). fold changed in Ht, Hn, Hc, Ha.
  split; [exact Ht|]. split; [exact Hc|]. intros Hempty.
  subst fired. simpl.
  match goal with |- context [foldl _ ?s _] =>
    destruct (timeouts_fire k s (Scheduler.now st + 2000)) as [Hf Hq] end.
  - simpl. rewrite Ha. apply run_monitoringActive.
  - simpl. by rewrite Ht, Hempty.
  - simpl. rewrite Hn. lia.
  - simpl in Hf. split; [lia|exact Hq].
Qed.

Lemma step_keeps_the_interval st ev :
  ev <> Scheduler.IntervalFires ->
  Scheduler.intervalDue (Scheduler.step MONITOR_INTERVAL st ev) = Scheduler.intervalDue st.
Proof.
  intros Hev. destruct ev; simpl; try done.
  destruct (Scheduler.timeouts st) as [|due later]; [done|].
  destruct (due <=? Scheduler.now st); [|done].
  unfold Scheduler.callMonitorSellers. simpl.
  by destruct (Scheduler.monitoringActive st).
Qed.

Lemma step_stays_armed st ev :
  is_Some (Scheduler.intervalDue st) ->
  is_Some (Scheduler.intervalDue (Scheduler.step MONITOR_INTERVAL st ev)).
Proof.
  intros [due Hdue].
  destruct ev; try (rewrite step_keeps_the_interval by done; by rewrite Hdue).
  simpl. rewrite Hdue. destruct (due <=? Scheduler.now st); [|by rewrite Hdue].
  unfold Scheduler.callMonitorSellers. simpl.
  by destruct (Scheduler.monitoringActive st).
Qed.

(** X25. The periodic timer set at start-up is never cancelled and
    never re-armed by anything but its own firing: it is armed in every
    state the process can reach, and configuration changes, their timeouts,
    the passing of time and the end of cycles leave its due time as it
    was. *)
Theorem periodic_timer_is_never_cancelled
    (evs others : list Scheduler.Event) :
  let st := Scheduler.run MONITOR_INTERVAL evs in
  is_Some (Scheduler.intervalDue st)
  /\ (Forall (fun ev => ev <> Scheduler.IntervalFires) others ->
      Scheduler.intervalDue (foldl (Scheduler.step MONITOR_INTERVAL) st others)
      = Scheduler.intervalDue st).
Proof.
  intros st. split.
  - subst st. unfold Scheduler.run.
    assert (H : forall st0, is_Some (Scheduler.intervalDue st0) ->
              is_Some (Scheduler.intervalDue
                         (foldl (Scheduler.step MONITOR_INTERVAL) st0 evs))).
    { induction evs as [|ev evs' IH]; intros st0 Hst0; [done|].
      simpl. apply IH. by apply step_stays_armed. }
    apply H. by eexists.
  - generalize st. clear st.
    induction others as [|ev others' IH]; intros st Hall; [done|].
    apply Forall_cons in Hall as [Hev Hall]. simpl.
    rewrite (IH _ Hall). by apply step_keeps_the_interval.
Qed.

End SchedulerMore.

(** ** Instances of the theorems that carry a precondition *)

Lemma successful_send_clears_the_rate_limit_witness :
  let env := Fixture.env (fun _ => PostOk) Fixture.noListings Fixture.noSold in
  let url := WEBHOOK_URL_SOLD env in
  let w := setRateLimitState (<[url := 1000500]> ∅) (Fixture.world []) in
  rateLimitState
    (snd (Webhooks.sendWithRateLimit url (Webhooks.sendFunction env url) 5 w)) !! url
  = None.
Proof.
  intros env url w.
  apply (successful_send_clears_the_rate_limit env url 5 w).
  vm_compute. reflexivity.
Defined.

Lemma rate_limit_entry_delays_witness :
  let env := Fixture.env (fun _ => PostOk) Fixture.noListings Fixture.noSold in
  let url := WEBHOOK_URL_SOLD env in
  let w := setRateLimitState (<[url := 1003000]> ∅) (Fixture.world []) in
  exists later,
    trace (snd (Webhooks.sendWithRateLimit url (Webhooks.sendFunction env url) 5 w))
    = EvSleep 3000 :: EvPost url :: later.
Proof.
  intros env url w.
  refine (proj1 (rate_limit_entry_delays_the_next_request env url 5 w _) 1003000 _ _).
  - apply le_S, le_S, le_S, le_S, le_n.
  - apply lookup_insert_eq.
  - reflexivity.
Defined.

Lemma server_errors_witness :
  let r := {| status := 503; retryAfterHeader := None; retryAfterBody := None |} in
  let env := Fixture.env (fun _ => PostError (Some r)) Fixture.noListings Fixture.noSold in
  let url := WEBHOOK_URL_LISTINGS env in
  let w := Fixture.world [] in
  fst (Webhooks.sendWithRateLimit url (Webhooks.sendFunction env url) 5 w) = false.
Proof.
  intros r env url w.
  apply (server_errors_use_up_the_five_attempts env url w).
  - apply lookup_empty.
  - intros k _. exists r. split; [reflexivity|]. vm_compute. discriminate.
Defined.

Lemma extractItemId_witness :
  let env := Fixture.env (fun _ => PostOk) Fixture.noListings Fixture.noSold in
  Scraper.extractItemId env "https://www.ebay.com/itm/12345?hash=1" = Some "12345".
Proof.
  intros env.
  apply (extractItemId_reads_the_item_number env "12345" "?hash=1" eq_refl eq_refl).
  right. exists "?"%char, "hash=1". split; reflexivity.
Defined.

Lemma sold_items_wellformed_witness :
  let page := {| seenAt := 1762128000000;
                 elements := [Fixture.card "111" "Sold  Nov 2, 2025"] |} in
  let env := Fixture.env (fun _ => PostOk) Fixture.noListings
               (fun _ => SoldVisitLoads page NoNextControl) in
  exists soldData,
    fst (Scraper.getSellerSoldItemsInternal env "alicestore" (Some "alice")
           (Fixture.world [])) = Ok soldData
    /\ forall x, x ∈ Scraper.soldItems soldData ->
         Js.includes "?" (link x) = false
         /\ Scraper.soldWithinTwoDays env 1762128000000 (soldDate x) = true.
Proof.
  intros page env.
  destruct (sold_items_returned_are_wellformed_and_recent env "alicestore"
              (Some "alice") (Fixture.world []) page NoNextControl eq_refl)
    as (soldData & Hok & Hall).
  exists soldData. split; [exact Hok|].
  intros x Hx.
  destruct (Hall x Hx) as (_ & _ & _ & Hq & _ & _ & _ & q & e & it & Hpage & _ & _ & _
                           & _ & _ & _ & Hwin).
  split; [exact Hq|].
  apply list_elem_of_singleton in Hpage. by subst q.
Defined.
